(** * A BitTorrent peer and its toy UDP tracker: the session handlers,
      the start-up verification and the tracker's announce path.

    The development follows the Python sources:
    - [server.py]: [TrackerStorage], [TorrentData], [UDPTrackerServerProtocol];
    - [torrent_client/network/peer_tcp_client.py]: [PeerTCPClient];
    - [torrent_client/algorithms/torrent_manager.py]:
      [TorrentManager._verify_existing_data].

    Bytes are [Byte.byte], Python integers are [Z], wall-clock readings are
    rationals, dictionaries whose iteration order is observable are
    insertion-ordered association lists, the others are [gmap]s. *)

From Stdlib Require Import ZArith QArith Lqa List Bool Ascii String Lia.
From Stdlib.Strings Require Import Byte.
From stdpp Require Import base option list gmap strings.

Local Open Scope Z_scope.

#[global] Instance byte_eq_dec : EqDecision byte := Byte.byte_eq_dec.

(** ** struct: fixed-width big-endian fields *)

Module Wire.

Definition Z_of_byte (b : byte) : Z := Z.of_N (Byte.to_N b).

Definition byte_of_Z (z : Z) : byte :=
  match Byte.of_N (Z.to_N (z mod 256)) with
  | Some b => b
  | None => x00
  end.

(** [int.from_bytes(bs, 'big')]. *)
Definition be_decode (bs : list byte) : Z :=
  fold_left (fun acc b => acc * 256 + Z_of_byte b) bs 0.

(** The [n] low bytes of [z], most significant first. *)
Fixpoint be_encode (n : nat) (z : Z) : list byte :=
  match n with
  | O => []
  | S k => byte_of_Z (z / 256 ^ Z.of_nat k) :: be_encode k z
  end.

(** [struct.pack] of one unsigned field of [n] bytes: [struct.error]
    (here [None]) when the value does not fit. *)
Definition pack_uint (n : nat) (z : Z) : option (list byte) :=
  if (0 <=? z) && (z <? 256 ^ Z.of_nat n) then Some (be_encode n z) else None.

(** [data[off : off + len]]. *)
Definition slice (off len : nat) (data : list byte) : list byte :=
  take len (drop off data).

(** [struct.unpack_from] of one unsigned field of [len] bytes at [off];
    the caller has checked that the buffer is long enough. *)
Definition field (off len : nat) (data : list byte) : Z :=
  be_decode (slice off len data).

(** The '4s' field: truncated or zero-padded to four bytes. *)
Definition pack_4s (bs : list byte) : list byte :=
  take 4 (bs ++ replicate 4 x00).

End Wire.

(** ** Python dictionaries (insertion-ordered) *)

Module Dict.
Section Dict.
Context {K V : Type} `{EqDecision K}.

Fixpoint get (k : K) (d : list (K * V)) : option V :=
  match d with
  | [] => None
  | (k', v) :: d' => if decide (k = k') then Some v else get k d'
  end.

(** [d[k] = v]: an existing key keeps its position, a new one goes last. *)
Fixpoint set (k : K) (v : V) (d : list (K * V)) : list (K * V) :=
  match d with
  | [] => [(k, v)]
  | (k', v') :: d' =>
      if decide (k = k') then (k, v) :: d' else (k', v') :: set k v d'
  end.

Definition values (d : list (K * V)) : list V := map snd d.

(** [del d[k]] for a key that is present; an absent key leaves [d] as it
    is (the callers test [k in d] first). *)
Fixpoint del (k : K) (d : list (K * V)) : list (K * V) :=
  match d with
  | [] => []
  | (k', v') :: d' => if decide (k = k') then d' else (k', v') :: del k d'
  end.

Definition keys (d : list (K * V)) : list K := map fst d.
End Dict.
End Dict.

(** ** server.py *)

Module Tracker.
Import Wire.

(** *** TrackerStorage *)

(** [connection_ids]: connection id to expiration time. *)
Definition add_connection_id (now : Q) (connection_id : Z)
    (ids : gmap Z Q) : gmap Z Q :=
  let expiration_time := (now + 300)%Q in
  <[connection_id := expiration_time]> ids.

Definition remove_connection_id (connection_id : Z) (ids : gmap Z Q) : gmap Z Q :=
  delete connection_id ids.

(** [exp > now] on the clock readings. *)
Definition Qgtb (a b : Q) : bool := negb (Qle_bool a b).

Definition is_connection_id_valid (now : Q) (connection_id : Z)
    (ids : gmap Z Q) : bool :=
  match ids !! connection_id with
  | Some expiration_time => Qgtb expiration_time now
  | None => false
  end.

(** *** TorrentData *)

Record PeerInfo := {
  ip : string;
  port : Z;
  is_seeder : bool
}.

Record TorrentData := {
  peers : list (list byte * PeerInfo);
  seeders_count : Z;
  leechers_count : Z;
  interval : Z
}.

Definition TorrentData_init : TorrentData :=
  {| peers := []; seeders_count := 0; leechers_count := 0; interval := 1800 |}.

Definition same_endpoint (ip0 : string) (port0 : Z) (info : PeerInfo) : bool :=
  bool_decide (ip info = ip0) && (port info =? port0).

(** The scan of [add_peer]: the first key whose record has the same ip
    and port. *)
Fixpoint find_existing (ip0 : string) (port0 : Z)
    (d : list (list byte * PeerInfo)) : option (list byte) :=
  match d with
  | [] => None
  | (pid, info) :: d' =>
      if same_endpoint ip0 port0 info then Some pid else find_existing ip0 port0 d'
  end.

(** [if existing_peer:] is false for [None] and for the empty key. *)
Definition truthy (k : option (list byte)) : option (list byte) :=
  match k with
  | Some (b :: bs) => Some (b :: bs)
  | _ => None
  end.

Definition add_peer (peer_id : list byte) (ip0 : string) (port0 : Z)
    (seeder : bool) (td : TorrentData) : TorrentData :=
  let new_info := {| ip := ip0; port := port0; is_seeder := seeder |} in
  match truthy (find_existing ip0 port0 (peers td)) with
  | Some existing_peer =>
      let was_seeder :=
        match Dict.get existing_peer (peers td) with
        | Some info => is_seeder info
        | None => false
        end in
      let '(s, l) :=
        if was_seeder && negb seeder
        then (seeders_count td - 1, leechers_count td + 1)
        else if negb was_seeder && seeder
        then (seeders_count td + 1, leechers_count td - 1)
        else (seeders_count td, leechers_count td) in
      {| peers := Dict.set existing_peer new_info (peers td);
         seeders_count := s; leechers_count := l; interval := interval td |}
  | None =>
      {| peers := Dict.set peer_id new_info (peers td);
         seeders_count := if seeder then seeders_count td + 1 else seeders_count td;
         leechers_count := if seeder then leechers_count td else leechers_count td + 1;
         interval := interval td |}
  end.

(** *** UDPTrackerServerProtocol *)

Record Server := {
  connection_ids : gmap Z Q;
  torrents : list (list byte * TorrentData)
}.

Definition Server_init : Server := {| connection_ids := ∅; torrents := [] |}.

(** The fields of an announce request, '!QII20s20sQQQIIIIH'. *)
Record Announce := {
  a_connection_id : Z;
  a_action : Z;
  a_transaction_id : Z;
  a_info_hash : list byte;
  a_peer_id : list byte;
  a_downloaded : Z;
  a_left : Z;
  a_uploaded : Z;
  a_event : Z;
  a_ip : Z;
  a_key : Z;
  a_num_want : Z;
  a_port : Z
}.

Definition ANNOUNCE_SIZE : nat := 98.

Definition unpack_announce (data : list byte) : option Announce :=
  if (ANNOUNCE_SIZE <=? length data)%nat then
    Some {| a_connection_id := field 0 8 data;
            a_action := field 8 4 data;
            a_transaction_id := field 12 4 data;
            a_info_hash := slice 16 20 data;
            a_peer_id := slice 36 20 data;
            a_downloaded := field 56 8 data;
            a_left := field 64 8 data;
            a_uploaded := field 72 8 data;
            a_event := field 80 4 data;
            a_ip := field 84 4 data;
            a_key := field 88 4 data;
            a_num_want := field 92 4 data;
            a_port := field 96 2 data |}
  else None.

(** [struct.unpack_from('!II', data, 8)]. *)
Definition unpack_action (data : list byte) : option (Z * Z) :=
  if (16 <=? length data)%nat then Some (field 8 4 data, field 12 4 data)
  else None.

Fixpoint has_colon (s : string) : bool :=
  match s with
  | EmptyString => false
  | String c s' => if Ascii.eqb c ":" then true else has_colon s'
  end.

(** [l[:n]] for a Python integer [n]. *)
Definition py_take {A} (n : Z) (l : list A) : list A :=
  if n <? 0 then take (length l - Z.to_nat (- n)) l else take (Z.to_nat n) l.

Section Handlers.
(** [socket.inet_aton] and [socket.inet_pton(AF_INET6, _)]; [None] when
    they raise. *)
Variable inet_aton : string -> option (list byte).
Variable inet_pton6 : string -> option (list byte).

(** One iteration of the loop that builds [peer_list]; a peer whose
    address or port cannot be packed is skipped. *)
Definition pack_peer (p : PeerInfo) : list byte :=
  let ip_bytes := if has_colon (ip p) then inet_pton6 (ip p) else inet_aton (ip p) in
  match ip_bytes with
  | Some bs =>
      match pack_uint 2 (port p) with
      | Some pb => pack_4s (take 4 bs) ++ pb
      | None => []
      end
  | None => []
  end.

Definition num_to_send (num_want : Z) (n_peers : nat) : Z :=
  if num_want =? -1 then Z.min 200 (Z.of_nat n_peers)
  else Z.min num_want (Z.of_nat n_peers).

(** The peers offered to an announcer at [(host, port0)]. *)
Definition selected_peers (num_want : Z) (host : string) (port0 : Z)
    (td : TorrentData) : list PeerInfo :=
  let others :=
    filter (fun p => negb (same_endpoint host port0 p))
           (Dict.values (peers td)) in
  py_take (num_to_send num_want (length others)) others.

Definition announce_header (transaction_id : Z) (td : TorrentData)
    : option (list byte) :=
  h1 ← pack_uint 4 1;
  h2 ← pack_uint 4 transaction_id;
  h3 ← pack_uint 4 (interval td);
  h4 ← pack_uint 4 (leechers_count td);
  h5 ← pack_uint 4 (seeders_count td);
  Some (h1 ++ h2 ++ h3 ++ h4 ++ h5).

(** [handle_connect]: [rnd] is the draw of [random.randint(0, 2**64 - 1)]. *)
Definition handle_connect (now : Q) (rnd : Z) (transaction_id : Z)
    (st : Server) : Server * option (list byte) :=
  let st' := {| connection_ids := add_connection_id now rnd (connection_ids st);
                torrents := torrents st |} in
  match pack_uint 4 0, pack_uint 4 transaction_id, pack_uint 8 rnd with
  | Some a, Some b, Some c => (st', Some (a ++ b ++ c))
  | _, _, _ => (st', None)
  end.

(** [handle_announce]; the result is the new state and the datagram
    passed to [sendto], if any.  An exception leaves the state as it
    was when raised and sends nothing ([datagram_received] logs it). *)
Definition handle_announce (now : Q) (data : list byte) (host : string)
    (st : Server) : Server * option (list byte) :=
  match unpack_announce data with
  | None => (st, None)
  | Some rq =>
      if negb (is_connection_id_valid now (a_connection_id rq) (connection_ids st))
      then (st, None)
      else
        let td0 := default TorrentData_init (Dict.get (a_info_hash rq) (torrents st)) in
        let td := add_peer (a_peer_id rq) host (a_port rq) (a_left rq =? 0) td0 in
        let st' := {| connection_ids := connection_ids st;
                      torrents := Dict.set (a_info_hash rq) td (torrents st) |} in
        match announce_header (a_transaction_id rq) td with
        | None => (st', None)
        | Some header =>
            if a_event rq =? 3 then (st', Some header)
            else
              let peer_list :=
                concat (map pack_peer
                  (selected_peers (a_num_want rq) host (a_port rq) td)) in
              (st', Some (header ++ peer_list))
        end
  end.

Definition datagram_received (now : Q) (rnd : Z) (data : list byte)
    (host : string) (st : Server) : Server * option (list byte) :=
  match unpack_action data with
  | None => (st, None)
  | Some (action, transaction_id) =>
      if action =? 0 then handle_connect now rnd transaction_id st
      else if action =? 1 then handle_announce now data host st
      else (st, None)
  end.

(** *** Runs of the server *)

(** One datagram as the server sees it: the reading of [time.time()]
    while it is handled, the draw of [random.randint] should it be a
    connect, the payload and the sender's host. *)
Record Datagram := {
  dg_now : Q;
  dg_rnd : Z;
  dg_data : list byte;
  dg_host : string
}.

Definition step (st : Server) (e : Datagram) : Server * option (list byte) :=
  datagram_received (dg_now e) (dg_rnd e) (dg_data e) (dg_host e) st.

(** The state reached from a fresh server by the datagrams of [tr], in
    order. *)
Definition run_trace (tr : list Datagram) : Server :=
  fold_left (fun st e => fst (step st e)) tr Server_init.

(** [e] is dispatched to [handle_connect]. *)
Definition is_connect (e : Datagram) : Prop :=
  exists transaction_id, unpack_action (dg_data e) = Some (0, transaction_id).

(** [e] is dispatched to [handle_announce] and carries [connection_id]. *)
Definition is_announce (e : Datagram) (connection_id : Z) : Prop :=
  (exists transaction_id, unpack_action (dg_data e) = Some (1, transaction_id))
  /\ field 0 8 (dg_data e) = connection_id.

(** [connection_id] was handed out by a connect of [tr] at most 300
    seconds before [now]. *)
Definition issued_within_300s (tr : list Datagram) (connection_id : Z)
    (now : Q) : Prop :=
  exists c, c ∈ tr /\ is_connect c /\ dg_rnd c = connection_id
            /\ (dg_now c <= now)%Q /\ (now <= dg_now c + 300)%Q.

(** The clock never runs backwards along [tr]. *)
Fixpoint nondecreasing (ts : list Q) : bool :=
  match ts with
  | a :: rest =>
      match rest with
      | b :: _ => Qle_bool a b && nondecreasing rest
      | [] => true
      end
  | [] => true
  end.

Definition clock_monotone (tr : list Datagram) : Prop :=
  nondecreasing (map dg_now tr) = true.
End Handlers.

(** *** The rest of TrackerStorage *)

(** [[cid for cid, exp_time in connection_ids.items() if exp_time <= now]]. *)
Definition expired_ids (now : Q) (ids : gmap Z Q) : list Z :=
  map fst (filter (fun kv => Qle_bool (snd kv) now) (map_to_list ids)).

Definition clean_expired_connection_ids (now : Q) (ids : gmap Z Q) : gmap Z Q :=
  fold_left (fun m cid => remove_connection_id cid m) (expired_ids now ids) ids.

(** [transaction_ids]: a [defaultdict(list)] from peer id to transaction
    ids. *)
Definition add_transaction_id (peer_id : list byte) (transaction_id : Z)
    (t : list (list byte * list Z)) : list (list byte * list Z) :=
  Dict.set peer_id (default [] (Dict.get peer_id t) ++ [transaction_id]) t.

(** [l.remove(x)]: the first occurrence goes; [None] is the [ValueError] of
    an absent [x]. *)
Fixpoint list_remove (x : Z) (l : list Z) : option (list Z) :=
  match l with
  | [] => None
  | y :: l' =>
      if decide (x = y) then Some l'
      else match list_remove x l' with
           | Some r => Some (y :: r)
           | None => None
           end
  end.

Definition remove_transaction_id (peer_id : list byte) (transaction_id : Z)
    (t : list (list byte * list Z)) : option (list (list byte * list Z)) :=
  match Dict.get peer_id t with
  | None => Some t
  | Some l =>
      match list_remove transaction_id l with
      | None => None
      | Some l' => Some (Dict.set peer_id l' t)
      end
  end.

Definition get_transaction_ids (peer_id : list byte)
    (t : list (list byte * list Z)) : list Z :=
  default [] (Dict.get peer_id t).

(** *** The rest of TorrentData *)

Definition remove_peer (peer_id : list byte) (td : TorrentData) : TorrentData :=
  match Dict.get peer_id (peers td) with
  | Some info =>
      {| peers := Dict.del peer_id (peers td);
         seeders_count :=
           if is_seeder info then seeders_count td - 1 else seeders_count td;
         leechers_count :=
           if is_seeder info then leechers_count td else leechers_count td - 1;
         interval := interval td |}
  | None => td
  end.

(** [sum(1 for peer in peers.values() if peer['is_seeder'])]. *)
Fixpoint count_seeders (d : list (list byte * PeerInfo)) : Z :=
  match d with
  | [] => 0
  | (_, info) :: d' => (if is_seeder info then 1 else 0) + count_seeders d'
  end.

Definition update_peer_counts (td : TorrentData) : TorrentData :=
  let seeders := count_seeders (peers td) in
  {| peers := peers td;
     seeders_count := seeders;
     leechers_count := Z.of_nat (length (peers td)) - seeders;
     interval := interval td |}.

Definition complete_download (peer_id : list byte) (td : TorrentData)
    : TorrentData :=
  match Dict.get peer_id (peers td) with
  | Some info =>
      if negb (is_seeder info) then
        {| peers :=
             Dict.set peer_id
               {| ip := ip info; port := port info; is_seeder := true |}
               (peers td);
           seeders_count := seeders_count td + 1;
           leechers_count := leechers_count td - 1;
           interval := interval td |}
      else td
  | None => td
  end.

(** *** What the counters of a torrent should say *)

Definition b2z (b : bool) : Z := if b then 1 else 0.

Definition count_leechers (d : list (list byte * PeerInfo)) : Z :=
  Z.of_nat (length d) - count_seeders d.

(** The two counters agree with the records. *)
Definition counts_exact (td : TorrentData) : Prop :=
  seeders_count td = count_seeders (peers td)
  /\ leechers_count td = count_leechers (peers td).

(** The two counters are at least what the records say. *)
Definition counts_cover (td : TorrentData) : Prop :=
  count_seeders (peers td) <= seeders_count td
  /\ count_leechers (peers td) <= leechers_count td.

Definition endpoint (info : PeerInfo) : string * Z := (ip info, port info).

(** Keys are distinct and not empty, and no two records share an
    endpoint. *)
Definition distinct_endpoints (td : TorrentData) : Prop :=
  NoDup (Dict.keys (peers td))
  /\ Forall (fun k => k <> []) (Dict.keys (peers td))
  /\ NoDup (map endpoint (Dict.values (peers td))).

End Tracker.

(** ** bitarray (big-endian bit order) *)

Module Bitarray.

(** The eight bits of a byte, most significant first. *)
Definition bits_of_byte (b : byte) : list bool :=
  let '(b0, (b1, (b2, (b3, (b4, (b5, (b6, b7))))))) := Byte.to_bits b in
  [b7; b6; b5; b4; b3; b2; b1; b0].

Definition byte_of_bits (c0 c1 c2 c3 c4 c5 c6 c7 : bool) : byte :=
  Byte.of_bits (c7, (c6, (c5, (c4, (c3, (c2, (c1, c0))))))).

(** [arr.frombytes(bs)] on an empty array. *)
Definition frombytes (bs : list byte) : list bool :=
  concat (map bits_of_byte bs).

(** [arr.tobytes()]: the last byte is padded with zero bits. *)
Fixpoint tobytes (bits : list bool) : list byte :=
  match bits with
  | [] => []
  | c0 :: c1 :: c2 :: c3 :: c4 :: c5 :: c6 :: c7 :: rest =>
      byte_of_bits c0 c1 c2 c3 c4 c5 c6 c7 :: tobytes rest
  | [c0; c1; c2; c3; c4; c5; c6] => [byte_of_bits c0 c1 c2 c3 c4 c5 c6 false]
  | [c0; c1; c2; c3; c4; c5] => [byte_of_bits c0 c1 c2 c3 c4 c5 false false]
  | [c0; c1; c2; c3; c4] => [byte_of_bits c0 c1 c2 c3 c4 false false false]
  | [c0; c1; c2; c3] => [byte_of_bits c0 c1 c2 c3 false false false false]
  | [c0; c1; c2] => [byte_of_bits c0 c1 c2 false false false false false]
  | [c0; c1] => [byte_of_bits c0 c1 false false false false false false]
  | [c0] => [byte_of_bits c0 false false false false false false false]
  end.

End Bitarray.

(** ** torrent_client.models and torrent_client.file_structure

    These two modules are imported by the sources but are not among them.
    The records below carry the attributes the sources read and write; the
    methods whose bodies matter to no property here are the members of
    [Collaborators]. *)

Module Models.

Record Peer := { host : string; peer_port : Z }.

#[global] Instance Peer_eq_dec : EqDecision Peer.
Proof. solve_decision. Defined.

#[global] Instance Peer_countable : Countable Peer :=
  inj_countable' (fun p => (host p, peer_port p))
                 (fun hp => {| host := hp.1; peer_port := hp.2 |})
                 (fun p => match p with Build_Peer _ _ => eq_refl end).

Record BlockRequest := {
  piece_index : Z;
  block_begin : Z;
  block_length : Z
}.

(** Modelled from the spec: the class [PieceInfo] of torrent_client.models
    is missing; the fields are those of the spec's PieceState. *)
Record PieceInfo := {
  piece_hash : list byte;
  selected : bool;
  downloaded : bool;
  validating : bool;
  blocks_present : list bool;
  owners : gset Peer
}.

(** Modelled from the spec: [PieceInfo.reset_content] is missing; the spec
    has a failed piece go back to empty, with [blocks_present] reset. *)
Definition reset_content (p : PieceInfo) : PieceInfo :=
  {| piece_hash := piece_hash p; selected := selected p;
     downloaded := false; validating := validating p;
     blocks_present := map (fun _ => false) (blocks_present p);
     owners := owners p |}.

(** Modelled from the spec: [PieceInfo.mark_as_downloaded] is missing; the
    spec has a verified piece become downloaded. *)
Definition mark_as_downloaded (p : PieceInfo) : PieceInfo :=
  {| piece_hash := piece_hash p; selected := selected p;
     downloaded := true; validating := validating p;
     blocks_present := blocks_present p;
     owners := owners p |}.

Definition add_owner (peer : Peer) (p : PieceInfo) : PieceInfo :=
  {| piece_hash := piece_hash p; selected := selected p;
     downloaded := downloaded p; validating := validating p;
     blocks_present := blocks_present p;
     owners := {[peer]} ∪ owners p |}.

(** What the sources call on objects whose classes are missing. A read or
    a write that raises [OSError] is [None], respectively [false]. *)
Class Collaborators := {
  SessionStatistics : Type;
  add_downloaded : Peer -> Z -> SessionStatistics -> SessionStatistics;
  add_uploaded : Peer -> Z -> SessionStatistics -> SessionStatistics;
  FileStructure : Type;
  fs_read : Z -> Z -> FileStructure -> option (list byte);
  fs_write : Z -> list byte -> FileStructure -> FileStructure * bool;
  mark_downloaded_blocks : Peer -> BlockRequest -> PieceInfo -> PieceInfo;
  sha1 : list byte -> list byte
}.

Section DownloadInfo.
Context `{Collaborators}.

Record DownloadInfo := {
  info_hash : list byte;
  pieces : list PieceInfo;
  piece_count : Z;
  piece_length : Z;
  total_size : Z;
  interesting_pieces : gset Z;
  downloaded_piece_count : Z;
  complete : bool;
  session_statistics : SessionStatistics
}.

Definition set_pieces (ps : list PieceInfo) (d : DownloadInfo) : DownloadInfo :=
  {| info_hash := info_hash d; pieces := ps; piece_count := piece_count d;
     piece_length := piece_length d; total_size := total_size d;
     interesting_pieces := interesting_pieces d;
     downloaded_piece_count := downloaded_piece_count d;
     complete := complete d; session_statistics := session_statistics d |}.

Definition set_session_statistics (st : SessionStatistics) (d : DownloadInfo)
    : DownloadInfo :=
  {| info_hash := info_hash d; pieces := pieces d; piece_count := piece_count d;
     piece_length := piece_length d; total_size := total_size d;
     interesting_pieces := interesting_pieces d;
     downloaded_piece_count := downloaded_piece_count d;
     complete := complete d; session_statistics := st |}.
End DownloadInfo.

(** [seq[i]] for a Python integer [i] and a sequence of length [n]: the
    position read, or [None] for [IndexError]. *)
Definition py_index (i : Z) (n : nat) : option nat :=
  if (0 <=? i) && (i <? Z.of_nat n) then Some (Z.to_nat i)
  else if (- Z.of_nat n <=? i) && (i <? 0) then Some (Z.to_nat (i + Z.of_nat n))
  else None.

End Models.

(** ** torrent_client/network/peer_tcp_client.py *)

Module PeerTCPClient.
Import Wire Bitarray Models.

Inductive MessageType :=
| choke | unchoke | interested | not_interested | have
| bitfield | request | piece | cancel | port.

Definition MessageType_value (m : MessageType) : Z :=
  match m with
  | choke => 0 | unchoke => 1 | interested => 2 | not_interested => 3
  | have => 4 | bitfield => 5 | request => 6 | piece => 7
  | cancel => 8 | port => 9
  end.

(** [MessageType(v)]; [None] stands for its [ValueError]. *)
Definition MessageType_of (v : Z) : option MessageType :=
  match v with
  | 0 => Some choke | 1 => Some unchoke | 2 => Some interested
  | 3 => Some not_interested | 4 => Some have | 5 => Some bitfield
  | 6 => Some request | 7 => Some piece | 8 => Some cancel | 9 => Some port
  | _ => None
  end.

Inductive exn :=
| ValueError (msg : string)
| IndexError (msg : string)
| RuntimeError (msg : string)
| StructError
| IncompleteReadError
| OSError.

Inductive result (A : Type) :=
| Return (a : A)
| Raise (e : exn).
Arguments Return {A} a.
Arguments Raise {A} e.

Definition MAX_MESSAGE_LENGTH : Z := 2 ^ 18.
Definition MAX_REQUEST_LENGTH : Z := 2 ^ 17.
Definition _KEEP_ALIVE_MESSAGE : list byte := [x00; x00; x00; x00].

Section Client.
Context `{Collaborators}.

(** The attributes of a [PeerTCPClient].  [_reader] holds the bytes the
    peer sends before it closes the stream, [_writer] the bytes written
    so far; no read or write times out. *)
Record Session := {
  _our_peer_id : list byte;
  _peer : Peer;
  _download_info : DownloadInfo;
  _file_structure : FileStructure;
  _piece_owned : list bool;
  _am_choking : bool;
  _am_interested : bool;
  _peer_choking : bool;
  _peer_interested : bool;
  _downloaded : Z;
  _uploaded : Z;
  _reader : list byte;
  _writer : list byte;
  _connected : bool
}.

Definition with_download_info (d : DownloadInfo) (s : Session) : Session :=
  {| _our_peer_id := _our_peer_id s; _peer := _peer s; _download_info := d;
     _file_structure := _file_structure s; _piece_owned := _piece_owned s;
     _am_choking := _am_choking s; _am_interested := _am_interested s;
     _peer_choking := _peer_choking s; _peer_interested := _peer_interested s;
     _downloaded := _downloaded s; _uploaded := _uploaded s;
     _reader := _reader s; _writer := _writer s; _connected := _connected s |}.

Definition with_file_structure (f : FileStructure) (s : Session) : Session :=
  {| _our_peer_id := _our_peer_id s; _peer := _peer s;
     _download_info := _download_info s;
     _file_structure := f; _piece_owned := _piece_owned s;
     _am_choking := _am_choking s; _am_interested := _am_interested s;
     _peer_choking := _peer_choking s; _peer_interested := _peer_interested s;
     _downloaded := _downloaded s; _uploaded := _uploaded s;
     _reader := _reader s; _writer := _writer s; _connected := _connected s |}.

Definition with_piece_owned (o : list bool) (s : Session) : Session :=
  {| _our_peer_id := _our_peer_id s; _peer := _peer s;
     _download_info := _download_info s;
     _file_structure := _file_structure s; _piece_owned := o;
     _am_choking := _am_choking s; _am_interested := _am_interested s;
     _peer_choking := _peer_choking s; _peer_interested := _peer_interested s;
     _downloaded := _downloaded s; _uploaded := _uploaded s;
     _reader := _reader s; _writer := _writer s; _connected := _connected s |}.

Definition with_am_choking (b : bool) (s : Session) : Session :=
  {| _our_peer_id := _our_peer_id s; _peer := _peer s;
     _download_info := _download_info s;
     _file_structure := _file_structure s; _piece_owned := _piece_owned s;
     _am_choking := b; _am_interested := _am_interested s;
     _peer_choking := _peer_choking s; _peer_interested := _peer_interested s;
     _downloaded := _downloaded s; _uploaded := _uploaded s;
     _reader := _reader s; _writer := _writer s; _connected := _connected s |}.

Definition with_am_interested (b : bool) (s : Session) : Session :=
  {| _our_peer_id := _our_peer_id s; _peer := _peer s;
     _download_info := _download_info s;
     _file_structure := _file_structure s; _piece_owned := _piece_owned s;
     _am_choking := _am_choking s; _am_interested := b;
     _peer_choking := _peer_choking s; _peer_interested := _peer_interested s;
     _downloaded := _downloaded s; _uploaded := _uploaded s;
     _reader := _reader s; _writer := _writer s; _connected := _connected s |}.

Definition with_peer_choking (b : bool) (s : Session) : Session :=
  {| _our_peer_id := _our_peer_id s; _peer := _peer s;
     _download_info := _download_info s;
     _file_structure := _file_structure s; _piece_owned := _piece_owned s;
     _am_choking := _am_choking s; _am_interested := _am_interested s;
     _peer_choking := b; _peer_interested := _peer_interested s;
     _downloaded := _downloaded s; _uploaded := _uploaded s;
     _reader := _reader s; _writer := _writer s; _connected := _connected s |}.

Definition with_peer_interested (b : bool) (s : Session) : Session :=
  {| _our_peer_id := _our_peer_id s; _peer := _peer s;
     _download_info := _download_info s;
     _file_structure := _file_structure s; _piece_owned := _piece_owned s;
     _am_choking := _am_choking s; _am_interested := _am_interested s;
     _peer_choking := _peer_choking s; _peer_interested := b;
     _downloaded := _downloaded s; _uploaded := _uploaded s;
     _reader := _reader s; _writer := _writer s; _connected := _connected s |}.

Definition with_downloaded (n : Z) (s : Session) : Session :=
  {| _our_peer_id := _our_peer_id s; _peer := _peer s;
     _download_info := _download_info s;
     _file_structure := _file_structure s; _piece_owned := _piece_owned s;
     _am_choking := _am_choking s; _am_interested := _am_interested s;
     _peer_choking := _peer_choking s; _peer_interested := _peer_interested s;
     _downloaded := n; _uploaded := _uploaded s;
     _reader := _reader s; _writer := _writer s; _connected := _connected s |}.

Definition with_uploaded (n : Z) (s : Session) : Session :=
  {| _our_peer_id := _our_peer_id s; _peer := _peer s;
     _download_info := _download_info s;
     _file_structure := _file_structure s; _piece_owned := _piece_owned s;
     _am_choking := _am_choking s; _am_interested := _am_interested s;
     _peer_choking := _peer_choking s; _peer_interested := _peer_interested s;
     _downloaded := _downloaded s; _uploaded := n;
     _reader := _reader s; _writer := _writer s; _connected := _connected s |}.

Definition with_reader (r : list byte) (s : Session) : Session :=
  {| _our_peer_id := _our_peer_id s; _peer := _peer s;
     _download_info := _download_info s;
     _file_structure := _file_structure s; _piece_owned := _piece_owned s;
     _am_choking := _am_choking s; _am_interested := _am_interested s;
     _peer_choking := _peer_choking s; _peer_interested := _peer_interested s;
     _downloaded := _downloaded s; _uploaded := _uploaded s;
     _reader := r; _writer := _writer s; _connected := _connected s |}.

Definition with_writer (w : list byte) (s : Session) : Session :=
  {| _our_peer_id := _our_peer_id s; _peer := _peer s;
     _download_info := _download_info s;
     _file_structure := _file_structure s; _piece_owned := _piece_owned s;
     _am_choking := _am_choking s; _am_interested := _am_interested s;
     _peer_choking := _peer_choking s; _peer_interested := _peer_interested s;
     _downloaded := _downloaded s; _uploaded := _uploaded s;
     _reader := _reader s; _writer := w; _connected := _connected s |}.

Definition with_connected (b : bool) (s : Session) : Session :=
  {| _our_peer_id := _our_peer_id s; _peer := _peer s;
     _download_info := _download_info s;
     _file_structure := _file_structure s; _piece_owned := _piece_owned s;
     _am_choking := _am_choking s; _am_interested := _am_interested s;
     _peer_choking := _peer_choking s; _peer_interested := _peer_interested s;
     _downloaded := _downloaded s; _uploaded := _uploaded s;
     _reader := _reader s; _writer := _writer s; _connected := b |}.

(** *** State and exceptions *)

Definition M (A : Type) : Type := Session -> Session * result A.

Definition ret {A} (a : A) : M A := fun s => (s, Return a).
Definition raise {A} (e : exn) : M A := fun s => (s, Raise e).
Definition bind {A B} (m : M A) (k : A -> M B) : M B :=
  fun s =>
    match m s with
    | (s', Return a) => k a s'
    | (s', Raise e) => (s', Raise e)
    end.
Definition get : M Session := fun s => (s, Return s).
Definition modify (f : Session -> Session) : M unit := fun s => (f s, Return tt).

Notation "x <- m ;; k" := (bind m (fun x => k))
  (at level 100, m at next level, right associativity).
Notation "m ;; k" := (bind m (fun _ => k))
  (at level 100, right associativity).

Fixpoint for_each {A} (l : list A) (body : A -> M unit) : M unit :=
  match l with
  | [] => ret tt
  | x :: l' => body x ;; for_each l' body
  end.

Definition write (bs : list byte) : M unit :=
  modify (fun s => with_writer (_writer s ++ bs) s).

(** [reader.readexactly(n)]. *)
Definition readexactly (n : Z) : M (list byte) :=
  fun s =>
    if Z.of_nat (length (_reader s)) <? n
    then (with_reader [] s, Raise IncompleteReadError)
    else (with_reader (drop (Z.to_nat n) (_reader s)) s,
          Return (take (Z.to_nat n) (_reader s))).

(** *** Framing *)

Definition _receive_message : M (option (MessageType * list byte)) :=
  data <- readexactly 4 ;;
  let length := be_decode data in
  if length =? 0 then ret None
  else if MAX_MESSAGE_LENGTH <? length
  then raise (ValueError "Message length is too big")
  else
    data <- readexactly length ;;
    match data with
    | [] => raise (IndexError "index out of range")
    | b :: payload =>
        match MessageType_of (Z_of_byte b) with
        | None => ret None
        | Some message_id => ret (Some (message_id, payload))
        end
    end.

Definition payload_len (payload : list (list byte)) : Z :=
  fold_right (fun portion acc => Z.of_nat (length portion) + acc) 0 payload.

Definition _send_message (message_id : option MessageType)
    (payload : list (list byte)) : M unit :=
  match message_id with
  | None => write _KEEP_ALIVE_MESSAGE
  | Some m =>
      let length := payload_len payload + 1 in
      match pack_uint 4 length, pack_uint 1 (MessageType_value m) with
      | Some l, Some i =>
          write (l ++ i) ;;
          for_each payload write
      | _, _ => raise StructError
      end
  end.

(** The frame of a message without payload, and the frame of a piece
    message. *)
Definition bare_frame (m : MessageType) : list byte :=
  [x00; x00; x00; x01; byte_of_Z (MessageType_value m)].

Definition piece_frame (rq : BlockRequest) (block : list byte) : list byte :=
  be_encode 4 (Z.of_nat (length block) + 9) ++ [x07]
  ++ be_encode 4 (piece_index rq) ++ be_encode 4 (block_begin rq) ++ block.

(** *** The two flags we own *)

Definition _check_connect : M unit :=
  s <- get ;;
  if _connected s then ret tt
  else raise (RuntimeError "Can't change state when the client isn't connected").

Definition set_am_choking (value : bool) : M unit :=
  _check_connect ;;
  s <- get ;;
  if negb (eqb (_am_choking s) value) then
    modify (with_am_choking value) ;;
    _send_message (Some (if value then choke else unchoke)) []
  else ret tt.

Definition set_am_interested (value : bool) : M unit :=
  _check_connect ;;
  s <- get ;;
  if negb (eqb (_am_interested s) value) then
    modify (with_am_interested value) ;;
    _send_message (Some (if value then interested else not_interested)) []
  else ret tt.

(** *** Incoming messages *)

Definition _check_payload_len (payload : list byte) (expected_len : Z) : M unit :=
  if Z.of_nat (length payload) =? expected_len then ret tt
  else raise (ValueError "Invalid payload length").

Definition _handle_setting_states (message_id : MessageType)
    (payload : list byte) : M unit :=
  _check_payload_len payload 0 ;;
  match message_id with
  | choke => modify (with_peer_choking true)
  | unchoke => modify (with_peer_choking false)
  | interested => modify (with_peer_interested true)
  | not_interested => modify (with_peer_interested false)
  | _ => ret tt
  end.

Definition _mark_as_owner (piece_index : Z) : M unit :=
  s <- get ;;
  match py_index piece_index (length (_piece_owned s)) with
  | None => raise (IndexError "bitarray index out of range")
  | Some k =>
      modify (with_piece_owned (<[k := true]> (_piece_owned s))) ;;
      let d := _download_info s in
      match py_index piece_index (length (pieces d)) with
      | None => raise (IndexError "list index out of range")
      | Some j =>
          match pieces d !! j with
          | None => raise (IndexError "list index out of range")
          | Some p =>
              modify (with_download_info
                        (set_pieces (<[j := add_owner (_peer s) p]> (pieces d)) d)) ;;
              if bool_decide (piece_index ∈ interesting_pieces d)
              then set_am_interested true
              else ret tt
          end
      end
  end.

(** [int(ceil(n / 8))]. *)
Definition ceil_div8 (n : Z) : Z := (n + 7) / 8.

(** [range(a, b)]. *)
Definition range (a b : Z) : list Z := seqZ a (b - a).

Definition Spare_bits_error : exn :=
  ValueError "Spare bits in bitfield message must be zero".

(** The bodies of the two loops over the received bit array. *)
Definition mark_owned_bit (arr : list bool) (i : Z) : M unit :=
  match py_index i (length arr) with
  | None => raise (IndexError "bitarray index out of range")
  | Some k => if default false (arr !! k) then _mark_as_owner i else ret tt
  end.

Definition check_spare_bit (arr : list bool) (i : Z) : M unit :=
  match py_index i (length arr) with
  | None => raise (IndexError "bitarray index out of range")
  | Some k => if default false (arr !! k) then raise Spare_bits_error else ret tt
  end.

Definition _handle_haves (message_id : MessageType) (payload : list byte) : M unit :=
  match message_id with
  | have =>
      if negb (length payload =? 4)%nat then raise StructError
      else _mark_as_owner (be_decode payload)
  | bitfield =>
      s <- get ;;
      let piece_count := piece_count (_download_info s) in
      _check_payload_len payload (ceil_div8 piece_count) ;;
      let arr := frombytes payload in
      for_each (range 0 piece_count) (mark_owned_bit arr) ;;
      for_each (range piece_count (Z.of_nat (length arr))) (check_spare_bit arr)
  | _ => ret tt
  end.

(** A connected session whose [_piece_owned] was sized by [_populate_info]
    for a torrent of [piece_count] pieces. *)
Definition populated (s : Session) : Prop :=
  let d := _download_info s in
  0 <= piece_count d
  /\ length (_piece_owned s) = Z.to_nat (piece_count d)
  /\ length (pieces d) = Z.to_nat (piece_count d)
  /\ _connected s = true.

(** The peer of [s] is recorded as an owner of piece [k]. *)
Definition marked_owner (s : Session) (k : nat) : Prop :=
  _piece_owned s !! k = Some true
  /\ exists p, pieces (_download_info s) !! k = Some p /\ _peer s ∈ owners p.

(** From [s] to [s'] the peer and the torrent are the same and ownership
    marks were only added. *)
Definition owners_grow (s s' : Session) : Prop :=
  _peer s' = _peer s
  /\ piece_count (_download_info s') = piece_count (_download_info s)
  /\ (forall k, _piece_owned s !! k = Some true ->
                _piece_owned s' !! k = Some true)
  /\ (forall k p, pieces (_download_info s) !! k = Some p ->
        exists p', pieces (_download_info s') !! k = Some p'
                   /\ owners p ⊆ owners p').


Definition MAX_REQUEST_LENGTH_exceeded : exn :=
  ValueError "Requested more bytes than the current policy allows".

Definition _check_position_range (rq : BlockRequest) : M unit :=
  s <- get ;;
  let d := _download_info s in
  if (piece_index rq <? 0) || (piece_count d <=? piece_index rq)
  then raise (IndexError "Piece index out of range")
  else
    let end_offset :=
      piece_index rq * piece_length d + block_begin rq + block_length rq in
    if (block_begin rq <? 0)
       || (piece_length d <? block_begin rq + block_length rq)
       || (total_size d <? end_offset)
    then raise (IndexError "Position in piece out of range")
    else ret tt.

(** [writer.drain()] under [wait_for]: nothing to do on a stream that
    never blocks. *)
Definition drain : M unit := ret tt.

(** [pieces[piece_index]]. *)
Definition get_piece (piece_index : Z) : M PieceInfo :=
  s <- get ;;
  let ps := pieces (_download_info s) in
  match py_index piece_index (length ps) with
  | None => raise (IndexError "list index out of range")
  | Some j =>
      match ps !! j with
      | None => raise (IndexError "list index out of range")
      | Some p => ret p
      end
  end.

Definition _send_block (rq : BlockRequest) : M unit :=
  s <- get ;;
  let d := _download_info s in
  match fs_read (piece_index rq * piece_length d + block_begin rq)
                (block_length rq) (_file_structure s) with
  | None => raise OSError
  | Some block =>
      match pack_uint 4 (piece_index rq), pack_uint 4 (block_begin rq) with
      | Some a, Some b =>
          _send_message (Some piece) [a ++ b; block] ;;
          modify (fun s => with_uploaded (_uploaded s + block_length rq) s) ;;
          modify (fun s =>
            let d := _download_info s in
            with_download_info
              (set_session_statistics
                 (add_uploaded (_peer s) (block_length rq) (session_statistics d))
                 d) s)
      | _, _ => raise StructError
      end
  end.

Definition _handle_requests (message_id : MessageType) (payload : list byte)
    : M unit :=
  if negb (length payload =? 12)%nat then raise StructError
  else
    let piece_index := field 0 4 payload in
    let begin := field 4 4 payload in
    let length := field 8 4 payload in
    let rq := {| piece_index := piece_index; block_begin := begin;
                 block_length := length |} in
    _check_position_range rq ;;
    match message_id with
    | request =>
        if MAX_REQUEST_LENGTH <? length then raise MAX_REQUEST_LENGTH_exceeded
        else
          s <- get ;;
          if _am_choking s then ret tt
          else if negb (_peer_interested s) then ret tt
          else
            p <- get_piece piece_index ;;
            if negb (downloaded p) then ret tt
            else
              _send_block rq ;;
              drain
    | _ => ret tt
    end.

Definition _handle_block (payload : list byte) : M unit :=
  s <- get ;;
  if negb (_am_interested s) then ret tt
  else if (length payload <? 8)%nat then raise StructError
  else
    let piece_index := field 0 4 payload in
    let block_begin := field 4 4 payload in
    let block_data := drop 8 payload in
    let block_length := Z.of_nat (length block_data) in
    let rq := {| piece_index := piece_index; block_begin := block_begin;
                 block_length := block_length |} in
    _check_position_range rq ;;
    if block_length =? 0 then ret tt
    else
      piece_info <- get_piece piece_index ;;
      if validating piece_info || downloaded piece_info then ret tt
      else
        modify (fun s => with_downloaded (_downloaded s + block_length) s) ;;
        modify (fun s =>
          let d := _download_info s in
          with_download_info
            (set_session_statistics
               (add_downloaded (_peer s) block_length (session_statistics d))
               d) s) ;;
        s <- get ;;
        let d := _download_info s in
        let '(fs, ok) :=
          fs_write (piece_index * piece_length d + block_begin) block_data
                   (_file_structure s) in
        modify (with_file_structure fs) ;;
        if negb ok then raise OSError
        else
          modify (fun s =>
            let d := _download_info s in
            with_download_info
              (set_pieces
                 (<[Z.to_nat piece_index :=
                      mark_downloaded_blocks (_peer s) rq piece_info]> (pieces d))
                 d) s).

(** The session once [block] has been sent in answer to [rq]. *)
Definition after_upload (rq : BlockRequest) (block : list byte) (s : Session)
    : Session :=
  let d := _download_info s in
  with_download_info
    (set_session_statistics
       (add_uploaded (_peer s) (block_length rq) (session_statistics d)) d)
    (with_uploaded (_uploaded s + block_length rq)
       (with_writer (_writer s ++ piece_frame rq block) s)).

(** The request carried by a 12-byte payload. *)
Definition request_of (payload : list byte) : BlockRequest :=
  {| piece_index := field 0 4 payload; block_begin := field 4 4 payload;
     block_length := field 8 4 payload |}.

(** *** The receive loop *)

(** The body of the [while True] of [run]. *)
Definition run_iteration : M unit :=
  message <- _receive_message ;;
  match message with
  | None => ret tt
  | Some (message_id, payload) =>
      match message_id with
      | choke | unchoke | interested | not_interested =>
          _handle_setting_states message_id payload
      | have | bitfield => _handle_haves message_id payload
      | request | cancel => _handle_requests message_id payload
      | piece => _handle_block payload
      | port => _check_payload_len payload 2
      end
  end.

(** [run]: the loop only ends by an exception; [None] is an exhausted
    iteration budget. *)
Fixpoint run (fuel : nat) (s : Session) : option (Session * exn) :=
  match fuel with
  | O => None
  | S fuel' =>
      match run_iteration s with
      | (s', Return _) => run fuel' s'
      | (s', Raise e) => Some (s', e)
      end
  end.

(** *** After the handshake *)

Definition _send_bitfield : M unit :=
  s <- get ;;
  let d := _download_info s in
  if negb (downloaded_piece_count d =? 0) then
    let arr := map downloaded (pieces d) in
    _send_message (Some bitfield) [tobytes arr]
  else ret tt.

Definition _populate_info (download_info : DownloadInfo)
    (file_structure : FileStructure) : M unit :=
  modify (with_download_info download_info) ;;
  modify (with_file_structure file_structure) ;;
  (if piece_count download_info <? 0
   then raise (ValueError "bitarray length must be >= 0")
   else modify (with_piece_owned
                  (replicate (Z.to_nat (piece_count download_info)) false))) ;;
  s <- get ;;
  write (info_hash download_info ++ _our_peer_id s).

Definition confirm_info_hash (download_info : DownloadInfo)
    (file_structure : FileStructure) : M unit :=
  _populate_info download_info file_structure ;;
  _send_bitfield ;;
  modify (with_connected true).

(** *** The handshake *)

Definition _handshake_message : list byte :=
  list_byte_of_string "BitTorrent protocol".

Definition HANDSHAKE_DATA : list byte :=
  byte_of_Z (Z.of_nat (length _handshake_message)) :: _handshake_message.

Definition RESERVED_BYTES : list byte := replicate 8 x00.

(** Modelled from the spec: [SHA1_DIGEST_LEN] of torrent_client.models is
    missing; digests have 20 bytes. *)
Definition SHA1_DIGEST_LEN : nat := 20.

Definition _send_protocol_data : M unit :=
  write (HANDSHAKE_DATA ++ RESERVED_BYTES).

Definition _receive_protocol_data : M unit :=
  let data_len := (length HANDSHAKE_DATA + length RESERVED_BYTES)%nat in
  response <- readexactly (Z.of_nat data_len) ;;
  if bool_decide (take (length HANDSHAKE_DATA) response = HANDSHAKE_DATA)
  then ret tt
  else raise (ValueError "Unknown protocol").

(** [_receive_info].  The peer's [peer_id] attribute is not part of
    [Session]: its value before the call is the argument, and the value
    assigned to it is the second component of the result, next to the
    info_hash returned. *)
Definition _receive_info (expected_peer_id : option (list byte))
    : M (list byte * list byte) :=
  s <- get ;;
  let data_len := (SHA1_DIGEST_LEN + length (_our_peer_id s))%nat in
  response <- readexactly (Z.of_nat data_len) ;;
  let actual_info_hash := take SHA1_DIGEST_LEN response in
  let actual_peer_id := drop SHA1_DIGEST_LEN response in
  if bool_decide (_our_peer_id s = actual_peer_id)
  then raise (ValueError "Connection to ourselves")
  else
    match expected_peer_id with
    | Some peer_id =>
        if bool_decide (peer_id = actual_peer_id)
        then ret (actual_info_hash, actual_peer_id)
        else raise (ValueError "Unexpected peer_id")
    | None => ret (actual_info_hash, actual_peer_id)
    end.

Definition close : M unit := modify (with_connected false).

(** [try: m except Exception: close(); raise]. *)
Definition closing_on_error {A} (m : M A) : M A :=
  fun s =>
    match m s with
    | (s', Raise e) => (fst (close s'), Raise e)
    | r => r
    end.

(** [connect], from the point where the TCP connection is open. *)
Definition connect (download_info : DownloadInfo)
    (file_structure : FileStructure) (expected_peer_id : option (list byte))
    : M (list byte) :=
  _send_protocol_data ;;
  _populate_info download_info file_structure ;;
  peer_id <- closing_on_error
    (_receive_protocol_data ;;
     r <- _receive_info expected_peer_id ;;
     if bool_decide (fst r = info_hash download_info) then ret (snd r)
     else raise (ValueError "info_hashes don't match")) ;;
  _send_bitfield ;;
  modify (with_connected true) ;;
  ret peer_id.

(** [accept], on the streams the session already holds. *)
Definition accept (expected_peer_id : option (list byte))
    : M (list byte * list byte) :=
  _send_protocol_data ;;
  _receive_protocol_data ;;
  _receive_info expected_peer_id.

(** *** The rest of the sending side *)

Definition send_keep_alive : M unit := _send_message None [].


(** The frame of message [m] with payload [payload]. *)
Definition message_frame (m : MessageType) (payload : list byte) : list byte :=
  be_encode 4 (Z.of_nat (length payload) + 1)
  ++ byte_of_Z (MessageType_value m) :: payload.

(** *** Relations between the session before and after *)

(** [m] takes any session to one related to it by [R], whether it returns
    or raises. *)
Definition preserves {A} (R : Session -> Session -> Prop) (m : M A) : Prop :=
  forall s, R s (fst (m s)).

(** What no incoming message may change. *)
Definition same_standing (s s' : Session) : Prop :=
  _am_choking s' = _am_choking s
  /\ _connected s' = _connected s
  /\ _peer s' = _peer s
  /\ _our_peer_id s' = _our_peer_id s.

(** The [connected] flag and our own peer id are kept. *)
Definition same_identity (s s' : Session) : Prop :=
  _connected s' = _connected s /\ _our_peer_id s' = _our_peer_id s.

(** The choke flag is kept and, while we choke, so is the upload counter. *)
Definition nothing_served_while_choking (s s' : Session) : Prop :=
  _am_choking s' = _am_choking s
  /\ (_am_choking s = true -> _uploaded s' = _uploaded s).

End Client.
End PeerTCPClient.

(** ** torrent_client/algorithms/torrent_manager.py *)

Module TorrentManager.
Import Models.

Section Verify.
Context `{Collaborators}.

(** [DownloadInfo.get_real_piece_length], whose class is missing. *)
Variable get_real_piece_length : DownloadInfo -> Z -> Z.

(** [[i for i, piece in enumerate(pieces) if piece.selected]], counting
    from [i]. *)
Fixpoint selected_from (i : nat) (ps : list PieceInfo) : list nat :=
  match ps with
  | [] => []
  | p :: ps' =>
      if selected p then i :: selected_from (S i) ps'
      else selected_from (S i) ps'
  end.

Definition selected_piece_indices (ps : list PieceInfo) : list nat :=
  selected_from 0 ps.

(** The locals of the verification loop, and the two attributes of
    [download_info] it updates as it goes. *)
Record Verification := {
  v_pieces : list PieceInfo;
  v_downloaded_piece_count : Z;
  verified_count : Z;
  missing_pieces : list nat
}.

(** The two tests of the loop body on the bytes read for a piece. *)
Definition piece_verifies (d : DownloadInfo) (fs : FileStructure)
    (index : nat) (p : PieceInfo) : bool :=
  let piece_length := get_real_piece_length d (Z.of_nat index) in
  let offset := Z.of_nat index * Models.piece_length d in
  let data := default [] (fs_read offset piece_length fs) in
  (Z.of_nat (length data) =? piece_length)
  && bool_decide (sha1 data = piece_hash p).

(** One iteration of [for index in selected_piece_indices]; [None] is the
    [IndexError] of [pieces[index]]. *)
Definition verify_piece (d : DownloadInfo) (fs : FileStructure)
    (index : nat) (v : Verification) : option Verification :=
  match v_pieces v !! index with
  | None => None
  | Some p =>
      if piece_verifies d fs index p then
        Some {| v_pieces :=
                  <[index := if downloaded p then p else mark_as_downloaded p]>
                    (v_pieces v);
                v_downloaded_piece_count := v_downloaded_piece_count v + 1;
                verified_count := verified_count v + 1;
                missing_pieces := missing_pieces v |}
      else
        Some {| v_pieces := <[index := reset_content p]> (v_pieces v);
                v_downloaded_piece_count := v_downloaded_piece_count v;
                verified_count := verified_count v;
                missing_pieces := missing_pieces v ++ [index] |}
  end.

Fixpoint verify_loop (d : DownloadInfo) (fs : FileStructure)
    (indices : list nat) (v : Verification) : option Verification :=
  match indices with
  | [] => Some v
  | index :: rest =>
      match verify_piece d fs index v with
      | None => None
      | Some v' => verify_loop d fs rest v'
      end
  end.

Definition _verify_existing_data (d : DownloadInfo) (fs : FileStructure)
    : option DownloadInfo :=
  let selected_piece_indices := selected_piece_indices (pieces d) in
  match selected_piece_indices with
  | [] =>
      Some {| info_hash := info_hash d; pieces := pieces d;
              piece_count := piece_count d; piece_length := piece_length d;
              total_size := total_size d;
              interesting_pieces := ∅;
              downloaded_piece_count := 0;
              complete := false;
              session_statistics := session_statistics d |}
  | _ =>
      match verify_loop d fs selected_piece_indices
              {| v_pieces := pieces d; v_downloaded_piece_count := 0;
                 verified_count := 0; missing_pieces := [] |} with
      | None => None
      | Some v =>
          Some {| info_hash := info_hash d; pieces := v_pieces v;
                  piece_count := piece_count d; piece_length := piece_length d;
                  total_size := total_size d;
                  interesting_pieces :=
                    list_to_set (Z.of_nat <$> missing_pieces v);
                  downloaded_piece_count := v_downloaded_piece_count v;
                  complete :=
                    (verified_count v =? Z.of_nat (length selected_piece_indices))
                    && (0 <? verified_count v);
                  session_statistics := session_statistics d |}
      end
  end.

(** Every selected piece of [d] is downloaded. *)
Definition all_selected_downloaded (d : DownloadInfo) : Prop :=
  forall (i : nat) (p : PieceInfo),
    pieces d !! i = Some p -> selected p = true -> downloaded p = true.

End Verify.

(** Piece [i] exists and is downloaded. *)
Definition downloaded_at (ps : list PieceInfo) (i : nat) : bool :=
  match ps !! i with
  | Some p => downloaded p
  | None => false
  end.

(** How many of the pieces at [indices] are downloaded. *)
Fixpoint count_downloaded (ps : list PieceInfo) (indices : list nat) : Z :=
  match indices with
  | [] => 0
  | i :: rest =>
      (if downloaded_at ps i then 1 else 0) + count_downloaded ps rest
  end.

End TorrentManager.

(** ** Concrete collaborators, to run the handlers on examples *)

Module Demo.
Import Wire Models.

Definition digit (c : ascii) : option Z :=
  let n := Z.of_nat (nat_of_ascii c) in
  if (48 <=? n) && (n <=? 57) then Some (n - 48) else None.

Fixpoint octets (s : string) (cur : option Z) (acc : list Z) : option (list Z) :=
  match s with
  | EmptyString =>
      match cur with
      | Some v => Some (acc ++ [v])
      | None => None
      end
  | String c s' =>
      if Ascii.eqb c "." then
        match cur with
        | Some v => octets s' None (acc ++ [v])
        | None => None
        end
      else
        match digit c with
        | Some k =>
            let v := default 0 cur * 10 + k in
            if v <=? 255 then octets s' (Some v) acc else None
        | None => None
        end
  end.

(** [socket.inet_aton] on the dotted quads the socket layer reports. *)
Definition inet_aton (s : string) : option (list byte) :=
  match octets s None [] with
  | Some [a; b; c; d] => Some (map byte_of_Z [a; b; c; d])
  | _ => None
  end.

(** No example has an IPv6 endpoint. *)
Definition inet_pton6 (s : string) : option (list byte) := None.

(** An announce request as a client packs it. *)
Definition announce_datagram (connection_id transaction_id : Z)
    (info_hash peer_id : list byte) (left event num_want port : Z) : list byte :=
  be_encode 8 connection_id ++ be_encode 4 1 ++ be_encode 4 transaction_id
  ++ take 20 (info_hash ++ replicate 20 x00)
  ++ take 20 (peer_id ++ replicate 20 x00)
  ++ be_encode 8 0 ++ be_encode 8 left ++ be_encode 8 0
  ++ be_encode 4 event ++ be_encode 4 0 ++ be_encode 4 0
  ++ be_encode 4 num_want ++ be_encode 2 port.

Definition connect_datagram (transaction_id : Z) : list byte :=
  be_encode 8 4497486125440 ++ be_encode 4 0 ++ be_encode 4 transaction_id.

(** A swarm on one host: a connect that draws connection id 7 at time 0,
    then, at time 1, a first announce from each of the ports 1 to [n]. *)
Definition datagram (now : Q) (rnd : Z) (data : list byte) : Tracker.Datagram :=
  {| Tracker.dg_now := now; Tracker.dg_rnd := rnd; Tracker.dg_data := data;
     Tracker.dg_host := "127.0.0.1" |}.

Definition swarm (n : nat) : list Tracker.Datagram :=
  datagram 0 7 (connect_datagram 1)
  :: map (fun k =>
            datagram 1 0 (announce_datagram 7 2 [x01] (be_encode 20 k) 1 2 0 k))
         (seqZ 1 (Z.of_nat n)).

(** An announce from port 9999 at time 2 whose num_want field holds the
    32-bit pattern of -1. *)
Definition announce_default : Tracker.Datagram :=
  datagram 2 0
    (announce_datagram 7 3 [x01] (be_encode 20 9999) 1 0 4294967295 9999).

(** The same announcer leaving: event = 3. *)
Definition announce_stopped : Tracker.Datagram :=
  datagram 2 0 (announce_datagram 7 3 [x01] (be_encode 20 9999) 1 3 50 9999).

(** A file store that is one byte string, and statistics that are the two
    session totals. *)
#[export] Instance collaborators : Collaborators := {|
  SessionStatistics := Z * Z;
  add_downloaded := fun _ n st => (st.1 + n, st.2);
  add_uploaded := fun _ n st => (st.1, st.2 + n);
  FileStructure := list byte;
  fs_read := fun offset length fs =>
    Some (take (Z.to_nat length) (drop (Z.to_nat offset) fs));
  fs_write := fun offset data fs =>
    (take (Z.to_nat offset) fs ++ data
       ++ drop (Z.to_nat offset + length data) fs, true);
  mark_downloaded_blocks := fun _ _ p => p;
  sha1 := fun data => take 20 (data ++ replicate 20 x00)
|}.

(** A torrent of two selected pieces of 256 KiB, the first one downloaded,
    and a connected session on it that unchoked an interested peer. *)
Definition demo_peer : Peer := {| host := "10.0.0.2"; peer_port := 6881 |}.

Definition demo_piece (is_selected is_downloaded : bool) : PieceInfo :=
  {| piece_hash := replicate 20 x61; selected := is_selected;
     downloaded := is_downloaded; validating := false;
     blocks_present := [false]; owners := ∅ |}.

Definition demo_info : DownloadInfo :=
  {| info_hash := replicate 20 x01;
     pieces := [demo_piece true true; demo_piece true false];
     piece_count := 2; piece_length := 262144; total_size := 524288;
     interesting_pieces := {[1]}; downloaded_piece_count := 1;
     complete := false; session_statistics := (0, 0) |}.

Definition seeding_session : PeerTCPClient.Session :=
  {| PeerTCPClient._our_peer_id := replicate 20 x02;
     PeerTCPClient._peer := demo_peer;
     PeerTCPClient._download_info := demo_info;
     PeerTCPClient._file_structure := replicate 32 x61;
     PeerTCPClient._piece_owned := [false; false];
     PeerTCPClient._am_choking := false;
     PeerTCPClient._am_interested := true;
     PeerTCPClient._peer_choking := true;
     PeerTCPClient._peer_interested := true;
     PeerTCPClient._downloaded := 0;
     PeerTCPClient._uploaded := 0;
     PeerTCPClient._reader := [];
     PeerTCPClient._writer := [];
     PeerTCPClient._connected := true |}.

(** Payloads: a request for 2^17 + 1 bytes of piece 0, a request for 4
    bytes of it, and a two-byte block for it. *)
Definition oversized_request : list byte :=
  be_encode 4 0 ++ be_encode 4 0 ++ be_encode 4 131073.

Definition small_request : list byte :=
  be_encode 4 0 ++ be_encode 4 0 ++ be_encode 4 4.

Definition late_block : list byte :=
  be_encode 4 0 ++ be_encode 4 0 ++ [x62; x62].

(** A message as it arrives on the stream. *)
Definition frame (id : byte) (payload : list byte) : list byte :=
  be_encode 4 (Z.of_nat (length payload) + 1) ++ id :: payload.

(** A torrent whose only piece is deselected, and pieces that all have the
    nominal length. *)
Definition deselected_info : DownloadInfo :=
  {| info_hash := replicate 20 x01;
     pieces := [demo_piece false false];
     piece_count := 1; piece_length := 262144; total_size := 262144;
     interesting_pieces := ∅; downloaded_piece_count := 0;
     complete := true; session_statistics := (0, 0) |}.

Definition nominal_piece_length (d : DownloadInfo) (index : Z) : Z :=
  piece_length d.

(** The info_hash field of the example announces. *)
Definition swarm_info_hash : list byte := take 20 ([x01] ++ replicate 20 x00).

(** A torrent with two leechers on one host, at ports 1 and 2. *)
Definition two_leechers : Tracker.TorrentData :=
  {| Tracker.peers :=
       [(be_encode 20 1,
         {| Tracker.ip := "127.0.0.1"; Tracker.port := 1;
            Tracker.is_seeder := false |});
        (be_encode 20 2,
         {| Tracker.ip := "127.0.0.1"; Tracker.port := 2;
            Tracker.is_seeder := false |})];
     Tracker.seeders_count := 0;
     Tracker.leechers_count := 2;
     Tracker.interval := 1800 |}.

(** The example session while it still chokes its peer, with a request
    for four bytes of piece 0 waiting on the stream. *)
Definition choking_session : PeerTCPClient.Session :=
  PeerTCPClient.with_reader (frame x06 small_request)
    (PeerTCPClient.with_am_choking true seeding_session).

(** A two-byte block for piece 1, which is not downloaded yet. *)
Definition fresh_block : list byte :=
  be_encode 4 1 ++ be_encode 4 0 ++ [x62; x62].

(** The example session before its handshake, with the handshake of a
    peer whose id is twenty times 03 on the stream. *)
Definition dialing_session : PeerTCPClient.Session :=
  PeerTCPClient.with_reader
    (PeerTCPClient.HANDSHAKE_DATA ++ PeerTCPClient.RESERVED_BYTES
     ++ replicate 20 x01 ++ replicate 20 x03)
    (PeerTCPClient.with_connected false seeding_session).

End Demo.

(** * Properties *)

(** ** Fixed-width fields *)

Module WireFacts.
Import Wire.

Lemma Z_of_byte_range (b : byte) : 0 <= Z_of_byte b < 256.
Proof.
  unfold Z_of_byte. pose proof (Byte.to_N_bounded b). lia.
Qed.

Lemma Z_of_byte_of_Z (z : Z) : Z_of_byte (byte_of_Z z) = z mod 256.
Proof.
  unfold Z_of_byte, byte_of_Z.
  pose proof (Z.mod_pos_bound z 256 ltac:(lia)) as Hm.
  destruct (Byte.of_N (Z.to_N (z mod 256))) as [b|] eqn:E.
  - apply Byte.to_of_N in E. rewrite E. lia.
  - apply Byte.of_N_None_iff in E. lia.
Qed.

Lemma be_encode_4 (z : Z) :
  be_encode 4 z =
    [byte_of_Z (z / 16777216); byte_of_Z (z / 65536);
     byte_of_Z (z / 256); byte_of_Z (z / 1)].
Proof. reflexivity. Qed.

Lemma be_decode_4 (a b c d : byte) :
  be_decode [a; b; c; d] =
    ((Z_of_byte a * 256 + Z_of_byte b) * 256 + Z_of_byte c) * 256 + Z_of_byte d.
Proof. unfold be_decode. simpl. lia. Qed.

Lemma be_decode_encode_4 (z : Z) :
  0 <= z < 4294967296 -> be_decode (be_encode 4 z) = z.
Proof.
  intros Hz. rewrite be_encode_4, be_decode_4, !Z_of_byte_of_Z.
  rewrite Z.div_1_r.
  pose proof (Z.div_mod z 256 ltac:(lia)).
  pose proof (Z.div_mod (z / 256) 256 ltac:(lia)).
  pose proof (Z.div_mod (z / 256 / 256) 256 ltac:(lia)).
  replace (z / 65536) with (z / 256 / 256)
    by (rewrite Z.div_div by lia; reflexivity).
  replace (z / 16777216) with (z / 256 / 256 / 256)
    by (rewrite !Z.div_div by lia; reflexivity).
  assert (z / 256 / 256 / 256 < 256).
  { apply Z.div_lt_upper_bound; [lia|].
    apply Z.div_lt_upper_bound; [lia|].
    apply Z.div_lt_upper_bound; lia. }
  assert (0 <= z / 256 / 256 / 256).
  { repeat apply Z.div_pos; lia. }
  rewrite (Z.mod_small (z / 256 / 256 / 256)) by lia.
  lia.
Qed.

Lemma pack_uint_4_inv (z : Z) (bs : list byte) :
  pack_uint 4 z = Some bs ->
  exists a b c d, bs = [a; b; c; d] /\ be_decode [a; b; c; d] = z.
Proof.
  unfold pack_uint. intros Hp.
  destruct ((0 <=? z) && (z <? 256 ^ Z.of_nat 4)) eqn:E; [|discriminate].
  apply andb_prop in E as [H0 H1].
  apply Z.leb_le in H0. apply Z.ltb_lt in H1.
  change (256 ^ Z.of_nat 4) with 4294967296 in H1.
  injection Hp as <-.
  eexists _, _, _, _. split; [apply be_encode_4|].
  rewrite <- be_encode_4. apply be_decode_encode_4. lia.
Qed.

Lemma pack_uint_4_total (z : Z) :
  0 <= z < 4294967296 -> pack_uint 4 z = Some (be_encode 4 z).
Proof.
  intros Hz. unfold pack_uint.
  change (256 ^ Z.of_nat 4) with 4294967296.
  destruct (Z.leb_spec 0 z), (Z.ltb_spec z 4294967296); simpl; try lia.
  reflexivity.
Qed.

Lemma field_4_range (off : nat) (data : list byte) :
  0 <= field off 4 data < 4294967296.
Proof.
  unfold field, slice.
  destruct (drop off data) as [|a [|b [|c [|d l]]]]; simpl;
    unfold be_decode; simpl.
  - lia.
  - pose proof (Z_of_byte_range a). lia.
  - pose proof (Z_of_byte_range a). pose proof (Z_of_byte_range b). lia.
  - pose proof (Z_of_byte_range a). pose proof (Z_of_byte_range b).
    pose proof (Z_of_byte_range c). lia.
  - pose proof (Z_of_byte_range a). pose proof (Z_of_byte_range b).
    pose proof (Z_of_byte_range c). pose proof (Z_of_byte_range d). lia.
Qed.

End WireFacts.

(** ** The tracker *)

Module TrackerFacts.
Import Wire WireFacts Tracker.

Section Facts.
Variable inet_aton : string -> option (list byte).
Variable inet_pton6 : string -> option (list byte).

Lemma announce_header_inv (transaction_id : Z) (td : TorrentData)
    (header : list byte) :
  announce_header transaction_id td = Some header ->
  length header = 20%nat
  /\ field 0 4 header = 1
  /\ field 4 4 header = transaction_id
  /\ field 8 4 header = interval td
  /\ field 12 4 header = leechers_count td
  /\ field 16 4 header = seeders_count td.
Proof.
  unfold announce_header. intros Hh.
  destruct (pack_uint 4 1) as [h1|] eqn:E1; [|discriminate].
  destruct (pack_uint 4 transaction_id) as [h2|] eqn:E2; [|discriminate].
  destruct (pack_uint 4 (interval td)) as [h3|] eqn:E3; [|discriminate].
  destruct (pack_uint 4 (leechers_count td)) as [h4|] eqn:E4; [|discriminate].
  destruct (pack_uint 4 (seeders_count td)) as [h5|] eqn:E5; [|discriminate].
  simpl in Hh. injection Hh as <-.
  apply pack_uint_4_inv in E1 as (?&?&?&?&->&D1).
  apply pack_uint_4_inv in E2 as (?&?&?&?&->&D2).
  apply pack_uint_4_inv in E3 as (?&?&?&?&->&D3).
  apply pack_uint_4_inv in E4 as (?&?&?&?&->&D4).
  apply pack_uint_4_inv in E5 as (?&?&?&?&->&D5).
  repeat split; assumption.
Qed.

(** An answer is only sent for a connection id that is still valid. *)
Lemma handle_announce_accepted (now : Q) (data : list byte) (host : string)
    (st : Server) (rq : Announce) (resp : list byte) :
  unpack_announce data = Some rq ->
  snd (handle_announce inet_aton inet_pton6 now data host st) = Some resp ->
  is_connection_id_valid now (a_connection_id rq) (connection_ids st) = true.
Proof.
  intros Hu. unfold handle_announce. rewrite Hu.
  destruct (is_connection_id_valid _ _ _); [reflexivity|]. simpl. discriminate.
Qed.


(** An accepted announce is answered as soon as the three numbers of the
    header fit their 32-bit fields. *)
Lemma handle_announce_responds (now : Q) (data : list byte) (host : string)
    (st : Server) (rq : Announce) :
  unpack_announce data = Some rq ->
  is_connection_id_valid now (a_connection_id rq) (connection_ids st) = true ->
  let td := add_peer (a_peer_id rq) host (a_port rq) (a_left rq =? 0)
              (default TorrentData_init
                 (Dict.get (a_info_hash rq) (torrents st))) in
  0 <= interval td < 4294967296 ->
  0 <= leechers_count td < 4294967296 ->
  0 <= seeders_count td < 4294967296 ->
  exists resp,
    snd (handle_announce inet_aton inet_pton6 now data host st) = Some resp.
Proof.
  intros Hu Hv td Hi Hl Hs. unfold handle_announce. rewrite Hu, Hv. simpl.
  fold td. unfold announce_header.
  assert (Ht : 0 <= a_transaction_id rq < 4294967296).
  { unfold unpack_announce in Hu.
    destruct (ANNOUNCE_SIZE <=? length data)%nat; [|discriminate].
    injection Hu as <-. simpl. apply field_4_range. }
  rewrite !pack_uint_4_total by lia. simpl.
  destruct (a_event rq =? 3); eexists; reflexivity.
Qed.

(** *** Connection ids *)

Lemma nondecreasing_last (l : list Q) (e : Q) :
  nondecreasing (l ++ [e]) = true -> forall c, c ∈ l -> (c <= e)%Q.
Proof.
  induction l as [|a l IH]; intros Hn c Hc.
  - inversion Hc.
  - destruct l as [|b l'].
    + simpl in Hn. apply andb_prop in Hn as [Hab _].
      apply Qle_bool_iff in Hab.
      apply list_elem_of_singleton in Hc. subst c. exact Hab.
    + change (Qle_bool a b && nondecreasing ((b :: l') ++ [e]) = true) in Hn.
      apply andb_prop in Hn as [Hab Hn].
      apply Qle_bool_iff in Hab.
      apply elem_of_cons in Hc as [->|Hc].
      * apply Qle_trans with b; [exact Hab|].
        apply IH; [exact Hn|]. apply elem_of_cons. left. reflexivity.
      * apply IH; assumption.
Qed.

Lemma connection_ids_handle_connect (now : Q) (rnd transaction_id : Z)
    (st : Server) :
  connection_ids (fst (handle_connect now rnd transaction_id st))
  = add_connection_id now rnd (connection_ids st).
Proof.
  unfold handle_connect.
  destruct (pack_uint 4 0), (pack_uint 4 transaction_id), (pack_uint 8 rnd);
    reflexivity.
Qed.

Lemma connection_ids_handle_announce (now : Q) (data : list byte)
    (host : string) (st : Server) :
  connection_ids (fst (handle_announce inet_aton inet_pton6 now data host st))
  = connection_ids st.
Proof.
  unfold handle_announce.
  destruct (unpack_announce data) as [rq|]; [|reflexivity].
  destruct (is_connection_id_valid _ _ _); simpl; [|reflexivity].
  destruct (announce_header _ _); [|reflexivity].
  destruct (a_event rq =? 3); reflexivity.
Qed.

(** A stored expiration time was written by a connect of the step. *)
Lemma connection_ids_step (st : Server) (e : Datagram) (cid : Z) (exp : Q) :
  connection_ids (fst (step inet_aton inet_pton6 st e)) !! cid = Some exp ->
  connection_ids st !! cid = Some exp
  \/ (is_connect e /\ dg_rnd e = cid /\ exp = (dg_now e + 300)%Q).
Proof.
  unfold step, datagram_received.
  destruct (unpack_action (dg_data e)) as [[action transaction_id]|] eqn:Ea;
    [|auto].
  destruct (Z.eqb_spec action 0) as [->|Hne].
  - rewrite connection_ids_handle_connect. unfold add_connection_id.
    destruct (decide (dg_rnd e = cid)) as [<-|Hk].
    + rewrite lookup_insert_eq. intros [= <-]. right.
      split; [exists transaction_id; exact Ea|]. split; reflexivity.
    + rewrite lookup_insert_ne by exact Hk. auto.
  - destruct (action =? 1); [|auto].
    rewrite connection_ids_handle_announce. auto.
Qed.

Lemma run_trace_snoc (tr : list Datagram) (e : Datagram) :
  run_trace inet_aton inet_pton6 (tr ++ [e])
  = fst (step inet_aton inet_pton6 (run_trace inet_aton inet_pton6 tr) e).
Proof. unfold run_trace. rewrite fold_left_app. reflexivity. Qed.

(** In every reachable state, each stored connection id expires 300 s after
    a connect of the trace that drew it. *)
Lemma connection_ids_invariant (tr : list Datagram) (cid : Z) (exp : Q) :
  connection_ids (run_trace inet_aton inet_pton6 tr) !! cid = Some exp ->
  exists c, c ∈ tr /\ is_connect c /\ dg_rnd c = cid
            /\ exp = (dg_now c + 300)%Q.
Proof.
  induction tr as [|e tr IH] using rev_ind; intros Hl.
  - unfold run_trace in Hl. simpl in Hl. rewrite lookup_empty in Hl.
    discriminate.
  - rewrite run_trace_snoc in Hl.
    apply connection_ids_step in Hl as [Hl|(Hc & Hr & He)].
    + destruct (IH Hl) as (c & Hin & Hrest).
      exists c. split; [|exact Hrest].
      apply elem_of_app. left. exact Hin.
    + exists e. split; [|auto].
      apply elem_of_app. right. apply list_elem_of_singleton. reflexivity.
Qed.

Lemma valid_connection_id_issued (tr : list Datagram) (e : Datagram) (cid : Z) :
  clock_monotone (tr ++ [e]) ->
  is_connection_id_valid (dg_now e) cid
    (connection_ids (run_trace inet_aton inet_pton6 tr)) = true ->
  exists c, c ∈ tr /\ is_connect c /\ dg_rnd c = cid
            /\ (dg_now c <= dg_now e)%Q /\ (dg_now e < dg_now c + 300)%Q.
Proof.
  intros Hm Hv. unfold is_connection_id_valid in Hv.
  destruct (connection_ids _ !! cid) as [exp|] eqn:El; [|discriminate].
  apply connection_ids_invariant in El as (c & Hin & Hc & Hr & ->).
  exists c. repeat split; try assumption.
  - unfold clock_monotone in Hm. rewrite map_app in Hm. simpl in Hm.
    apply (nondecreasing_last _ _ Hm).
    apply list_elem_of_fmap. exists c. split; [reflexivity|exact Hin].
  - unfold Qgtb in Hv. apply negb_true_iff in Hv.
    apply Qnot_le_lt. intros Hle.
    apply Qle_bool_iff in Hle. congruence.
Qed.

(** C5. Along any run of the server whose clock does not go backwards, an
    announce is answered only if its connection id was handed out by a
    connect at most 300 seconds earlier; an announce with any other
    connection id changes nothing and gets no answer. *)
Theorem announce_needs_fresh_connection_id (tr : list Datagram)
    (e : Datagram) (cid : Z) :
  clock_monotone (tr ++ [e]) ->
  is_announce e cid ->
  let st := run_trace inet_aton inet_pton6 tr in
  (forall resp, snd (step inet_aton inet_pton6 st e) = Some resp ->
                issued_within_300s tr cid (dg_now e))
  /\ (~ issued_within_300s tr cid (dg_now e) ->
      step inet_aton inet_pton6 st e = (st, None)).
Proof.
  intros Hm [[transaction_id Ha] Hcid] st.
  assert (Hstep : step inet_aton inet_pton6 st e
                  = handle_announce inet_aton inet_pton6
                      (dg_now e) (dg_data e) (dg_host e) st).
  { unfold step, datagram_received. rewrite Ha. reflexivity. }
  assert (Hissued : is_connection_id_valid (dg_now e) cid (connection_ids st)
                    = true -> issued_within_300s tr cid (dg_now e)).
  { intros Hv.
    destruct (valid_connection_id_issued tr e cid Hm Hv)
      as (c & Hin & Hc & Hr & Hle & Hlt).
    exists c. repeat split; try assumption. apply Qlt_le_weak. exact Hlt. }
  rewrite Hstep. unfold handle_announce.
  destruct (unpack_announce (dg_data e)) as [rq|] eqn:Eu.
  - assert (a_connection_id rq = cid) as ->.
    { unfold unpack_announce in Eu.
      destruct (ANNOUNCE_SIZE <=? length (dg_data e))%nat; [|discriminate].
      injection Eu as <-. exact Hcid. }
    destruct (is_connection_id_valid (dg_now e) cid (connection_ids st)) eqn:Ev;
      simpl.
    + split; [intros; auto|]. intros Hn. exfalso. auto.
    + split; [discriminate|reflexivity].
  - split; [discriminate|reflexivity].
Qed.

(** [num_want] is read from an unsigned field: it is never -1. *)
Lemma unpack_num_want_unsigned (data : list byte) (rq : Announce) :
  unpack_announce data = Some rq -> 0 <= a_num_want rq < 4294967296.
Proof.
  unfold unpack_announce.
  destruct (ANNOUNCE_SIZE <=? length data)%nat; [|discriminate].
  intros [= <-]. simpl. apply field_4_range.
Qed.

(** What the two branches of [num_to_send] give: at most 200 peers on -1,
    at most [num_want] peers on a count. *)
Lemma selected_peers_at_most (num_want : Z) (host : string) (port0 : Z)
    (td : TorrentData) :
  (num_want = -1 ->
   (length (selected_peers num_want host port0 td) <= 200)%nat)
  /\ (0 <= num_want ->
      Z.of_nat (length (selected_peers num_want host port0 td)) <= num_want).
Proof.
  unfold selected_peers, num_to_send, py_take.
  set (others := filter _ _).
  split.
  - intros ->. simpl.
    destruct (Z.ltb_spec (Z.min 200 (Z.of_nat (length others))) 0); [lia|].
    rewrite length_take. lia.
  - intros Hn.
    destruct (Z.eqb_spec num_want (-1)); [lia|].
    destruct (Z.ltb_spec (Z.min num_want (Z.of_nat (length others))) 0); [lia|].
    rewrite length_take. lia.
Qed.

End Facts.

Import Demo.

(** C1. With 201 other peers registered for the torrent, an announce whose
    num_want field is the 32-bit pattern of -1 is answered with 201 compact
    peer entries: the field is read as 4294967295 and the cap of 200 is not
    applied. *)
Theorem num_want_minus_one_not_capped :
  field 92 4 (dg_data announce_default) = 2 ^ 32 - 1
  /\ exists resp,
       snd (step inet_aton inet_pton6
              (run_trace inet_aton inet_pton6 (swarm 201)) announce_default)
       = Some resp
       /\ length (drop 20 resp) = (6 * 201)%nat.
Proof.
  split; [vm_compute; reflexivity|].
  eexists. split; vm_compute; reflexivity.
Qed.


(** The announce of the example swarm at time 2 is answered: its
    connection id 7 was drawn by the connect at time 0. *)
Lemma announce_needs_fresh_connection_id_witness :
  issued_within_300s (swarm 2) 7 2.
Proof.
  destruct (announce_needs_fresh_connection_id inet_aton inet_pton6
              (swarm 2) announce_default 7) as [Hsent _].
  - vm_compute. reflexivity.
  - split; [exists 3; vm_compute; reflexivity|vm_compute; reflexivity].
  - eapply Hsent. vm_compute. reflexivity.
Defined.

End TrackerFacts.


(** ** Bit arrays *)

Module BitarrayFacts.
Import Bitarray.

Lemma bits_of_byte_of_bits (c0 c1 c2 c3 c4 c5 c6 c7 : bool) :
  bits_of_byte (byte_of_bits c0 c1 c2 c3 c4 c5 c6 c7)
  = [c0; c1; c2; c3; c4; c5; c6; c7].
Proof.
  unfold bits_of_byte, byte_of_bits. rewrite Byte.to_bits_of_bits. reflexivity.
Qed.

Lemma length_bits_of_byte (b : byte) : length (bits_of_byte b) = 8%nat.
Proof.
  unfold bits_of_byte.
  destruct (Byte.to_bits b) as (?&?&?&?&?&?&?&?). reflexivity.
Qed.

Lemma length_frombytes (bs : list byte) :
  length (frombytes bs) = (8 * length bs)%nat.
Proof.
  unfold frombytes. induction bs as [|b bs IH]; [reflexivity|].
  simpl concat. rewrite length_app, length_bits_of_byte, IH. simpl. lia.
Qed.

(** Induction by chunks of eight bits. *)
Lemma chunk_ind (P : list bool -> Prop) :
  (forall l, (length l < 8)%nat -> P l) ->
  (forall c0 c1 c2 c3 c4 c5 c6 c7 rest,
      P rest -> P (c0 :: c1 :: c2 :: c3 :: c4 :: c5 :: c6 :: c7 :: rest)) ->
  forall l, P l.
Proof.
  intros Hshort Hchunk.
  assert (Hn : forall n l, (length l <= n)%nat -> P l).
  { induction n as [|n IH]; intros l Hl.
    - apply Hshort. lia.
    - destruct l as [|c0 [|c1 [|c2 [|c3 [|c4 [|c5 [|c6 [|c7 rest]]]]]]]];
        try (apply Hshort; simpl; lia).
      apply Hchunk. apply IH. simpl in Hl. lia. }
  intros l. apply (Hn (length l)). lia.
Qed.

(** Reading back the bytes of a bit array gives the array followed by fewer
    than eight zero bits. *)
Lemma frombytes_tobytes (bits : list bool) :
  exists pad, (pad < 8)%nat
              /\ frombytes (tobytes bits) = bits ++ replicate pad false.
Proof.
  induction bits as [l Hl | c0 c1 c2 c3 c4 c5 c6 c7 rest IH] using chunk_ind.
  - destruct l as [|c0 [|c1 [|c2 [|c3 [|c4 [|c5 [|c6 [|c7 rest]]]]]]]];
      try (simpl in Hl; lia).
    + exists 0%nat. split; [lia|reflexivity].
    + exists 7%nat. split; [lia|].
      unfold frombytes. simpl. rewrite bits_of_byte_of_bits. reflexivity.
    + exists 6%nat. split; [lia|].
      unfold frombytes. simpl. rewrite bits_of_byte_of_bits. reflexivity.
    + exists 5%nat. split; [lia|].
      unfold frombytes. simpl. rewrite bits_of_byte_of_bits. reflexivity.
    + exists 4%nat. split; [lia|].
      unfold frombytes. simpl. rewrite bits_of_byte_of_bits. reflexivity.
    + exists 3%nat. split; [lia|].
      unfold frombytes. simpl. rewrite bits_of_byte_of_bits. reflexivity.
    + exists 2%nat. split; [lia|].
      unfold frombytes. simpl. rewrite bits_of_byte_of_bits. reflexivity.
    + exists 1%nat. split; [lia|].
      unfold frombytes. simpl. rewrite bits_of_byte_of_bits. reflexivity.
  - destruct IH as (pad & Hpad & IH). exists pad. split; [exact Hpad|].
    unfold frombytes in *. simpl tobytes. simpl map. simpl concat.
    rewrite bits_of_byte_of_bits, IH. reflexivity.
Qed.

Lemma frombytes_tobytes_lookup (bits : list bool) (i : nat) :
  frombytes (tobytes bits) !! i = Some true <-> bits !! i = Some true.
Proof.
  destruct (frombytes_tobytes bits) as (pad & _ & ->).
  destruct (decide (i < length bits)%nat) as [Hi|Hi].
  - rewrite lookup_app_l by exact Hi. reflexivity.
  - rewrite lookup_app_r by lia.
    rewrite (lookup_ge_None_2 bits i) by lia.
    split; [|discriminate].
    intros Hr. apply lookup_replicate in Hr as [Hr _]. discriminate.
Qed.

Lemma length_tobytes (bits : list bool) :
  (length (tobytes bits) <= length bits)%nat
  /\ Z.of_nat (length (tobytes bits)) = (Z.of_nat (length bits) + 7) / 8.
Proof.
  destruct (frombytes_tobytes bits) as (pad & Hpad & Heq).
  apply (f_equal length) in Heq.
  rewrite length_frombytes, length_app, length_replicate in Heq.
  split; [lia|].
  apply Z.div_unique with (r := 7 - Z.of_nat pad); lia.
Qed.

End BitarrayFacts.

(** ** The peer session *)

Module PeerFacts.
Import Wire WireFacts Bitarray Models PeerTCPClient.

Section Facts.
Context `{Collaborators}.

Lemma with_reader_with_reader (r r' : list byte) (s : Session) :
  with_reader r (with_reader r' s) = with_reader r s.
Proof. destruct s. reflexivity. Qed.

Lemma with_reader_same (s : Session) : with_reader (_reader s) s = s.
Proof. destruct s. reflexivity. Qed.

Lemma send_bare_message (m : MessageType) (s : Session) :
  _send_message (Some m) [] s
  = (with_writer (_writer s ++ bare_frame m) s, Return tt).
Proof. destruct m; reflexivity. Qed.

Lemma set_am_choking_connected (value : bool) (s : Session) :
  _connected s = true ->
  set_am_choking value s =
    if eqb (_am_choking s) value then (s, Return tt)
    else (with_writer
            (_writer s ++ bare_frame (if value then choke else unchoke))
            (with_am_choking value s), Return tt).
Proof.
  intros H0. cbv [set_am_choking bind _check_connect get ret].
  rewrite H0.
  destruct (eqb (_am_choking s) value); cbn [negb]; [reflexivity|].
  cbv [modify]. rewrite send_bare_message. reflexivity.
Qed.

Lemma set_am_interested_connected (value : bool) (s : Session) :
  _connected s = true ->
  set_am_interested value s =
    if eqb (_am_interested s) value then (s, Return tt)
    else (with_writer
            (_writer s
             ++ bare_frame (if value then interested else not_interested))
            (with_am_interested value s), Return tt).
Proof.
  intros H0. cbv [set_am_interested bind _check_connect get ret].
  rewrite H0.
  destruct (eqb (_am_interested s) value); cbn [negb]; [reflexivity|].
  cbv [modify]. rewrite send_bare_message. reflexivity.
Qed.

(** C8. On a connected session, assigning [am_choking] (resp.
    [am_interested]) the value it already has changes nothing and writes
    nothing; assigning the other value flips the flag and writes exactly
    the choke/unchoke (resp. interested/not-interested) frame; assigning the
    same value a second time is a no-op. *)
Theorem flag_setters_emit_on_flip (s : Session) (value : bool) :
  _connected s = true ->
  (set_am_choking value s =
     if eqb (_am_choking s) value then (s, Return tt)
     else (with_writer
             (_writer s ++ bare_frame (if value then choke else unchoke))
             (with_am_choking value s), Return tt))
  /\ (set_am_interested value s =
        if eqb (_am_interested s) value then (s, Return tt)
        else (with_writer
                (_writer s
                 ++ bare_frame (if value then interested else not_interested))
                (with_am_interested value s), Return tt))
  /\ set_am_choking value (fst (set_am_choking value s))
     = (fst (set_am_choking value s), Return tt)
  /\ set_am_interested value (fst (set_am_interested value s))
     = (fst (set_am_interested value s), Return tt).
Proof.
  intros Hc.
  split; [apply set_am_choking_connected; exact Hc|].
  split; [apply set_am_interested_connected; exact Hc|]. split.
  - rewrite (set_am_choking_connected value s Hc).
    destruct (eqb (_am_choking s) value) eqn:E; simpl.
    + rewrite (set_am_choking_connected value s Hc), E. reflexivity.
    + rewrite set_am_choking_connected by exact Hc. simpl.
      rewrite eqb_reflx. reflexivity.
  - rewrite (set_am_interested_connected value s Hc).
    destruct (eqb (_am_interested s) value) eqn:E; simpl.
    + rewrite (set_am_interested_connected value s Hc), E. reflexivity.
    + rewrite set_am_interested_connected by exact Hc. simpl.
      rewrite eqb_reflx. reflexivity.
Qed.

Lemma MessageType_of_unknown (b : byte) :
  9 < Z_of_byte b -> MessageType_of (Z_of_byte b) = None.
Proof.
  destruct b; intros Hb; try reflexivity; vm_compute in Hb; discriminate Hb.
Qed.

Lemma readexactly_app (n : Z) (bs rest : list byte) (s : Session) :
  n = Z.of_nat (length bs) ->
  _reader s = bs ++ rest ->
  readexactly n s = (with_reader rest s, Return bs).
Proof.
  intros -> Hr. unfold readexactly. rewrite Hr, length_app, Nat2Z.id.
  destruct (Z.ltb_spec (Z.of_nat (length bs + length rest))
              (Z.of_nat (length bs))); [lia|].
  rewrite drop_app_length, take_app_length. reflexivity.
Qed.

(** C9. A well-framed message whose id byte is above 9 is consumed and
    dropped: [_receive_message] returns [None], the loop body finishes
    without raising and without touching the session, and the loop goes on
    with the next frame. *)
Theorem unknown_message_id_discarded (s : Session) (b0 b1 b2 b3 id : byte)
    (payload rest : list byte) :
  _reader s = [b0; b1; b2; b3] ++ (id :: payload) ++ rest ->
  be_decode [b0; b1; b2; b3] = Z.of_nat (length (id :: payload)) ->
  Z.of_nat (length (id :: payload)) <= MAX_MESSAGE_LENGTH ->
  9 < Z_of_byte id ->
  _receive_message s = (with_reader rest s, Return None)
  /\ run_iteration s = (with_reader rest s, Return tt)
  /\ forall fuel, run (S fuel) s = run fuel (with_reader rest s).
Proof.
  intros Hr Hlen Hmax Hid.
  assert (Hrecv : _receive_message s = (with_reader rest s, Return None)).
  { unfold _receive_message, bind.
    rewrite (readexactly_app 4 [b0; b1; b2; b3] _ s eq_refl Hr).
    rewrite Hlen.
    destruct (Z.eqb_spec (Z.of_nat (length (id :: payload))) 0) as [E|_];
      [simpl in E; lia|].
    destruct (Z.ltb_spec MAX_MESSAGE_LENGTH (Z.of_nat (length (id :: payload))));
      [lia|].
    rewrite (readexactly_app _ (id :: payload) rest) by reflexivity.
    rewrite (MessageType_of_unknown id Hid).
    unfold ret. rewrite with_reader_with_reader. reflexivity. }
  split; [exact Hrecv|].
  assert (Hit : run_iteration s = (with_reader rest s, Return tt)).
  { unfold run_iteration, bind. rewrite Hrecv. reflexivity. }
  split; [exact Hit|].
  intros fuel. simpl. rewrite Hit. reflexivity.
Qed.

(** *** Requests and blocks *)

Lemma check_position_range_cases (rq : BlockRequest) (s : Session) :
  _check_position_range rq s = (s, Return tt)
  \/ exists e, _check_position_range rq s = (s, Raise e).
Proof.
  cbv [_check_position_range bind get ret raise].
  destruct (_ || _); [right; eexists; reflexivity|].
  destruct (_ || _); [right; eexists; reflexivity|].
  left. reflexivity.
Qed.

Lemma get_piece_lookup (i : Z) (p : PieceInfo) (s : Session) :
  0 <= i ->
  pieces (_download_info s) !! Z.to_nat i = Some p ->
  get_piece i s = (s, Return p).
Proof.
  intros Hi Hl. cbv [get_piece bind get ret raise].
  pose proof (lookup_lt_Some _ _ _ Hl) as Hlt.
  unfold py_index.
  destruct (Z.leb_spec 0 i); [|lia].
  destruct (Z.ltb_spec i (Z.of_nat (length (pieces (_download_info s)))));
    [|lia].
  simpl. rewrite Hl. reflexivity.
Qed.

Lemma send_piece_message (a b block : list byte) (s : Session) :
  length a = 4%nat -> length b = 4%nat ->
  Z.of_nat (length block) + 9 < 4294967296 ->
  _send_message (Some piece) [a ++ b; block] s
  = (with_writer
       (_writer s ++ be_encode 4 (Z.of_nat (length block) + 9) ++ [x07]
        ++ a ++ b ++ block) s, Return tt).
Proof.
  intros Ha Hb Hlen. unfold _send_message.
  replace (payload_len [a ++ b; block] + 1) with (Z.of_nat (length block) + 9).
  2:{ unfold payload_len. simpl. rewrite length_app, Ha, Hb. lia. }
  rewrite pack_uint_4_total by lia.
  change (pack_uint 1 (MessageType_value piece)) with (Some [x07]).
  cbv [bind write modify for_each ret]. destruct s. simpl.
  rewrite <- !app_assoc. reflexivity.
Qed.

(** C2, as the code has it. For a request whose 12-byte payload passes the
    position check: a length above 2^17 raises [ValueError] (the session
    ends); otherwise, if we are choking the peer, or the peer is not
    interested, or the piece is not downloaded, the handler returns with the
    session unchanged and nothing written; otherwise the block is read from
    the file store and a piece message carrying it is written. *)
Theorem request_rejected_or_served (s : Session) (payload : list byte)
    (p : PieceInfo) :
  length payload = 12%nat ->
  let rq := request_of payload in
  _check_position_range rq s = (s, Return tt) ->
  pieces (_download_info s) !! Z.to_nat (piece_index rq) = Some p ->
  (MAX_REQUEST_LENGTH < block_length rq ->
   _handle_requests request payload s = (s, Raise MAX_REQUEST_LENGTH_exceeded))
  /\ (block_length rq <= MAX_REQUEST_LENGTH ->
      _am_choking s = true \/ _peer_interested s = false
      \/ downloaded p = false ->
      _handle_requests request payload s = (s, Return tt))
  /\ (block_length rq <= MAX_REQUEST_LENGTH ->
      _am_choking s = false -> _peer_interested s = true ->
      downloaded p = true ->
      forall block,
        fs_read (piece_index rq * piece_length (_download_info s)
                 + block_begin rq) (block_length rq) (_file_structure s)
        = Some block ->
        Z.of_nat (length block) + 9 < 4294967296 ->
        _handle_requests request payload s
        = (after_upload rq block s, Return tt)).
Proof.
  intros Hlen rq Hrange Hp.
  assert (Hidx : 0 <= piece_index rq) by apply field_4_range.
  assert (Hunfold :
    _handle_requests request payload s
    = (if MAX_REQUEST_LENGTH <? block_length rq
       then raise MAX_REQUEST_LENGTH_exceeded s
       else if _am_choking s then (s, Return tt)
       else if negb (_peer_interested s) then (s, Return tt)
       else if negb (downloaded p) then (s, Return tt)
       else bind (_send_block rq) (fun _ => drain) s)).
  { unfold _handle_requests. rewrite Hlen. cbn [Nat.eqb negb].
    fold (request_of payload). fold rq.
    unfold bind at 1. rewrite Hrange.
    change (field 8 4 payload) with (block_length rq).
    destruct (MAX_REQUEST_LENGTH <? block_length rq); [reflexivity|].
    cbv [bind get ret]. fold (get_piece (field 0 4 payload)).
    destruct (_am_choking s); [reflexivity|].
    destruct (_peer_interested s); cbn [negb]; [|reflexivity].
    change (field 0 4 payload) with (piece_index rq).
    rewrite (get_piece_lookup _ p s Hidx Hp).
    destruct (downloaded p); reflexivity. }
  rewrite Hunfold. split; [|split].
  - intros Hbig. apply Z.ltb_lt in Hbig. rewrite Hbig. reflexivity.
  - intros Hsmall Hor.
    destruct (Z.ltb_spec MAX_REQUEST_LENGTH (block_length rq)); [lia|].
    destruct (_am_choking s); [reflexivity|].
    destruct (_peer_interested s); [|reflexivity].
    destruct (downloaded p); [|reflexivity].
    destruct Hor as [?|[?|?]]; discriminate.
  - intros Hsmall Hc Hi Hd block Hread Hfit.
    destruct (Z.ltb_spec MAX_REQUEST_LENGTH (block_length rq)); [lia|].
    rewrite Hc, Hi, Hd. cbn [negb].
    pose proof (field_4_range 0 payload
                : 0 <= piece_index rq < 4294967296) as R0.
    pose proof (field_4_range 4 payload
                : 0 <= block_begin rq < 4294967296) as R4.
    cbv [bind _send_block get drain ret]. rewrite Hread.
    rewrite !pack_uint_4_total by lia.
    rewrite send_piece_message by (reflexivity || exact Hfit).
    cbv [modify]. destruct s. reflexivity.
Qed.

Lemma receive_message_frame (s : Session) (b0 b1 b2 b3 id : byte)
    (payload rest : list byte) (m : MessageType) :
  _reader s = [b0; b1; b2; b3] ++ (id :: payload) ++ rest ->
  be_decode [b0; b1; b2; b3] = Z.of_nat (length (id :: payload)) ->
  Z.of_nat (length (id :: payload)) <= MAX_MESSAGE_LENGTH ->
  MessageType_of (Z_of_byte id) = Some m ->
  _receive_message s = (with_reader rest s, Return (Some (m, payload))).
Proof.
  intros Hr Hlen Hmax Hid. unfold _receive_message, bind.
  rewrite (readexactly_app 4 [b0; b1; b2; b3] _ s eq_refl Hr).
  rewrite Hlen.
  destruct (Z.eqb_spec (Z.of_nat (length (id :: payload))) 0) as [E|_];
    [simpl in E; lia|].
  destruct (Z.ltb_spec MAX_MESSAGE_LENGTH (Z.of_nat (length (id :: payload))));
    [lia|].
  rewrite (readexactly_app _ (id :: payload) rest) by reflexivity.
  rewrite Hid. unfold ret. rewrite with_reader_with_reader. reflexivity.
Qed.

(** A request that the handler rejects silently costs the loop one
    iteration and nothing else: [run] goes on with the next frame. *)
Lemma rejected_request_keeps_running (s : Session) (b0 b1 b2 b3 : byte)
    (payload rest : list byte) (fuel : nat) :
  _reader s = [b0; b1; b2; b3] ++ (x06 :: payload) ++ rest ->
  be_decode [b0; b1; b2; b3] = Z.of_nat (length (x06 :: payload)) ->
  _handle_requests request payload (with_reader rest s)
  = (with_reader rest s, Return tt) ->
  run (S fuel) s = run fuel (with_reader rest s).
Proof.
  intros Hr Hlen Hrej.
  assert (Hp : length payload = 12%nat).
  { unfold _handle_requests in Hrej.
    destruct (Nat.eqb_spec (length payload) 12) as [E|E]; [exact E|].
    discriminate Hrej. }
  simpl. unfold run_iteration, bind.
  rewrite (receive_message_frame s b0 b1 b2 b3 x06 payload rest request Hr Hlen);
    [|simpl; rewrite Hp; vm_compute; discriminate|reflexivity].
  rewrite Hrej. reflexivity.
Qed.

(** C4. A piece message for a piece that is being validated or is already
    downloaded leaves the session as it was, whatever else the message
    holds: nothing is written to the file store, no block is marked and
    neither download counter moves. *)
Theorem block_for_settled_piece_ignored (s : Session) (payload : list byte)
    (p : PieceInfo) :
  pieces (_download_info s) !! Z.to_nat (field 0 4 payload) = Some p ->
  validating p || downloaded p = true ->
  fst (_handle_block payload s) = s.
Proof.
  intros Hp Hsettled.
  assert (Hidx : 0 <= field 0 4 payload) by apply field_4_range.
  unfold _handle_block. unfold bind at 1. unfold get at 1.
  destruct (_am_interested s); cbn [negb]; [|reflexivity].
  destruct (length payload <? 8)%nat; [reflexivity|].
  unfold bind at 1.
  destruct (check_position_range_cases
              {| piece_index := field 0 4 payload;
                 block_begin := field 4 4 payload;
                 block_length := Z.of_nat (length (drop 8 payload)) |} s)
    as [-> | [e ->]]; [|reflexivity].
  destruct (Z.of_nat (length (drop 8 payload)) =? 0); [reflexivity|].
  unfold bind at 1. rewrite (get_piece_lookup _ p s Hidx Hp).
  rewrite Hsettled. reflexivity.
Qed.

(** *** Bitfields *)

Lemma lookup_map {A B} (f : A -> B) (l : list A) (i : nat) :
  map f l !! i = f <$> l !! i.
Proof.
  revert i. induction l as [|x l IH]; intros [|i]; simpl; auto.
Qed.

Lemma py_index_in_range (i : Z) (n : nat) :
  0 <= i < Z.of_nat n -> py_index i n = Some (Z.to_nat i).
Proof.
  intros Hi. unfold py_index.
  destruct (Z.leb_spec 0 i); [|lia].
  destruct (Z.ltb_spec i (Z.of_nat n)); [|lia]. reflexivity.
Qed.

Lemma owners_grow_refl (s : Session) : owners_grow s s.
Proof.
  repeat split; auto. intros k p Hp. exists p. split; [exact Hp|set_solver].
Qed.

Lemma owners_grow_trans (s1 s2 s3 : Session) :
  owners_grow s1 s2 -> owners_grow s2 s3 -> owners_grow s1 s3.
Proof.
  intros (P1 & C1 & O1 & W1) (P2 & C2 & O2 & W2).
  split; [congruence|]. split; [congruence|]. split; [auto|].
  intros k p Hp. destruct (W1 k p Hp) as (p' & Hp' & Hs).
  destruct (W2 k p' Hp') as (p'' & Hp'' & Hs').
  exists p''. split; [exact Hp''|set_solver].
Qed.

Lemma marked_owner_grow (s s' : Session) (k : nat) :
  owners_grow s s' -> marked_owner s k -> marked_owner s' k.
Proof.
  intros (P & _ & O & W) (Ho & p & Hp & Hin).
  split; [auto|]. destruct (W k p Hp) as (p' & Hp' & Hs).
  exists p'. split; [exact Hp'|]. rewrite P. set_solver.
Qed.

(** Marking an existing piece on a populated session succeeds and records
    the peer. *)
Lemma mark_as_owner_ok (i : Z) (s : Session) :
  populated s ->
  0 <= i < piece_count (_download_info s) ->
  exists s', _mark_as_owner i s = (s', Return tt)
             /\ populated s' /\ owners_grow s s'
             /\ marked_owner s' (Z.to_nat i).
Proof.
  intros (Hpc & Hlo & Hlp & Hc) Hi.
  assert (Hk : (Z.to_nat i < length (pieces (_download_info s)))%nat) by lia.
  destruct (lookup_lt_is_Some_2 _ _ Hk) as [p Hp].
  assert (Hmark :
    _mark_as_owner i s
    = (if bool_decide (i ∈ interesting_pieces (_download_info s))
       then set_am_interested true else ret tt)
        (with_download_info
           (set_pieces (<[Z.to_nat i := add_owner (_peer s) p]>
                          (pieces (_download_info s))) (_download_info s))
           (with_piece_owned (<[Z.to_nat i := true]> (_piece_owned s)) s))).
  { cbv [_mark_as_owner bind get modify].
    rewrite !py_index_in_range by lia. rewrite Hp. reflexivity. }
  set (s2 := with_download_info _ _) in Hmark.
  assert (H2 : populated s2 /\ owners_grow s s2
               /\ marked_owner s2 (Z.to_nat i)).
  { split; [|split].
    - unfold populated, s2. destruct s. simpl in *.
      rewrite !length_insert. auto.
    - unfold owners_grow, s2. destruct s. simpl in *.
      split; [reflexivity|]. split; [reflexivity|]. split.
      + intros k Hk'. destruct (decide (k = Z.to_nat i)) as [->|Hne].
        * apply list_lookup_insert_eq. lia.
        * rewrite list_lookup_insert_ne by congruence. exact Hk'.
      + intros k q Hq. destruct (decide (k = Z.to_nat i)) as [->|Hne].
        * rewrite list_lookup_insert_eq by lia.
          eexists. split; [reflexivity|].
          assert (q = p) as -> by congruence. simpl.
          apply union_subseteq_r.
        * rewrite list_lookup_insert_ne by congruence.
          exists q. split; [exact Hq|set_solver].
    - unfold marked_owner, s2. destruct s. simpl in *. split.
      + apply list_lookup_insert_eq. lia.
      + eexists. split; [apply list_lookup_insert_eq; lia|].
        simpl. apply elem_of_union_l, elem_of_singleton. reflexivity. }
  destruct H2 as (Hpop2 & Hgrow2 & Hmark2).
  rewrite Hmark.
  destruct (bool_decide _); [|exists s2; auto].
  rewrite set_am_interested_connected by apply Hpop2.
  destruct (eqb (_am_interested s2) true); [exists s2; auto|].
  eexists. split; [reflexivity|].
  assert (Hg : owners_grow s2
                 (with_writer (_writer s2 ++ bare_frame interested)
                    (with_am_interested true s2))).
  { destruct s2. unfold owners_grow. simpl.
    repeat split; auto. intros k q Hq. exists q. split; [exact Hq|set_solver]. }
  split; [|split].
  - destruct Hpop2 as (?&?&?&?). destruct s2. unfold populated. simpl in *. auto.
  - eapply owners_grow_trans; eassumption.
  - eapply marked_owner_grow; eassumption.
Qed.

Lemma mark_owned_loop (arr : list bool) (l : list Z) :
  forall s,
    populated s ->
    (forall i, i ∈ l ->
       0 <= i < piece_count (_download_info s) /\ i < Z.of_nat (length arr)) ->
    exists s', for_each l (mark_owned_bit arr) s = (s', Return tt)
               /\ populated s' /\ owners_grow s s'
               /\ forall i, i ∈ l -> arr !! Z.to_nat i = Some true ->
                            marked_owner s' (Z.to_nat i).
Proof.
  induction l as [|i l IH]; intros s Hpop Hl.
  - exists s. split; [reflexivity|]. split; [exact Hpop|].
    split; [apply owners_grow_refl|]. intros i Hi. inversion Hi.
  - destruct (Hl i ltac:(left)) as [Hi Hia].
    assert (Hstep : exists s1, mark_owned_bit arr i s = (s1, Return tt)
                      /\ populated s1 /\ owners_grow s s1
                      /\ (arr !! Z.to_nat i = Some true ->
                          marked_owner s1 (Z.to_nat i))).
    { unfold mark_owned_bit. rewrite py_index_in_range by lia.
      destruct (arr !! Z.to_nat i) as [[|]|] eqn:Eb; simpl.
      - destruct (mark_as_owner_ok i s Hpop Hi) as (s1 & E & P & G & M).
        exists s1. auto.
      - exists s. split; [reflexivity|]. split; [exact Hpop|].
        split; [apply owners_grow_refl|discriminate].
      - exists s. split; [reflexivity|]. split; [exact Hpop|].
        split; [apply owners_grow_refl|discriminate]. }
    destruct Hstep as (s1 & E1 & P1 & G1 & M1).
    destruct (IH s1 P1) as (s' & E' & P' & G' & M').
    { intros j Hj. destruct G1 as (_ & -> & _). apply Hl. right. exact Hj. }
    exists s'. split.
    { simpl. unfold bind. rewrite E1. exact E'. }
    split; [exact P'|]. split; [eapply owners_grow_trans; eassumption|].
    intros j Hj Hb. apply elem_of_cons in Hj as [->|Hj].
    + eapply marked_owner_grow; [exact G'|]. apply M1. exact Hb.
    + apply M'; assumption.
Qed.

Lemma check_spare_loop (arr : list bool) (l : list Z) (s : Session) :
  (forall i, i ∈ l -> 0 <= i < Z.of_nat (length arr)) ->
  for_each l (check_spare_bit arr) s
  = if existsb (fun i => default false (arr !! Z.to_nat i)) l
    then (s, Raise Spare_bits_error) else (s, Return tt).
Proof.
  induction l as [|i l IH]; intros Hl; [reflexivity|].
  simpl. unfold bind. unfold check_spare_bit at 1.
  rewrite py_index_in_range by (apply Hl; left).
  destruct (default false (arr !! Z.to_nat i)); simpl; [reflexivity|].
  apply IH. intros j Hj. apply Hl. right. exact Hj.
Qed.


(** The handshake of an accepted connection ends by [_send_bitfield] on the
    session populated with the torrent, then marks it connected. *)
Lemma confirm_info_hash_sends_bitfield (d : DownloadInfo)
    (fs : FileStructure) (s : Session) :
  0 <= piece_count d ->
  let s1 :=
    with_writer (_writer s ++ info_hash d ++ _our_peer_id s)
      (with_piece_owned (replicate (Z.to_nat (piece_count d)) false)
         (with_file_structure fs (with_download_info d s))) in
  _download_info s1 = d
  /\ confirm_info_hash d fs s
     = match _send_bitfield s1 with
       | (s2, Return _) => (with_connected true s2, Return tt)
       | (s2, Raise e) => (s2, Raise e)
       end.
Proof.
  intros Hpc s1. split; [destruct s; reflexivity|].
  cbv [confirm_info_hash _populate_info bind modify get write raise].
  destruct (Z.ltb_spec (piece_count d) 0); [lia|].
  change (with_writer _ _) with s1.
  destruct (_send_bitfield s1) as [s2 [[]|e]]; reflexivity.
Qed.

(** An exception of the loop body ends [run]: the session is dropped. *)
Lemma run_raise (s s' : Session) (e : exn) (fuel : nat) :
  run_iteration s = (s', Raise e) -> run (S fuel) s = Some (s', e).
Proof. intros Hr. simpl. rewrite Hr. reflexivity. Qed.

(** *** The bitfield at the end of the handshake *)

(** What [_send_bitfield] writes: nothing without downloaded pieces, else
    the frame of the downloaded flags. *)
Lemma send_bitfield_writes (s : Session) :
  let d := _download_info s in
  Z.of_nat (length (pieces d)) < 4294967295 ->
  _send_bitfield s
  = (with_writer
       (_writer s
        ++ if downloaded_piece_count d =? 0 then []
           else message_frame bitfield (tobytes (map downloaded (pieces d))))
       s, Return tt).
Proof.
  intros d Hn. cbv [_send_bitfield bind get ret]. fold d.
  destruct (downloaded_piece_count d =? 0); cbn [negb].
  - rewrite app_nil_r. destruct s; reflexivity.
  - set (payload := tobytes (map downloaded (pieces d))).
    destruct (BitarrayFacts.length_tobytes (map downloaded (pieces d)))
      as [Hle _].
    rewrite length_map in Hle. fold payload in Hle.
    unfold _send_message, message_frame.
    replace (payload_len [payload] + 1) with (Z.of_nat (length payload) + 1)
      by (unfold payload_len; simpl; lia).
    rewrite pack_uint_4_total by lia.
    change (pack_uint 1 (MessageType_value bitfield)) with (Some [x05]).
    cbv [bind write modify for_each ret]. destruct s. simpl.
    rewrite <- !app_assoc. reflexivity.
Qed.

(** [_populate_info] on a torrent with a piece count. *)
Lemma populate_info_writes (d : DownloadInfo) (fs : FileStructure)
    (s : Session) :
  0 <= piece_count d ->
  _populate_info d fs s
  = (with_writer (_writer s ++ info_hash d ++ _our_peer_id s)
       (with_piece_owned (replicate (Z.to_nat (piece_count d)) false)
          (with_file_structure fs (with_download_info d s))), Return tt).
Proof.
  intros Hpc. cbv [_populate_info bind modify get write raise].
  destruct (Z.ltb_spec (piece_count d) 0); [lia|]. reflexivity.
Qed.

(** Reading takes bytes off the reader and touches nothing else. *)
Lemma readexactly_reads_only (n : Z) (s : Session) :
  exists r, fst (readexactly n s) = with_reader r s.
Proof. unfold readexactly. destruct (_ <? n); eexists; reflexivity. Qed.

Lemma receive_protocol_data_reads_only (s : Session) :
  exists r, fst (_receive_protocol_data s) = with_reader r s.
Proof.
  unfold _receive_protocol_data, bind.
  destruct (readexactly_reads_only
              (Z.of_nat (length HANDSHAKE_DATA + length RESERVED_BYTES)) s)
    as [r Hr].
  destruct (readexactly _ s) as [s1 [response|e]]; cbn [fst] in Hr; subst s1.
  - destruct (bool_decide _); exists r; reflexivity.
  - exists r. reflexivity.
Qed.

Lemma receive_info_reads_only (expected : option (list byte)) (s : Session) :
  exists r, fst (_receive_info expected s) = with_reader r s.
Proof.
  unfold _receive_info, bind, get.
  destruct (readexactly_reads_only
              (Z.of_nat (SHA1_DIGEST_LEN + length (_our_peer_id s))) s)
    as [r Hr].
  destruct (readexactly _ s) as [s1 [response|e]]; cbn [fst] in Hr; subst s1.
  - cbv zeta. destruct (bool_decide _); [exists r; reflexivity|].
    destruct expected as [p|]; [|exists r; reflexivity].
    destruct (bool_decide _); exists r; reflexivity.
  - exists r. reflexivity.
Qed.

(** The receiving half of the handshake of [connect]: it reads, and on a
    failure closes. *)
Lemma connect_receives (d : DownloadInfo) (expected : option (list byte))
    (s : Session) :
  exists r,
    forall s' res,
      closing_on_error
        (bind _receive_protocol_data (fun _ =>
         bind (_receive_info expected) (fun r =>
         if bool_decide (fst r = info_hash d) then ret (snd r)
         else raise (ValueError "info_hashes don't match")))) s = (s', res) ->
      match res with
      | Return _ => s' = with_reader r s
      | Raise _ => s' = with_connected false (with_reader r s)
      end.
Proof.
  unfold closing_on_error, bind at 1.
  destruct (receive_protocol_data_reads_only s) as [r1 H1].
  destruct (_receive_protocol_data s) as [s1 [[]|e]]; cbn [fst] in H1; subst s1.
  - unfold bind.
    destruct (receive_info_reads_only expected (with_reader r1 s)) as [r2 H2].
    rewrite with_reader_with_reader in H2.
    destruct (_receive_info expected (with_reader r1 s)) as [s2 [a|e]];
      cbn [fst] in H2; subst s2.
    + exists r2. intros s' res.
      destruct (bool_decide _); cbv [ret raise close modify];
        intros [= <- <-]; reflexivity.
    + exists r2. intros s' res [= <- <-]. reflexivity.
  - exists r1. intros s' res [= <- <-]. reflexivity.
Qed.

(** C10. At the end of a handshake the client's output is its handshake
    followed by what [_send_bitfield] writes for the torrent: nothing when
    [downloaded_piece_count] is zero, and otherwise one bitfield frame (id
    5) whose payload has ceil(n/8) bytes for n pieces and whose bit [i] is
    set exactly when piece [i] exists and is downloaded.  This holds for a
    [connect] that returns and for [confirm_info_hash], which ends the
    handshake of an accepted connection; both leave the session connected.
    A [connect] that raises has written its handshake only and is not
    connected. *)
Theorem bitfield_sent_iff_pieces_downloaded (d : DownloadInfo)
    (fs : FileStructure) (expected : option (list byte)) (s : Session) :
  let ours := info_hash d ++ _our_peer_id s in
  let bitfield_of (tail : list byte) :=
    (downloaded_piece_count d = 0 -> tail = [])
    /\ (downloaded_piece_count d <> 0 ->
        exists payload,
          tail = be_encode 4 (Z.of_nat (length payload) + 1)
                 ++ [x05] ++ payload
          /\ Z.of_nat (length payload)
             = ceil_div8 (Z.of_nat (length (pieces d)))
          /\ forall i,
               frombytes payload !! i = Some true
               <-> exists p, pieces d !! i = Some p /\ downloaded p = true) in
  0 <= piece_count d ->
  Z.of_nat (length (pieces d)) < 4294967295 ->
  (forall s' pid,
     connect d fs expected s = (s', Return pid) ->
     _connected s' = true
     /\ exists tail,
          _writer s'
          = _writer s ++ HANDSHAKE_DATA ++ RESERVED_BYTES ++ ours ++ tail
          /\ bitfield_of tail)
  /\ (forall s' e,
        connect d fs expected s = (s', Raise e) ->
        _connected s' = false
        /\ _writer s' = _writer s ++ HANDSHAKE_DATA ++ RESERVED_BYTES ++ ours)
  /\ (exists s' tail,
        confirm_info_hash d fs s = (s', Return tt)
        /\ _connected s' = true
        /\ _writer s' = _writer s ++ ours ++ tail
        /\ bitfield_of tail).
Proof.
  intros ours bitfield_of Hpc Hn.
  set (tail := if downloaded_piece_count d =? 0 then []
               else message_frame bitfield
                      (tobytes (map downloaded (pieces d)))).
  assert (Htail : bitfield_of tail).
  { unfold bitfield_of, tail. split.
    - intros ->. reflexivity.
    - intros Hnz. apply Z.eqb_neq in Hnz. rewrite Hnz.
      exists (tobytes (map downloaded (pieces d))). split; [reflexivity|].
      destruct (BitarrayFacts.length_tobytes (map downloaded (pieces d)))
        as [_ Hlen].
      rewrite length_map in Hlen. split; [exact Hlen|].
      intros i.
      rewrite BitarrayFacts.frombytes_tobytes_lookup, lookup_map.
      destruct (pieces d !! i) as [p|]; simpl.
      + split; [intros [= Hd]; eauto|]. intros (p' & [= <-] & ->).
        reflexivity.
      + split; [discriminate|]. intros (p' & Hp & _). discriminate. }
  set (populated_from := fun s0 : Session =>
         with_writer (_writer s0 ++ info_hash d ++ _our_peer_id s0)
           (with_piece_owned (replicate (Z.to_nat (piece_count d)) false)
              (with_file_structure fs (with_download_info d s0)))).
  assert (Hsend : forall s0 r,
            _send_bitfield (with_reader r (populated_from s0))
            = (with_writer
                 (_writer s0 ++ (info_hash d ++ _our_peer_id s0) ++ tail)
                 (with_reader r (populated_from s0)), Return tt)).
  { intros s0 r. rewrite send_bitfield_writes by exact Hn.
    unfold populated_from. cbn [_download_info _writer with_reader with_writer
      with_piece_owned with_file_structure with_download_info].
    fold tail. rewrite <- !app_assoc. reflexivity. }
  set (s1 := with_writer (_writer s ++ HANDSHAKE_DATA ++ RESERVED_BYTES) s).
  assert (Hconnect :
    exists r,
      forall s' res,
        connect d fs expected s = (s', res) ->
        match res with
        | Return _ =>
            s' = with_connected true
                   (with_writer
                      (_writer s1 ++ (info_hash d ++ _our_peer_id s1) ++ tail)
                      (with_reader r (populated_from s1)))
        | Raise _ => s' = with_connected false (with_reader r (populated_from s1))
        end).
  { destruct (connect_receives d expected (populated_from s1)) as [r Hrecv].
    exists r. intros s' res. unfold connect.
    change (bind _send_protocol_data ?k s) with (k tt s1).
    unfold bind at 1. rewrite (populate_info_writes d fs s1 Hpc).
    fold (populated_from s1). unfold bind at 1.
    destruct (closing_on_error _ (populated_from s1)) as [s3 res3].
    specialize (Hrecv s3 res3 eq_refl).
    destruct res3 as [pid|e]; subst s3.
    - unfold bind at 1. rewrite Hsend. cbv [bind modify ret].
      intros [= <- <-]. reflexivity.
    - intros [= <- <-]. reflexivity. }
  destruct Hconnect as [r Hconnect].
  split; [|split].
  - intros s' pid Hrun. apply Hconnect in Hrun. subst s'.
    split; [reflexivity|]. exists tail. split; [|exact Htail].
    unfold s1, ours. cbn [_writer _our_peer_id with_connected with_writer].
    rewrite <- !app_assoc. reflexivity.
  - intros s' e Hrun. apply Hconnect in Hrun. subst s'.
    split; [reflexivity|].
    unfold s1, ours, populated_from.
    cbn [_writer _our_peer_id with_connected with_writer with_reader
         with_piece_owned with_file_structure with_download_info].
    rewrite <- !app_assoc. reflexivity.
  - exists (with_connected true
              (with_writer (_writer s ++ ours ++ tail)
                 (with_reader (_reader s) (populated_from s)))), tail.
    split; [|split; [reflexivity|split; [reflexivity|exact Htail]]].
    unfold confirm_info_hash. unfold bind at 1.
    rewrite (populate_info_writes d fs s Hpc). fold (populated_from s).
    unfold bind at 1.
    replace (populated_from s)
      with (with_reader (_reader s) (populated_from s)) at 1
      by (destruct s; reflexivity).
    rewrite Hsend. cbv [modify]. reflexivity.
Qed.

End Facts.
End PeerFacts.

(** ** Start-up verification *)

Module ManagerFacts.
Import Models TorrentManager.

Section Facts.
Context `{Collaborators}.
Variable get_real_piece_length : DownloadInfo -> Z -> Z.

Lemma selected_from_spec (ps : list PieceInfo) :
  forall k i,
    i ∈ selected_from k ps
    <-> exists p, (k <= i)%nat /\ ps !! (i - k)%nat = Some p
                  /\ selected p = true.
Proof.
  induction ps as [|q ps IH]; intros k i; simpl.
  - split; [intros Hi; inversion Hi|]. intros (p & _ & Hp & _). discriminate.
  - assert (Htail : i ∈ selected_from (S k) ps
                    <-> exists p, (k < i)%nat /\ (q :: ps) !! (i - k)%nat = Some p
                                  /\ selected p = true).
    { rewrite IH. split; intros (p & Hk & Hp & Hs); exists p.
      - split; [lia|]. split; [|exact Hs].
        replace (i - k)%nat with (S (i - S k)) by lia. exact Hp.
      - split; [lia|]. split; [|exact Hs].
        replace (i - k)%nat with (S (i - S k)) in Hp by lia. exact Hp. }
    destruct (selected q) eqn:Es.
    + rewrite elem_of_cons, Htail. split.
      * intros [->|(p & Hk & Hp & Hs)].
        -- exists q. rewrite Nat.sub_diag. auto.
        -- exists p. split; [lia|auto].
      * intros (p & Hk & Hp & Hs).
        destruct (decide (i = k)) as [->|Hne]; [left; reflexivity|].
        right. exists p. split; [lia|auto].
    + rewrite Htail. split.
      * intros (p & Hk & Hp & Hs). exists p. split; [lia|auto].
      * intros (p & Hk & Hp & Hs).
        destruct (decide (i = k)) as [->|Hne].
        -- rewrite Nat.sub_diag in Hp. simpl in Hp. congruence.
        -- exists p. split; [lia|auto].
Qed.

Lemma selected_from_NoDup (ps : list PieceInfo) :
  forall k, NoDup (selected_from k ps).
Proof.
  induction ps as [|q ps IH]; intros k; simpl; [constructor|].
  destruct (selected q); [|apply IH].
  constructor; [|apply IH].
  rewrite selected_from_spec. intros (p & Hk & _). lia.
Qed.

Lemma selected_piece_indices_spec (ps : list PieceInfo) (i : nat) :
  i ∈ selected_piece_indices ps
  <-> exists p, ps !! i = Some p /\ selected p = true.
Proof.
  unfold selected_piece_indices. rewrite selected_from_spec.
  rewrite Nat.sub_0_r. split.
  - intros (p & _ & Hp). exists p. exact Hp.
  - intros (p & Hp). exists p. split; [lia|exact Hp].
Qed.

(** One iteration rewrites the piece at [index] and nothing else. *)
Lemma verify_piece_spec (d : DownloadInfo) (fs : FileStructure) (index : nat)
    (v : Verification) (p : PieceInfo) :
  v_pieces v !! index = Some p ->
  exists q,
    verify_piece get_real_piece_length d fs index v
    = Some {| v_pieces := <[index := q]> (v_pieces v);
              v_downloaded_piece_count :=
                v_downloaded_piece_count v
                + (if piece_verifies get_real_piece_length d fs index p
                   then 1 else 0);
              verified_count :=
                verified_count v
                + (if piece_verifies get_real_piece_length d fs index p
                   then 1 else 0);
              missing_pieces :=
                if piece_verifies get_real_piece_length d fs index p
                then missing_pieces v else missing_pieces v ++ [index] |}
    /\ selected q = selected p
    /\ downloaded q = piece_verifies get_real_piece_length d fs index p.
Proof.
  intros Hp. unfold verify_piece. rewrite Hp.
  destruct (piece_verifies get_real_piece_length d fs index p).
  - eexists. split; [reflexivity|]. destruct (downloaded p) eqn:Ed; auto.
  - eexists. rewrite !Z.add_0_r. split; [reflexivity|]. auto.
Qed.

Lemma verify_loop_spec (d : DownloadInfo) (fs : FileStructure)
    (indices : list nat) :
  forall v,
    NoDup indices ->
    (forall i, i ∈ indices -> (i < length (v_pieces v))%nat) ->
    exists v',
      verify_loop get_real_piece_length d fs indices v = Some v'
      /\ (forall i, i ∉ indices -> v_pieces v' !! i = v_pieces v !! i)
      /\ (forall i p, i ∈ indices -> v_pieces v !! i = Some p ->
            exists p', v_pieces v' !! i = Some p'
                       /\ selected p' = selected p
                       /\ downloaded p'
                          = piece_verifies get_real_piece_length d fs i p)
      /\ verified_count v' <= verified_count v + Z.of_nat (length indices)
      /\ (verified_count v' = verified_count v + Z.of_nat (length indices)
          <-> forall i p, i ∈ indices -> v_pieces v !! i = Some p ->
                piece_verifies get_real_piece_length d fs i p = true).
Proof.
  induction indices as [|index rest IH]; intros v Hnd Hlt.
  - exists v. split; [reflexivity|]. split; [auto|].
    split; [intros i p Hi; inversion Hi|].
    simpl. split; [lia|]. split; [|lia]. intros _ i p Hi. inversion Hi.
  - apply NoDup_cons in Hnd as [Hnotin Hnd].
    destruct (lookup_lt_is_Some_2 (v_pieces v) index
                (Hlt index ltac:(left))) as [p Hp].
    destruct (verify_piece_spec d fs index v p Hp) as (q & Ev & Hsel & Hdl).
    set (v1 := {| v_pieces := <[index := q]> (v_pieces v) |}) in Ev.
    assert (Hother : forall j, j <> index ->
                       v_pieces v1 !! j = v_pieces v !! j).
    { intros j Hj. simpl. apply list_lookup_insert_ne. congruence. }
    destruct (IH v1 Hnd) as (v' & Ev' & Hout & Hin & Hle & Hiff).
    { intros j Hj. simpl. rewrite length_insert. apply Hlt. right. exact Hj. }
    exists v'. split; [simpl; rewrite Ev; exact Ev'|].
    split; [|split; [|split]].
    + intros j Hj. rewrite not_elem_of_cons in Hj. destruct Hj as [Hne Hj].
      rewrite (Hout j Hj). apply Hother. exact Hne.
    + intros j pj Hj Hpj. apply elem_of_cons in Hj as [->|Hj].
      * rewrite (Hout index Hnotin). simpl.
        rewrite list_lookup_insert_eq by (apply Hlt; left).
        exists q. assert (pj = p) as -> by congruence. auto.
      * apply Hin; [exact Hj|].
        rewrite Hother; [exact Hpj|]. intros ->. contradiction.
    + simpl length. simpl verified_count in Hle.
      destruct (piece_verifies get_real_piece_length d fs index p); lia.
    + simpl length. simpl verified_count in Hle, Hiff. split.
      * intros Hcount.
        assert (Hv : piece_verifies get_real_piece_length d fs index p = true).
        { destruct (piece_verifies get_real_piece_length d fs index p);
            [reflexivity|lia]. }
        rewrite Hv in Hiff.
        assert (Hrest : forall i p0, i ∈ rest -> v_pieces v1 !! i = Some p0 ->
                  piece_verifies get_real_piece_length d fs i p0 = true)
          by (apply Hiff; lia).
        intros j pj Hj Hpj. apply elem_of_cons in Hj as [->|Hj].
        -- assert (pj = p) as -> by congruence. exact Hv.
        -- apply Hrest; [exact Hj|].
           rewrite Hother; [exact Hpj|]. intros ->. contradiction.
      * intros Hall.
        rewrite (Hall index p ltac:(left) Hp) in Hiff.
        assert (verified_count v' = verified_count v + 1 + Z.of_nat (length rest));
          [|lia].
        apply Hiff. intros j pj Hj Hpj. apply (Hall j pj); [right; exact Hj|].
        rewrite <- Hother; [exact Hpj|]. intros ->. contradiction.
Qed.

(** C3, as the code has it. The start-up verification always completes.
    It keeps the selection; when at least one piece is selected,
    [complete] is true exactly when every selected piece is downloaded;
    when no piece is selected, [complete] is false. *)
Theorem verification_sets_complete (d : DownloadInfo) (fs : FileStructure) :
  exists d',
    _verify_existing_data get_real_piece_length d fs = Some d'
    /\ (forall i, selected <$> pieces d' !! i = selected <$> pieces d !! i)
    /\ (selected_piece_indices (pieces d) <> [] ->
        (complete d' = true <-> all_selected_downloaded d'))
    /\ (selected_piece_indices (pieces d) = [] -> complete d' = false).
Proof.
  unfold _verify_existing_data.
  pose proof (selected_piece_indices_spec (pieces d)) as Hspec.
  pose proof (selected_from_NoDup (pieces d) 0) as Hnd.
  fold (selected_piece_indices (pieces d)) in Hnd.
  destruct (selected_piece_indices (pieces d)) as [|i0 rest] eqn:Eidx.
  - eexists. split; [reflexivity|]. simpl.
    split; [reflexivity|]. split; [congruence|reflexivity].
  - rewrite <- Eidx in *.
    set (indices := selected_piece_indices (pieces d)) in *.
    set (v0 := {| v_pieces := pieces d; v_downloaded_piece_count := 0;
                  verified_count := 0; missing_pieces := [] |}).
    destruct (verify_loop_spec d fs indices v0 Hnd)
      as (v' & Ev & Hout & Hin & Hle & Hiff).
    { intros i Hi. apply Hspec in Hi as (p & Hp & _).
      simpl. apply (lookup_lt_Some _ _ _ Hp). }
    rewrite Ev. eexists. split; [reflexivity|]. simpl in *.
    rewrite Z.add_0_l in Hiff, Hle.
    assert (Hpos : 0 < Z.of_nat (length indices)).
    { rewrite Eidx. simpl. lia. }
    split; [|split].
    + intros i. destruct (decide (i ∈ indices)) as [Hi|Hi].
      * pose proof Hi as Hi'. apply Hspec in Hi' as (p & Hp & _).
        destruct (Hin i p Hi Hp) as (p' & Hp' & Hs & _).
        rewrite Hp', Hp. simpl. rewrite Hs. reflexivity.
      * rewrite (Hout i Hi). reflexivity.
    + intros _. unfold all_selected_downloaded. simpl.
      rewrite andb_true_iff, Z.eqb_eq, Z.ltb_lt. split.
      * intros [Hcount0 _]. pose proof (proj1 Hiff Hcount0) as Hcount.
        intros i p' Hp' Hs.
        destruct (decide (i ∈ indices)) as [Hi|Hi].
        -- pose proof Hi as Hi'. apply Hspec in Hi' as (p & Hp & _).
           destruct (Hin i p Hi Hp) as (p'' & Hp'' & _ & Hd).
           assert (p' = p'') as -> by congruence.
           rewrite Hd. apply (Hcount i p Hi Hp).
        -- exfalso. apply Hi. apply Hspec. exists p'.
           rewrite <- (Hout i Hi). auto.
      * intros Hall.
        assert (Hcount : verified_count v' = Z.of_nat (length indices)).
        { apply (proj2 Hiff). intros i p Hi Hp.
          destruct (Hin i p Hi Hp) as (p' & Hp' & Hs & Hd).
          rewrite <- Hd. apply (Hall i p' Hp').
          rewrite Hs. apply Hspec in Hi as (p0 & Hp0 & Hs0).
          congruence. }
        lia.
    + intros Hnil. rewrite Hnil in Eidx. discriminate.
Qed.

End Facts.
End ManagerFacts.

(** ** The handlers on concrete sessions *)

Module Examples.
Import Wire Bitarray Models PeerTCPClient TorrentManager Demo.
Import PeerFacts ManagerFacts.

(** C2, counterexample. A request for 2^17 + 1 bytes that passes the
    position check, from an interested peer we do not choke, for a
    downloaded piece, is not dropped silently: the handler raises and the
    receive loop ends with that exception. *)
Lemma oversized_request_ends_session :
  MAX_REQUEST_LENGTH < block_length (request_of oversized_request)
  /\ _check_position_range (request_of oversized_request) seeding_session
     = (seeding_session, Return tt)
  /\ _handle_requests request oversized_request seeding_session
     = (seeding_session, Raise MAX_REQUEST_LENGTH_exceeded)
  /\ run 2 (with_reader (frame x06 oversized_request) seeding_session)
     = Some (seeding_session, MAX_REQUEST_LENGTH_exceeded).
Proof. repeat split; vm_compute; reflexivity. Qed.

(** A request for the first four bytes of the downloaded piece is served. *)
Lemma request_rejected_or_served_witness :
  _handle_requests request small_request seeding_session
  = (after_upload (request_of small_request) [x61; x61; x61; x61]
       seeding_session, Return tt).
Proof.
  destruct (request_rejected_or_served seeding_session small_request
              (demo_piece true true) eq_refl eq_refl eq_refl)
    as (_ & _ & Hserved).
  apply Hserved; vm_compute; first [reflexivity | discriminate].
Defined.

(** C3, counterexample. With no piece selected, every selected piece is
    downloaded, yet the verification leaves [complete] false. *)
Lemma empty_selection_is_not_complete :
  exists d',
    _verify_existing_data nominal_piece_length deselected_info [] = Some d'
    /\ all_selected_downloaded d'
    /\ complete d' = false.
Proof.
  eexists. split; [vm_compute; reflexivity|]. split; [|reflexivity].
  intros [|i] p Hp Hs; simpl in Hp; [|discriminate].
  injection Hp as <-. discriminate Hs.
Qed.

(** A block for the downloaded piece 0 changes nothing. *)
Lemma block_for_settled_piece_ignored_witness :
  fst (_handle_block late_block seeding_session) = seeding_session.
Proof.
  apply (block_for_settled_piece_ignored seeding_session late_block
           (demo_piece true true)); reflexivity.
Defined.


(** Choking the unchoked peer writes one choke frame. *)
Lemma flag_setters_emit_on_flip_witness :
  set_am_choking true seeding_session
  = (with_writer [x00; x00; x00; x01; x00]
       (with_am_choking true seeding_session), Return tt).
Proof.
  exact (proj1 (flag_setters_emit_on_flip seeding_session true eq_refl)).
Defined.

(** A two-byte message with id 20 is skipped; the keep-alive behind it is
    what the loop reads next. *)
Lemma unknown_message_id_discarded_witness :
  run_iteration
    (with_reader ([x00; x00; x00; x02; x14; xaa] ++ [x00; x00; x00; x00])
       seeding_session)
  = (with_reader [x00; x00; x00; x00] seeding_session, Return tt).
Proof.
  destruct (unknown_message_id_discarded
              (with_reader ([x00; x00; x00; x02; x14; xaa] ++ [x00; x00; x00; x00])
                 seeding_session)
              x00 x00 x00 x02 x14 [xaa] [x00; x00; x00; x00]
              eq_refl eq_refl
              ltac:(vm_compute; discriminate) ltac:(vm_compute; reflexivity))
    as (_ & Hit & _).
  exact Hit.
Defined.

(** Dialing the example peer succeeds; piece 0 is downloaded and piece 1
    is not, so after the 68 bytes of handshake the session has written a
    bitfield frame with bit 0 set and bit 1 clear. *)
Lemma bitfield_sent_iff_pieces_downloaded_witness :
  exists s' pid payload,
    connect demo_info (replicate 32 x61) None dialing_session
    = (s', Return pid)
    /\ _writer s'
       = HANDSHAKE_DATA ++ RESERVED_BYTES
         ++ (replicate 20 x01 ++ replicate 20 x02)
         ++ be_encode 4 (Z.of_nat (length payload) + 1) ++ [x05] ++ payload
    /\ frombytes payload !! 0%nat = Some true
    /\ frombytes payload !! 1%nat <> Some true.
Proof.
  destruct (bitfield_sent_iff_pieces_downloaded demo_info (replicate 32 x61)
              None dialing_session
              ltac:(vm_compute; discriminate) ltac:(vm_compute; reflexivity))
    as (Hreturns & _ & _).
  destruct (connect demo_info (replicate 32 x61) None dialing_session)
    as [s' [pid|e]] eqn:E; [|vm_compute in E; discriminate E].
  destruct (Hreturns s' pid eq_refl) as (_ & tail & Hw & _ & Hsent).
  destruct (Hsent ltac:(discriminate)) as (payload & -> & _ & Hbits).
  exists s', pid, payload. split; [reflexivity|]. split; [exact Hw|]. split.
  - apply Hbits. exists (demo_piece true true). split; reflexivity.
  - intros Hb. apply Hbits in Hb as (p & Hp & Hd).
    injection Hp as <-. discriminate Hd.
Defined.

End Examples.

(** ** Dictionaries and fields of any width *)

Module DictFacts.
Section Facts.
Context {K V : Type} `{EqDecision K}.

Lemma get_set_eq (k : K) (v : V) (d : list (K * V)) :
  Dict.get k (Dict.set k v d) = Some v.
Proof.
  induction d as [|[k' v'] d IH]; simpl.
  - destruct (decide (k = k)); [reflexivity|contradiction].
  - destruct (decide (k = k')) as [->|Hne]; simpl.
    + destruct (decide (k' = k')); [reflexivity|contradiction].
    + destruct (decide (k = k')); [contradiction|exact IH].
Qed.

Lemma get_set_ne (k k' : K) (v : V) (d : list (K * V)) :
  k <> k' -> Dict.get k' (Dict.set k v d) = Dict.get k' d.
Proof.
  intros Hne. induction d as [|[k0 v0] d IH]; simpl.
  - destruct (decide (k' = k)); [congruence|reflexivity].
  - destruct (decide (k = k0)) as [->|Hk]; simpl.
    + destruct (decide (k' = k0)); [congruence|reflexivity].
    + destruct (decide (k' = k0)); [reflexivity|exact IH].
Qed.

Lemma get_Some_keys (k : K) (v : V) (d : list (K * V)) :
  Dict.get k d = Some v -> k ∈ Dict.keys d.
Proof.
  induction d as [|[k0 v0] d IH]; simpl; [discriminate|].
  destruct (decide (k = k0)) as [->|Hk]; intros Hg.
  - left.
  - right. apply IH. exact Hg.
Qed.

Lemma get_None_keys (k : K) (d : list (K * V)) :
  Dict.get k d = None -> k ∉ Dict.keys d.
Proof.
  induction d as [|[k0 v0] d IH]; simpl; intros Hg Hin.
  - inversion Hin.
  - destruct (decide (k = k0)) as [->|Hk]; [discriminate|].
    apply elem_of_cons in Hin as [?|Hin]; [contradiction|].
    apply IH; assumption.
Qed.

Lemma keys_set_present (k : K) (v v0 : V) (d : list (K * V)) :
  Dict.get k d = Some v0 -> Dict.keys (Dict.set k v d) = Dict.keys d.
Proof.
  induction d as [|[k' v'] d IH]; simpl; [discriminate|].
  destruct (decide (k = k')) as [->|Hk]; intros Hg; simpl; [reflexivity|].
  rewrite IH by exact Hg. reflexivity.
Qed.

Lemma set_absent (k : K) (v : V) (d : list (K * V)) :
  Dict.get k d = None -> Dict.set k v d = d ++ [(k, v)].
Proof.
  induction d as [|[k' v'] d IH]; simpl; [reflexivity|].
  destruct (decide (k = k')) as [->|Hk]; intros Hg; [discriminate|].
  rewrite IH by exact Hg. reflexivity.
Qed.

(** An assignment to a present key rewrites one record in place. *)
Lemma set_present (k : K) (v v0 : V) (d : list (K * V)) :
  Dict.get k d = Some v0 ->
  exists d1 d2, d = d1 ++ (k, v0) :: d2
                /\ Dict.set k v d = d1 ++ (k, v) :: d2
                /\ k ∉ Dict.keys d1.
Proof.
  induction d as [|[k' v'] d IH]; simpl; [discriminate|].
  destruct (decide (k = k')) as [->|Hk]; intros Hg.
  - injection Hg as ->. exists [], d. repeat split. intros Hin. inversion Hin.
  - destruct (IH Hg) as (d1 & d2 & -> & -> & Hnin).
    exists ((k', v') :: d1), d2. repeat split.
    simpl. intros Hin. apply elem_of_cons in Hin as [?|?]; contradiction.
Qed.

Lemma del_present (k : K) (v0 : V) (d : list (K * V)) :
  Dict.get k d = Some v0 ->
  exists d1 d2, d = d1 ++ (k, v0) :: d2 /\ Dict.del k d = d1 ++ d2.
Proof.
  induction d as [|[k' v'] d IH]; simpl; [discriminate|].
  destruct (decide (k = k')) as [->|Hk]; intros Hg.
  - injection Hg as ->. exists [], d. split; reflexivity.
  - destruct (IH Hg) as (d1 & d2 & -> & ->).
    exists ((k', v') :: d1), d2. split; reflexivity.
Qed.

End Facts.
End DictFacts.

Module FieldFacts.
Import Wire WireFacts.

Lemma length_be_encode (n : nat) (z : Z) : length (be_encode n z) = n.
Proof. induction n as [|n IH]; simpl; [reflexivity|]. rewrite IH. reflexivity. Qed.

Lemma be_decode_cons (b : byte) (bs : list byte) :
  be_decode (b :: bs) = Z_of_byte b * 256 ^ Z.of_nat (length bs) + be_decode bs.
Proof.
  unfold be_decode.
  assert (Hacc : forall l acc,
            fold_left (fun a x => a * 256 + Z_of_byte x) l acc
            = acc * 256 ^ Z.of_nat (length l)
              + fold_left (fun a x => a * 256 + Z_of_byte x) l 0).
  { induction l as [|x l IH]; intros acc.
    - simpl. lia.
    - simpl fold_left. rewrite (IH (acc * 256 + Z_of_byte x)).
      rewrite (IH (0 * 256 + Z_of_byte x)).
      change (length (x :: l)) with (S (length l)).
      rewrite Nat2Z.inj_succ, Z.pow_succ_r by lia. lia. }
  simpl fold_left. rewrite Hacc. lia.
Qed.

(** Packing keeps the [n] low bytes; unpacking gives them back. *)
Lemma be_decode_encode (n : nat) (z : Z) :
  be_decode (be_encode n z) = z mod 256 ^ Z.of_nat n.
Proof.
  induction n as [|n IH].
  - simpl. rewrite Z.mod_1_r. reflexivity.
  - simpl be_encode. rewrite be_decode_cons, length_be_encode, IH.
    rewrite Z_of_byte_of_Z.
    rewrite Nat2Z.inj_succ, Z.pow_succ_r by lia.
    assert (Hp : 0 < 256 ^ Z.of_nat n) by (apply Z.pow_pos_nonneg; lia).
    rewrite (Z.mul_comm 256).
    rewrite Z.rem_mul_r by lia. lia.
Qed.

Lemma pack_uint_round_trip (n : nat) (z : Z) (bs : list byte) :
  pack_uint n z = Some bs -> length bs = n /\ be_decode bs = z.
Proof.
  unfold pack_uint.
  destruct ((0 <=? z) && (z <? 256 ^ Z.of_nat n)) eqn:E; [|discriminate].
  apply andb_prop in E as [H0 H1].
  apply Z.leb_le in H0. apply Z.ltb_lt in H1.
  intros [= <-]. split; [apply length_be_encode|].
  rewrite be_decode_encode. apply Z.mod_small. lia.
Qed.


End FieldFacts.

(** ** Connection ids over time *)

Module ConnectionFacts.
Import Wire WireFacts FieldFacts Tracker TrackerFacts.

Lemma Qgtb_lt (a b : Q) : Qgtb a b = true <-> (b < a)%Q.
Proof.
  unfold Qgtb. rewrite negb_true_iff. split.
  - intros Hf. apply Qnot_le_lt. intros Hle.
    apply Qle_bool_iff in Hle. congruence.
  - intros Hlt. destruct (Qle_bool a b) eqn:E; [|reflexivity].
    apply Qle_bool_iff in E. exfalso. apply (Qlt_not_le _ _ Hlt E).
Qed.



Section Runs.
Variable inet_aton : string -> option (list byte).
Variable inet_pton6 : string -> option (list byte).



End Runs.

Lemma lookup_fold_delete (l : list Z) (m : gmap Z Q) (k : Z) :
  fold_left (fun m cid => remove_connection_id cid m) l m !! k
  = if decide (k ∈ l) then None else m !! k.
Proof.
  revert m. induction l as [|x l IH]; intros m; simpl.
  - destruct (decide (k ∈ [])) as [Hin|_]; [inversion Hin|reflexivity].
  - rewrite IH. unfold remove_connection_id.
    destruct (decide (k ∈ l)) as [Hl|Hl].
    + destruct (decide (k ∈ x :: l)) as [_|Hn]; [reflexivity|].
      exfalso. apply Hn. right. exact Hl.
    + destruct (decide (k = x)) as [->|Hne].
      * rewrite lookup_delete_eq.
        destruct (decide (x ∈ x :: l)) as [_|Hn]; [reflexivity|].
        exfalso. apply Hn. left.
      * rewrite lookup_delete_ne by congruence.
        destruct (decide (k ∈ x :: l)) as [Hin|_]; [|reflexivity].
        apply elem_of_cons in Hin as [?|?]; contradiction.
Qed.

Lemma elem_of_expired_ids (now : Q) (ids : gmap Z Q) (k : Z) :
  k ∈ expired_ids now ids
  <-> exists exp, ids !! k = Some exp /\ Qle_bool exp now = true.
Proof.
  unfold expired_ids. rewrite list_elem_of_fmap. split.
  - intros ([k' exp] & -> & Hin). apply list_elem_of_filter in Hin as [Hexp Hin].
    apply elem_of_map_to_list in Hin. simpl in *.
    exists exp. split; [exact Hin|]. apply Is_true_true. exact Hexp.
  - intros (exp & Hl & Hexp). exists (k, exp). split; [reflexivity|].
    apply list_elem_of_filter. split.
    + simpl. apply Is_true_true. exact Hexp.
    + apply elem_of_map_to_list. exact Hl.
Qed.

(** X3. Cleaning at time [now] keeps exactly the entries that expire after
    [now], with their expiration times, and no validity check made at
    [now] or later can tell that it happened. *)
Theorem clean_expired_keeps_live_ids (now : Q) (ids : gmap Z Q) :
  (forall cid exp,
     clean_expired_connection_ids now ids !! cid = Some exp
     <-> ids !! cid = Some exp /\ (now < exp)%Q)
  /\ (forall now' cid,
        (now <= now')%Q ->
        is_connection_id_valid now' cid (clean_expired_connection_ids now ids)
        = is_connection_id_valid now' cid ids).
Proof.
  assert (Hl : forall cid,
            clean_expired_connection_ids now ids !! cid
            = match ids !! cid with
              | Some exp => if Qle_bool exp now then None else Some exp
              | None => None
              end).
  { intros cid. unfold clean_expired_connection_ids.
    rewrite lookup_fold_delete.
    destruct (decide (cid ∈ expired_ids now ids)) as [Hin|Hn].
    - apply elem_of_expired_ids in Hin as (exp & -> & ->). reflexivity.
    - destruct (ids !! cid) as [exp|] eqn:E; [|reflexivity].
      destruct (Qle_bool exp now) eqn:Ee; [|reflexivity].
      exfalso. apply Hn. apply elem_of_expired_ids. eauto. }
  split.
  - intros cid exp. rewrite Hl.
    destruct (ids !! cid) as [exp0|]; [|split; [discriminate|intros [? _]; discriminate]].
    destruct (Qle_bool exp0 now) eqn:Ee.
    + split; [discriminate|]. intros [[= ->] Hlt].
      apply Qle_bool_iff in Ee. exfalso. apply (Qlt_not_le _ _ Hlt Ee).
    + split.
      * intros [= ->]. split; [reflexivity|].
        apply Qnot_le_lt. intros Hle. apply Qle_bool_iff in Hle. congruence.
      * intros [[= ->] _]. reflexivity.
  - intros now' cid Hle. unfold is_connection_id_valid. rewrite Hl.
    destruct (ids !! cid) as [exp|]; [|reflexivity].
    destruct (Qle_bool exp now) eqn:Ee; [|reflexivity].
    apply Qle_bool_iff in Ee. symmetry.
    destruct (Qgtb exp now') eqn:Eg; [|reflexivity].
    apply Qgtb_lt in Eg. exfalso.
    apply (Qlt_not_le _ _ Eg). eapply Qle_trans; eassumption.
Qed.

End ConnectionFacts.

(** ** The records and counters of a torrent *)

Module TorrentDataFacts.
Import Wire Tracker DictFacts.

Lemma count_seeders_app (d1 d2 : list (list byte * PeerInfo)) :
  count_seeders (d1 ++ d2) = count_seeders d1 + count_seeders d2.
Proof.
  induction d1 as [|[k v] d1 IH]; simpl; [reflexivity|]. rewrite IH. lia.
Qed.

Lemma count_seeders_bounds (d : list (list byte * PeerInfo)) :
  0 <= count_seeders d <= Z.of_nat (length d).
Proof.
  induction d as [|[k v] d IH]; simpl; [lia|]. destruct (is_seeder v); lia.
Qed.

Lemma count_set_present (k : list byte) (v old : PeerInfo)
    (d : list (list byte * PeerInfo)) :
  Dict.get k d = Some old ->
  length (Dict.set k v d) = length d
  /\ count_seeders (Dict.set k v d)
     = count_seeders d - b2z (is_seeder old) + b2z (is_seeder v).
Proof.
  intros Hg. destruct (set_present k v old d Hg) as (d1 & d2 & -> & -> & _).
  rewrite !length_app, !count_seeders_app. simpl. unfold b2z.
  split; [reflexivity|]. destruct (is_seeder old), (is_seeder v); lia.
Qed.

Lemma count_set_absent (k : list byte) (v : PeerInfo)
    (d : list (list byte * PeerInfo)) :
  Dict.get k d = None ->
  length (Dict.set k v d) = S (length d)
  /\ count_seeders (Dict.set k v d) = count_seeders d + b2z (is_seeder v).
Proof.
  intros Hg. rewrite (set_absent k v d Hg).
  rewrite length_app, count_seeders_app. simpl. unfold b2z.
  split; [lia|]. destruct (is_seeder v); lia.
Qed.

Lemma same_endpoint_true (ip0 : string) (port0 : Z) (info : PeerInfo) :
  same_endpoint ip0 port0 info = true <-> endpoint info = (ip0, port0).
Proof.
  unfold same_endpoint, endpoint.
  rewrite andb_true_iff, bool_decide_eq_true, Z.eqb_eq. split.
  - intros [-> ->]. reflexivity.
  - intros [= -> ->]. auto.
Qed.

Lemma find_existing_Some (ip0 : string) (port0 : Z)
    (d : list (list byte * PeerInfo)) (pid : list byte) :
  find_existing ip0 port0 d = Some pid ->
  exists info, (pid, info) ∈ d /\ endpoint info = (ip0, port0).
Proof.
  induction d as [|[k v] d IH]; simpl; [discriminate|].
  destruct (same_endpoint ip0 port0 v) eqn:E.
  - intros [= ->]. exists v. split; [left|]. apply same_endpoint_true. exact E.
  - intros Hf. destruct (IH Hf) as (info & Hin & He).
    exists info. split; [right; exact Hin|exact He].
Qed.

Lemma find_existing_None (ip0 : string) (port0 : Z)
    (d : list (list byte * PeerInfo)) :
  find_existing ip0 port0 d = None ->
  (ip0, port0) ∉ map endpoint (Dict.values d).
Proof.
  induction d as [|[k v] d IH]; simpl; intros Hf Hin; [inversion Hin|].
  destruct (same_endpoint ip0 port0 v) eqn:E; [discriminate|].
  apply elem_of_cons in Hin as [Heq|Hin].
  - symmetry in Heq. apply same_endpoint_true in Heq. congruence.
  - apply (IH Hf). exact Hin.
Qed.

Lemma elem_of_get (k : list byte) (v : PeerInfo)
    (d : list (list byte * PeerInfo)) :
  (k, v) ∈ d -> exists v', Dict.get k d = Some v'.
Proof.
  induction d as [|[k0 v0] d IH]; intros Hin; [inversion Hin|].
  simpl. destruct (decide (k = k0)); [eauto|].
  apply elem_of_cons in Hin as [[= ? ?]|Hin]; [contradiction|]. auto.
Qed.

Lemma truthy_Some (k : option (list byte)) (e : list byte) :
  truthy k = Some e -> k = Some e /\ e <> [].
Proof.
  destruct k as [[|b bs]|]; simpl; try discriminate.
  intros [= <-]. split; [reflexivity|discriminate].
Qed.

(** The two branches of [add_peer], with the counters as sums. *)
Lemma add_peer_cases (peer_id : list byte) (ip0 : string) (port0 : Z)
    (seeder : bool) (td : TorrentData) :
  let new := {| ip := ip0; port := port0; is_seeder := seeder |} in
  let td' := add_peer peer_id ip0 port0 seeder td in
  interval td' = interval td
  /\ ((exists e old,
         find_existing ip0 port0 (peers td) = Some e
         /\ e <> []
         /\ Dict.get e (peers td) = Some old
         /\ peers td' = Dict.set e new (peers td)
         /\ seeders_count td'
            = seeders_count td - b2z (is_seeder old) + b2z seeder
         /\ leechers_count td'
            = leechers_count td + b2z (is_seeder old) - b2z seeder)
      \/ (truthy (find_existing ip0 port0 (peers td)) = None
          /\ peers td' = Dict.set peer_id new (peers td)
          /\ seeders_count td' = seeders_count td + b2z seeder
          /\ leechers_count td' = leechers_count td + 1 - b2z seeder)).
Proof.
  intros new td'. unfold td', add_peer. fold new.
  destruct (truthy (find_existing ip0 port0 (peers td))) as [e|] eqn:Et.
  - apply truthy_Some in Et as [Hf Hne].
    destruct (find_existing_Some _ _ _ _ Hf) as (info & Hin & _).
    destruct (elem_of_get _ _ _ Hin) as [old Hold].
    rewrite Hold.
    destruct (is_seeder old) eqn:Eo, seeder; simpl; (split; [reflexivity|]);
      left; exists e, old; rewrite Eo; simpl; repeat split; auto; lia.
  - split; [reflexivity|]. right. simpl.
    destruct seeder; simpl; repeat split; lia.
Qed.

(** X8. When the announcing endpoint is already registered, or the peer id
    is new, [add_peer] keeps counters that agree with the records in
    agreement. *)
Theorem add_peer_keeps_counts_exact (peer_id : list byte) (ip0 : string)
    (port0 : Z) (seeder : bool) (td : TorrentData) :
  counts_exact td ->
  truthy (find_existing ip0 port0 (peers td)) <> None
  \/ Dict.get peer_id (peers td) = None ->
  counts_exact (add_peer peer_id ip0 port0 seeder td).
Proof.
  intros [Hs Hl] Hcase. unfold counts_exact, count_leechers in *.
  destruct (add_peer_cases peer_id ip0 port0 seeder td)
    as (_ & [(e & old & Hf & _ & Hold & -> & -> & ->)
            | (Ht & -> & -> & ->)]).
  - destruct (count_set_present e
                {| ip := ip0; port := port0; is_seeder := seeder |}
                old (peers td) Hold) as [-> ->].
    simpl. lia.
  - destruct Hcase as [Hn|Hfresh]; [contradiction|].
    destruct (count_set_absent peer_id
                {| ip := ip0; port := port0; is_seeder := seeder |}
                (peers td) Hfresh) as [-> ->].
    simpl. lia.
Qed.

(** X9. A peer id that is already registered and announces from an
    endpoint that is not has its record replaced, yet is counted as a new
    peer: the two counters then add up to one more than there are
    records. *)
Theorem add_peer_recounts_moved_peer (peer_id : list byte) (ip0 : string)
    (port0 : Z) (seeder : bool) (td : TorrentData) (old : PeerInfo) :
  counts_exact td ->
  find_existing ip0 port0 (peers td) = None ->
  Dict.get peer_id (peers td) = Some old ->
  let td' := add_peer peer_id ip0 port0 seeder td in
  length (peers td') = length (peers td)
  /\ Dict.get peer_id (peers td')
     = Some {| ip := ip0; port := port0; is_seeder := seeder |}
  /\ seeders_count td' + leechers_count td'
     = Z.of_nat (length (peers td')) + 1.
Proof.
  intros [Hs Hl] Hf Hold td'. unfold count_leechers in Hl.
  destruct (add_peer_cases peer_id ip0 port0 seeder td)
    as (_ & [(e & old' & Hf' & _)| (Ht & Hp & Hs' & Hl')]); [congruence|].
  fold td' in Hp, Hs', Hl'. rewrite Hp, Hs', Hl'.
  destruct (count_set_present peer_id
              {| ip := ip0; port := port0; is_seeder := seeder |}
              old (peers td) Hold) as [-> _].
  split; [reflexivity|]. split; [apply get_set_eq|]. lia.
Qed.

Lemma count_del_present (k : list byte) (old : PeerInfo)
    (d : list (list byte * PeerInfo)) :
  Dict.get k d = Some old ->
  S (length (Dict.del k d)) = length d
  /\ count_seeders (Dict.del k d) = count_seeders d - b2z (is_seeder old).
Proof.
  intros Hg. destruct (del_present k old d Hg) as (d1 & d2 & -> & ->).
  rewrite !length_app, !count_seeders_app. simpl. unfold b2z.
  split; [lia|]. destruct (is_seeder old); lia.
Qed.

(** X10. [remove_peer] and [complete_download] keep counters that agree
    with the records in agreement, for present and for absent peer ids
    alike; [update_peer_counts] brings any counters into agreement and
    changes nothing when they already agree. *)
Theorem counters_follow_the_records (peer_id : list byte) (td : TorrentData) :
  (counts_exact td -> counts_exact (remove_peer peer_id td))
  /\ (counts_exact td -> counts_exact (complete_download peer_id td))
  /\ counts_exact (update_peer_counts td)
  /\ (counts_exact td -> update_peer_counts td = td).
Proof.
  unfold counts_exact, count_leechers. split; [|split; [|split]].
  - intros [Hs Hl]. unfold remove_peer.
    destruct (Dict.get peer_id (peers td)) as [old|] eqn:E; [|auto].
    destruct (count_del_present _ _ _ E) as [Hlen Hc]. simpl.
    rewrite Hc. unfold b2z. destruct (is_seeder old); lia.
  - intros [Hs Hl]. unfold complete_download.
    destruct (Dict.get peer_id (peers td)) as [old|] eqn:E; [|auto].
    destruct (is_seeder old) eqn:Eo; simpl; [auto|].
    destruct (count_set_present peer_id
                {| ip := ip old; port := port old; is_seeder := true |}
                old (peers td) E) as [Hlen Hc].
    rewrite Hlen, Hc, Eo. simpl. lia.
  - unfold update_peer_counts. simpl. lia.
  - intros [Hs Hl]. unfold update_peer_counts. destruct td. simpl in *.
    subst. reflexivity.
Qed.

End TorrentDataFacts.

(** ** Torrents in reachable states, and what an announce returns *)

Module AnnounceFacts.
Import Wire WireFacts FieldFacts Tracker TrackerFacts DictFacts TorrentDataFacts.

Lemma NoDup_replace {A} (l1 l2 : list A) (x y : A) :
  NoDup (l1 ++ x :: l2) -> y ∉ l1 -> y ∉ l2 -> NoDup (l1 ++ y :: l2).
Proof.
  rewrite !NoDup_app, !NoDup_cons. intros (H1 & H12 & Hx & H2) Hy1 Hy2.
  split; [exact H1|]. split; [|split; assumption].
  intros z Hz Hin. apply elem_of_cons in Hin as [->|Hin]; [contradiction|].
  apply (H12 z Hz). right. exact Hin.
Qed.

Lemma get_of_elem (k : list byte) (v : PeerInfo)
    (d : list (list byte * PeerInfo)) :
  NoDup (Dict.keys d) -> (k, v) ∈ d -> Dict.get k d = Some v.
Proof.
  induction d as [|[k0 v0] d IH]; intros Hnd Hin; [inversion Hin|].
  simpl in Hnd. apply NoDup_cons in Hnd as [Hk0 Hnd].
  simpl. apply elem_of_cons in Hin as [[= -> ->]|Hin].
  - destruct (decide (k0 = k0)); [reflexivity|contradiction].
  - destruct (decide (k = k0)) as [->|Hne]; [|auto].
    exfalso. apply Hk0. unfold Dict.keys.
    apply list_elem_of_fmap. exists (k0, v). split; [reflexivity|exact Hin].
Qed.

(** A non-empty peer id keeps keys and endpoints distinct. *)
Lemma add_peer_distinct_endpoints (peer_id : list byte) (ip0 : string)
    (port0 : Z) (seeder : bool) (td : TorrentData) :
  peer_id <> [] ->
  distinct_endpoints td ->
  distinct_endpoints (add_peer peer_id ip0 port0 seeder td).
Proof.
  intros Hpid (Hk & Hne & He). unfold distinct_endpoints.
  set (new := {| ip := ip0; port := port0; is_seeder := seeder |}).
  assert (Hnew : endpoint new = (ip0, port0)) by reflexivity.
  destruct (add_peer_cases peer_id ip0 port0 seeder td)
    as (_ & [(e & old & Hf & _ & Hold & -> & _)|(Ht & -> & _)]); fold new.
  - destruct (find_existing_Some _ _ _ _ Hf) as (info & Hin & Hep).
    rewrite (get_of_elem e info (peers td) Hk Hin) in Hold.
    injection Hold as <-.
    destruct (set_present e new info (peers td)
                (get_of_elem e info (peers td) Hk Hin))
      as (d1 & d2 & Hd & -> & _).
    rewrite Hd in Hk, Hne, He. unfold Dict.keys, Dict.values in *.
    rewrite !map_app in *. simpl in *. rewrite Hnew, <- Hep.
    auto.
  - assert (Hfn : find_existing ip0 port0 (peers td) = None).
    { destruct (find_existing ip0 port0 (peers td)) as [[|b bs]|] eqn:Ef;
        [|discriminate Ht|reflexivity].
      destruct (find_existing_Some _ _ _ _ Ef) as (info & Hin & _).
      exfalso. rewrite Forall_forall in Hne. apply (Hne []); [|reflexivity].
      unfold Dict.keys. apply list_elem_of_fmap.
      exists ([], info). split; [reflexivity|exact Hin]. }
    apply find_existing_None in Hfn.
    destruct (Dict.get peer_id (peers td)) as [old|] eqn:Eg.
    + destruct (set_present peer_id new old (peers td) Eg)
        as (d1 & d2 & Hd & -> & _).
      rewrite Hd in Hk, Hne, He, Hfn. unfold Dict.keys, Dict.values in *.
      rewrite !map_app in *. simpl in *.
      split; [exact Hk|]. split; [exact Hne|].
      rewrite Hnew. apply (NoDup_replace _ _ _ _ He).
      * intros Hin. apply Hfn. apply elem_of_app. left. exact Hin.
      * intros Hin. apply Hfn. apply elem_of_app. right. right. exact Hin.
    + rewrite (set_absent peer_id new (peers td) Eg).
      unfold Dict.keys, Dict.values in *. rewrite !map_app. simpl.
      split; [|split].
      * apply NoDup_app. split; [exact Hk|]. split; [|apply NoDup_singleton].
        intros x Hx Hin. apply list_elem_of_singleton in Hin. subst x.
        apply (get_None_keys _ _ Eg). exact Hx.
      * apply Forall_app. split; [exact Hne|]. constructor; [exact Hpid|constructor].
      * apply NoDup_app. split; [exact He|]. split; [|apply NoDup_singleton].
        intros x Hx Hin. apply list_elem_of_singleton in Hin. subst x.
        apply Hfn. exact Hx.
Qed.

(** The counters never fall below what the records say. *)
Lemma add_peer_counts_cover (peer_id : list byte) (ip0 : string)
    (port0 : Z) (seeder : bool) (td : TorrentData) :
  counts_cover td -> counts_cover (add_peer peer_id ip0 port0 seeder td).
Proof.
  intros [Hs Hl]. unfold counts_cover, count_leechers in *.
  set (new := {| ip := ip0; port := port0; is_seeder := seeder |}).
  destruct (add_peer_cases peer_id ip0 port0 seeder td)
    as (_ & [(e & old & _ & _ & Hold & -> & -> & ->)|(_ & -> & -> & ->)]);
    fold new.
  - destruct (count_set_present e new old (peers td) Hold) as [-> ->].
    simpl. lia.
  - destruct (Dict.get peer_id (peers td)) as [old|] eqn:Eg.
    + destruct (count_set_present peer_id new old (peers td) Eg) as [-> ->].
      simpl. unfold b2z. destruct (is_seeder old), seeder; lia.
    + destruct (count_set_absent peer_id new (peers td) Eg) as [-> ->].
      simpl. lia.
Qed.

Section Runs.
Variable inet_aton : string -> option (list byte).
Variable inet_pton6 : string -> option (list byte).

Lemma unpack_announce_peer_id (data : list byte) (rq : Announce) :
  unpack_announce data = Some rq -> length (a_peer_id rq) = 20%nat.
Proof.
  unfold unpack_announce, ANNOUNCE_SIZE.
  destruct (Nat.leb_spec 98 (length data)); [|discriminate].
  intros [= <-]. simpl. unfold slice. rewrite length_take, length_drop. lia.
Qed.

(** A torrent record after a datagram is the one before, or the result of
    [add_peer] with a 20-byte peer id on the one before (a fresh record if
    there was none). *)
Lemma torrents_step (st : Server) (e : Datagram) (ih : list byte)
    (td' : TorrentData) :
  Dict.get ih (torrents (fst (step inet_aton inet_pton6 st e))) = Some td' ->
  Dict.get ih (torrents st) = Some td'
  \/ exists pid host port0 seeder,
       length pid = 20%nat
       /\ td' = add_peer pid host port0 seeder
                  (default TorrentData_init (Dict.get ih (torrents st))).
Proof.
  unfold step, datagram_received.
  destruct (unpack_action (dg_data e)) as [[action transaction_id]|]; [|auto].
  destruct (action =? 0).
  { unfold handle_connect.
    destruct (pack_uint 4 0), (pack_uint 4 transaction_id),
      (pack_uint 8 (dg_rnd e)); auto. }
  destruct (action =? 1); [|auto].
  unfold handle_announce.
  destruct (unpack_announce (dg_data e)) as [rq|] eqn:Eu; [|auto].
  destruct (is_connection_id_valid _ _ _); simpl; [|auto].
  set (td := add_peer _ _ _ _ _).
  assert (Hfst : forall r : Server * option (list byte),
            r = (match announce_header (a_transaction_id rq) td with
                 | Some header =>
                     if a_event rq =? 3
                     then ({| connection_ids := connection_ids st;
                              torrents := Dict.set (a_info_hash rq) td
                                            (torrents st) |}, Some header)
                     else ({| connection_ids := connection_ids st;
                              torrents := Dict.set (a_info_hash rq) td
                                            (torrents st) |},
                           Some (header
                                 ++ concat
                                      (map (pack_peer inet_aton inet_pton6)
                                         (selected_peers (a_num_want rq)
                                            (dg_host e) (a_port rq) td))))
                 | None => ({| connection_ids := connection_ids st;
                               torrents := Dict.set (a_info_hash rq) td
                                             (torrents st) |}, None)
                 end) ->
            torrents (fst r) = Dict.set (a_info_hash rq) td (torrents st)).
  { intros r ->. destruct (announce_header _ _); [|reflexivity].
    destruct (a_event rq =? 3); reflexivity. }
  rewrite (Hfst _ eq_refl).
  destruct (decide (a_info_hash rq = ih)) as [<-|Hne].
  - rewrite get_set_eq. intros [= <-]. right.
    exists (a_peer_id rq), (dg_host e), (a_port rq), (a_left rq =? 0).
    split; [exact (unpack_announce_peer_id _ _ Eu)|reflexivity].
  - rewrite get_set_ne by exact Hne. auto.
Qed.

(** A property of torrent records that holds of a fresh record and that
    [add_peer] keeps for 20-byte peer ids holds in every reachable state. *)
Lemma reachable_torrents (P : TorrentData -> Prop) :
  P TorrentData_init ->
  (forall pid host port0 seeder td,
     length pid = 20%nat -> P td -> P (add_peer pid host port0 seeder td)) ->
  forall tr ih td,
    Dict.get ih (torrents (run_trace inet_aton inet_pton6 tr)) = Some td ->
    P td.
Proof.
  intros Hinit Hadd tr.
  induction tr as [|e tr IH] using rev_ind; intros ih td Hg.
  - discriminate Hg.
  - rewrite run_trace_snoc in Hg.
    apply torrents_step in Hg as [Hg|(pid & host & port0 & seeder & Hlen & ->)].
    + eapply IH. exact Hg.
    + apply Hadd; [exact Hlen|].
      destruct (Dict.get ih (torrents (run_trace inet_aton inet_pton6 tr)))
        as [td0|] eqn:E; simpl; [eapply IH; exact E|exact Hinit].
Qed.

(** X6. In every state the server can reach, the peers of a torrent have
    distinct non-empty keys and pairwise distinct (ip, port) endpoints. *)
Theorem reachable_endpoints_distinct (tr : list Datagram) (ih : list byte)
    (td : TorrentData) :
  Dict.get ih (torrents (run_trace inet_aton inet_pton6 tr)) = Some td ->
  distinct_endpoints td.
Proof.
  apply (reachable_torrents distinct_endpoints).
  - unfold distinct_endpoints. simpl.
    split; [constructor|]. split; constructor.
  - intros pid host port0 seeder td0 Hlen Htd.
    apply add_peer_distinct_endpoints; [|exact Htd].
    intros ->. discriminate Hlen.
Qed.

(** X7. In every state the server can reach, the seeder and leecher
    counters of a torrent are at least the numbers of seeder and leecher
    records, hence never negative, and the interval is 1800. *)
Theorem reachable_counts_cover (tr : list Datagram) (ih : list byte)
    (td : TorrentData) :
  Dict.get ih (torrents (run_trace inet_aton inet_pton6 tr)) = Some td ->
  counts_cover td
  /\ 0 <= seeders_count td /\ 0 <= leechers_count td
  /\ interval td = 1800.
Proof.
  intros Hg.
  assert (H : counts_cover td /\ interval td = 1800).
  { revert tr ih td Hg.
    apply (reachable_torrents (fun td => counts_cover td /\ interval td = 1800)).
    - split; [|reflexivity]. unfold counts_cover, count_leechers. simpl. lia.
    - intros pid host port0 seeder td0 _ [Hc Hi]. split.
      + apply add_peer_counts_cover. exact Hc.
      + destruct (add_peer_cases pid host port0 seeder td0) as [-> _].
        exact Hi. }
  destruct H as [[Hs Hl] Hi]. unfold counts_cover, count_leechers in *.
  pose proof (count_seeders_bounds (peers td)).
  repeat split; try assumption; lia.
Qed.

(** X12. In every state the server can reach, an announce that carries a
    valid connection id is answered, unless a counter of the torrent has
    reached 2^32. *)
Theorem reachable_announce_answered (tr : list Datagram) (now : Q)
    (data : list byte) (host : string) (rq : Announce) :
  let st := run_trace inet_aton inet_pton6 tr in
  let td := add_peer (a_peer_id rq) host (a_port rq) (a_left rq =? 0)
              (default TorrentData_init
                 (Dict.get (a_info_hash rq) (torrents st))) in
  unpack_announce data = Some rq ->
  is_connection_id_valid now (a_connection_id rq) (connection_ids st) = true ->
  seeders_count td < 2 ^ 32 ->
  leechers_count td < 2 ^ 32 ->
  exists resp,
    snd (handle_announce inet_aton inet_pton6 now data host st) = Some resp.
Proof.
  intros st td Hu Hv Hs Hl.
  assert (H0 : counts_cover
                 (default TorrentData_init
                    (Dict.get (a_info_hash rq) (torrents st)))
               /\ interval (default TorrentData_init
                              (Dict.get (a_info_hash rq) (torrents st)))
                  = 1800).
  { destruct (Dict.get (a_info_hash rq) (torrents st)) as [td0|] eqn:E; simpl.
    - destruct (reachable_torrents
                  (fun td => counts_cover td /\ interval td = 1800))
        with (tr := tr) (ih := a_info_hash rq) (td := td0) as [Hc Hi];
        [| |exact E|auto].
      + split; [|reflexivity]. unfold counts_cover, count_leechers. simpl. lia.
      + intros pid h p s t _ [Hc Hi]. split.
        * apply add_peer_counts_cover. exact Hc.
        * destruct (add_peer_cases pid h p s t) as [-> _]. exact Hi.
    - split; [|reflexivity]. unfold counts_cover, count_leechers. simpl. lia. }
  destruct H0 as [Hc0 Hi0].
  pose proof (add_peer_counts_cover (a_peer_id rq) host (a_port rq)
                (a_left rq =? 0) _ Hc0) as [Hcs Hcl].
  fold td in Hcs, Hcl. unfold count_leechers in Hcl.
  pose proof (count_seeders_bounds (peers td)).
  apply (handle_announce_responds inet_aton inet_pton6 now data host st rq Hu Hv);
    fold td.
  - destruct (add_peer_cases (a_peer_id rq) host (a_port rq)
                (a_left rq =? 0)
                (default TorrentData_init
                   (Dict.get (a_info_hash rq) (torrents st)))) as [Hi _].
    fold td in Hi. rewrite Hi, Hi0. lia.
  - change (2 ^ 32) with 4294967296 in Hl. lia.
  - change (2 ^ 32) with 4294967296 in Hs. lia.
Qed.

(** X4. Every peer offered in answer to an announce is a registered peer
    of that torrent, and none of them has the announcer's own (ip, port). *)
Theorem announcer_not_among_selected_peers (num_want : Z) (host : string)
    (port0 : Z) (td : TorrentData) (p : PeerInfo) :
  p ∈ selected_peers num_want host port0 td ->
  p ∈ Dict.values (peers td) /\ endpoint p <> (host, port0).
Proof.
  unfold selected_peers, py_take. intros Hin.
  assert (Hf : p ∈ filter (fun q => negb (same_endpoint host port0 q))
                     (Dict.values (peers td))).
  { destruct (_ <? 0); exact (subseteq_take _ _ _ Hin). }
  apply list_elem_of_filter in Hf as [Hneq Hp]. split; [exact Hp|].
  intros He. apply same_endpoint_true in He. rewrite He in Hneq.
  exact Hneq.
Qed.

Lemma length_pack_peer (p : PeerInfo) :
  length (pack_peer inet_aton inet_pton6 p) = 0%nat
  \/ length (pack_peer inet_aton inet_pton6 p) = 6%nat.
Proof.
  unfold pack_peer.
  destruct (if has_colon (ip p) then inet_pton6 (ip p) else inet_aton (ip p))
    as [bs|]; [|left; reflexivity].
  destruct (pack_uint 2 (port p)) as [pb|] eqn:Ep; [|left; reflexivity].
  right. apply pack_uint_round_trip in Ep as [Hl _].
  rewrite length_app, Hl. unfold pack_4s.
  rewrite length_take, length_app, length_replicate. lia.
Qed.

Lemma length_peer_list (l : list PeerInfo) :
  exists k, (k <= length l)%nat
            /\ length (concat (map (pack_peer inet_aton inet_pton6) l))
               = (6 * k)%nat.
Proof.
  induction l as [|p l (k & Hk & IH)]; [exists 0%nat; simpl; split; lia|].
  simpl. rewrite length_app, IH.
  destruct (length_pack_peer p) as [->| ->].
  - exists k. split; lia.
  - exists (S k). split; lia.
Qed.

Lemma get_Some_values (k : list byte) (v : PeerInfo)
    (d : list (list byte * PeerInfo)) :
  Dict.get k d = Some v -> v ∈ Dict.values d.
Proof.
  induction d as [|[k0 v0] d IH]; simpl; [discriminate|].
  destruct (decide (k = k0)); [intros [= ->]; left|].
  intros Hg. right. apply IH. exact Hg.
Qed.

(** After [add_peer] the announcer has a record with its endpoint. *)
Lemma add_peer_registers (peer_id : list byte) (ip0 : string) (port0 : Z)
    (seeder : bool) (td : TorrentData) :
  {| ip := ip0; port := port0; is_seeder := seeder |}
  ∈ Dict.values (peers (add_peer peer_id ip0 port0 seeder td)).
Proof.
  destruct (add_peer_cases peer_id ip0 port0 seeder td)
    as (_ & [(e & old & _ & _ & _ & -> & _)|(_ & -> & _)]);
    eapply get_Some_values; apply get_set_eq.
Qed.

Lemma length_others (host : string) (port0 : Z) (l : list PeerInfo)
    (q : PeerInfo) :
  q ∈ l -> same_endpoint host port0 q = true ->
  (length (filter (fun p => negb (same_endpoint host port0 p)) l)
   < length l)%nat.
Proof.
  intros Hq Hsame. induction l as [|x l IH]; [inversion Hq|].
  rewrite filter_cons.
  pose proof (length_filter
                (fun p => negb (same_endpoint host port0 p)) l) as Hle.
  apply elem_of_cons in Hq as [<-|Hq].
  - destruct (decide _) as [Hd|_]; [|simpl; lia].
    rewrite Hsame in Hd. contradiction.
  - specialize (IH Hq). destruct (decide _); simpl; lia.
Qed.

(** X5. Any answer to an announce is the 20-byte header followed by [k]
    six-byte entries, where [k] is at most the num_want of the request (as
    the unsigned number it is read as), is less than the number of peers
    registered for the torrent (the announcer is one of them and is left
    out), and is 0 for a stopped event. *)
Theorem announce_response_size (now : Q) (data : list byte) (host : string)
    (st : Server) (rq : Announce) (resp : list byte) :
  unpack_announce data = Some rq ->
  snd (handle_announce inet_aton inet_pton6 now data host st) = Some resp ->
  let td := add_peer (a_peer_id rq) host (a_port rq) (a_left rq =? 0)
              (default TorrentData_init
                 (Dict.get (a_info_hash rq) (torrents st))) in
  exists k,
    length resp = (20 + 6 * k)%nat
    /\ Z.of_nat k <= a_num_want rq
    /\ (k < length (peers td))%nat
    /\ (a_event rq = 3 -> k = 0%nat).
Proof.
  intros Hu Hr td. unfold handle_announce in Hr. rewrite Hu in Hr.
  destruct (is_connection_id_valid _ _ _); simpl in Hr; [|discriminate].
  fold td in Hr.
  destruct (announce_header (a_transaction_id rq) td) as [header|] eqn:Eh;
    [|discriminate].
  apply announce_header_inv in Eh as (Hlen & _).
  pose proof (unpack_num_want_unsigned data rq Hu) as Hnw.
  set (others := filter (fun p => negb (same_endpoint host (a_port rq) p))
                   (Dict.values (peers td))).
  assert (Hothers : (length others < length (peers td))%nat).
  { replace (length (peers td)) with (length (Dict.values (peers td)))
      by apply length_map.
    apply (length_others host (a_port rq) _
             {| ip := host; port := a_port rq; is_seeder := a_left rq =? 0 |}).
    - apply add_peer_registers.
    - apply same_endpoint_true. reflexivity. }
  destruct (Z.eqb_spec (a_event rq) 3) as [He|He]; simpl in Hr;
    injection Hr as <-.
  - exists 0%nat. rewrite Hlen. repeat split; lia.
  - set (sel := selected_peers (a_num_want rq) host (a_port rq) td).
    destruct (length_peer_list sel) as (k & Hk & Hl).
    exists k. rewrite length_app, Hlen, Hl.
    destruct (selected_peers_at_most (a_num_want rq) host (a_port rq) td)
      as [_ Hmost]. fold sel in Hmost.
    split; [reflexivity|]. split; [lia|]. split; [|contradiction].
    assert (Hsel : (length sel <= length others)%nat); [|lia].
    unfold sel, selected_peers, py_take. fold others.
    destruct (_ <? 0); rewrite length_take; lia.
Qed.

End Runs.
End AnnounceFacts.


(** ** Transaction ids *)

Module TransactionFacts.
Import Tracker DictFacts.

Lemma list_remove_last (x : Z) (l : list Z) :
  exists l', list_remove x (l ++ [x]) = Some l'
             /\ l' ≡ₚ l
             /\ (x ∉ l -> l' = l).
Proof.
  induction l as [|y l (l' & Hr & Hp & Hn)]; simpl.
  - destruct (decide (x = x)); [|contradiction].
    exists []. repeat split; auto.
  - destruct (decide (x = y)) as [->|Hne].
    + exists (l ++ [y]). split; [reflexivity|]. split.
      * symmetry. apply Permutation_cons_append.
      * intros Hnin. exfalso. apply Hnin. left.
    + rewrite Hr. exists (y :: l'). split; [reflexivity|]. split.
      * constructor. exact Hp.
      * intros Hnin. f_equal. apply Hn. intros Hin. apply Hnin. right.
        exact Hin.
Qed.

Lemma list_remove_absent (x : Z) (l : list Z) :
  x ∉ l -> list_remove x l = None.
Proof.
  induction l as [|y l IH]; intros Hn; [reflexivity|]. simpl.
  destruct (decide (x = y)) as [->|Hne]; [exfalso; apply Hn; left|].
  rewrite IH; [reflexivity|]. intros Hin. apply Hn. right. exact Hin.
Qed.

(** X11. Adding a transaction id appends it to the peer's list; removing
    it again succeeds and leaves the same ids (the same list when the id
    was not there before), and other peers' lists are untouched by both.
    Removing an id the peer does not have raises; for an unknown peer it
    does nothing. *)
Theorem transaction_ids_add_then_remove (peer_id : list byte)
    (transaction_id : Z) (t : list (list byte * list Z)) :
  get_transaction_ids peer_id (add_transaction_id peer_id transaction_id t)
  = get_transaction_ids peer_id t ++ [transaction_id]
  /\ (exists t',
        remove_transaction_id peer_id transaction_id
          (add_transaction_id peer_id transaction_id t) = Some t'
        /\ get_transaction_ids peer_id t' ≡ₚ get_transaction_ids peer_id t
        /\ (transaction_id ∉ get_transaction_ids peer_id t ->
            get_transaction_ids peer_id t' = get_transaction_ids peer_id t)
        /\ forall other, other <> peer_id ->
             get_transaction_ids other t' = get_transaction_ids other t)
  /\ (forall l, Dict.get peer_id t = Some l -> transaction_id ∉ l ->
        remove_transaction_id peer_id transaction_id t = None)
  /\ (Dict.get peer_id t = None ->
      remove_transaction_id peer_id transaction_id t = Some t).
Proof.
  unfold get_transaction_ids, add_transaction_id, remove_transaction_id.
  split; [rewrite get_set_eq; reflexivity|]. split; [|split].
  - rewrite get_set_eq.
    destruct (list_remove_last transaction_id
                (default [] (Dict.get peer_id t))) as (l' & -> & Hp & Hn).
    eexists. split; [reflexivity|]. rewrite get_set_eq. simpl.
    split; [exact Hp|]. split; [exact Hn|].
    intros other Hne. rewrite !get_set_ne by congruence. reflexivity.
  - intros l -> Hn. rewrite (list_remove_absent _ _ Hn). reflexivity.
  - intros ->. reflexivity.
Qed.

End TransactionFacts.

(** ** What incoming messages can and cannot change *)

Module SessionFacts.
Import Wire WireFacts FieldFacts Bitarray Models PeerTCPClient PeerFacts.

Section Frames.
Context `{Collaborators}.

Section Preservation.
Variable R : Session -> Session -> Prop.
Hypothesis R_refl : forall s, R s s.
Hypothesis R_trans : forall s1 s2 s3, R s1 s2 -> R s2 s3 -> R s1 s3.
Hypothesis R_reader : forall r s, R s (with_reader r s).
Hypothesis R_writer : forall w s, R s (with_writer w s).
Hypothesis R_piece_owned : forall o s, R s (with_piece_owned o s).
Hypothesis R_pieces :
  forall ps s, R s (with_download_info (set_pieces ps (_download_info s)) s).
Hypothesis R_am_interested : forall b s, R s (with_am_interested b s).
Hypothesis R_peer_choking : forall b s, R s (with_peer_choking b s).
Hypothesis R_peer_interested : forall b s, R s (with_peer_interested b s).

Lemma preserves_ret {A} (a : A) : preserves R (ret a).
Proof. intros s. apply R_refl. Qed.

Lemma preserves_raise {A} (e : exn) : preserves R (raise (A := A) e).
Proof. intros s. apply R_refl. Qed.

Lemma preserves_get : preserves R get.
Proof. intros s. apply R_refl. Qed.

Lemma preserves_modify (f : Session -> Session) :
  (forall s, R s (f s)) -> preserves R (modify f).
Proof. intros Hf s. apply Hf. Qed.

Lemma preserves_bind {A B} (m : M A) (k : A -> M B) :
  preserves R m -> (forall a, preserves R (k a)) -> preserves R (bind m k).
Proof.
  intros Hm Hk s. unfold bind. specialize (Hm s).
  destruct (m s) as [s' [a|e]]; simpl in *; [|exact Hm].
  eapply R_trans; [exact Hm|apply Hk].
Qed.

Lemma preserves_for_each {A} (l : list A) (body : A -> M unit) :
  (forall x, preserves R (body x)) -> preserves R (for_each l body).
Proof.
  intros Hb. induction l as [|x l IH]; simpl; [apply preserves_ret|].
  apply preserves_bind; [apply Hb|intros _; exact IH].
Qed.

Lemma preserves_readexactly (n : Z) : preserves R (readexactly n).
Proof.
  intros s. unfold readexactly.
  destruct (_ <? n); simpl; apply R_reader.
Qed.

Lemma preserves_write (bs : list byte) : preserves R (write bs).
Proof. apply preserves_modify. intros s. apply R_writer. Qed.

Ltac pres :=
  repeat first
    [ apply preserves_ret
    | apply preserves_raise
    | apply preserves_get
    | apply preserves_readexactly
    | apply preserves_write
    | apply preserves_bind; [|intros ?]
    | apply preserves_for_each; intros ?
    | apply preserves_modify; intros ?;
      first [ apply R_reader | apply R_writer | apply R_piece_owned
            | apply R_pieces | apply R_am_interested | apply R_peer_choking
            | apply R_peer_interested ]
    | match goal with
      | |- preserves _ (match ?x with _ => _ end) => destruct x
      end ].

Lemma preserves_receive_message : preserves R _receive_message.
Proof. unfold _receive_message. pres. Qed.

Lemma preserves_send_message (m : option MessageType)
    (payload : list (list byte)) :
  preserves R (_send_message m payload).
Proof. unfold _send_message. pres. Qed.

Lemma preserves_set_am_interested (value : bool) :
  preserves R (set_am_interested value).
Proof.
  unfold set_am_interested, _check_connect. pres.
  apply preserves_send_message.
Qed.

Lemma preserves_mark_as_owner (piece_index : Z) :
  preserves R (_mark_as_owner piece_index).
Proof.
  intros s. cbv [_mark_as_owner bind get modify raise].
  destruct (py_index piece_index (length (_piece_owned s))) as [k|];
    [|apply R_refl].
  assert (H1 : R s (with_piece_owned (<[k:=true]> (_piece_owned s)) s))
    by apply R_piece_owned.
  destruct (py_index piece_index (length (pieces (_download_info s))))
    as [j|]; [|exact H1].
  destruct (pieces (_download_info s) !! j) as [p|]; [|exact H1].
  set (s1 := with_piece_owned _ s) in *.
  assert (H2 : R s1 (with_download_info
                       (set_pieces
                          (<[j:=add_owner (_peer s) p]>
                             (pieces (_download_info s)))
                          (_download_info s)) s1))
    by apply (R_pieces _ s1).
  set (s2 := with_download_info _ s1) in *.
  destruct (bool_decide _).
  - eapply R_trans; [exact H1|]. eapply R_trans; [exact H2|].
    apply preserves_set_am_interested.
  - eapply R_trans; eassumption.
Qed.

Lemma preserves_handle_setting_states (m : MessageType) (payload : list byte) :
  preserves R (_handle_setting_states m payload).
Proof. unfold _handle_setting_states, _check_payload_len. pres. Qed.

Lemma preserves_handle_haves (m : MessageType) (payload : list byte) :
  preserves R (_handle_haves m payload).
Proof.
  unfold _handle_haves. destruct m; try apply preserves_ret.
  - destruct (negb _); [apply preserves_raise|apply preserves_mark_as_owner].
  - apply preserves_bind; [apply preserves_get|]. intros s0.
    apply preserves_bind.
    { unfold _check_payload_len.
      destruct (_ =? _); [apply preserves_ret|apply preserves_raise]. }
    intros _. apply preserves_bind; apply preserves_for_each || intros _.
    + intros i. unfold mark_owned_bit.
      destruct (py_index _ _); [|apply preserves_raise].
      destruct (default false _);
        [apply preserves_mark_as_owner|apply preserves_ret].
    + apply preserves_for_each. intros i. unfold check_spare_bit.
      destruct (py_index _ _); [|apply preserves_raise].
      destruct (default false _); [apply preserves_raise|apply preserves_ret].
Qed.

Lemma preserves_check_position_range (rq : BlockRequest) :
  preserves R (_check_position_range rq).
Proof. unfold _check_position_range. pres. Qed.

Lemma preserves_get_piece (i : Z) : preserves R (get_piece i).
Proof. unfold get_piece. pres. Qed.

(** The loop body keeps [R] as soon as the two handlers that touch the
    counters and the file store do. *)
Lemma preserves_run_iteration :
  (forall m payload, preserves R (_handle_requests m payload)) ->
  (forall payload, preserves R (_handle_block payload)) ->
  preserves R run_iteration.
Proof.
  intros Hreq Hblock. unfold run_iteration.
  apply preserves_bind; [apply preserves_receive_message|].
  intros [[m payload]|]; [|apply preserves_ret].
  destruct m;
    first [ apply preserves_handle_setting_states
          | apply preserves_handle_haves
          | apply Hreq
          | apply Hblock
          | unfold _check_payload_len; pres ].
Qed.

Lemma preserves_run :
  preserves R run_iteration ->
  forall fuel s s' e, run fuel s = Some (s', e) -> R s s'.
Proof.
  intros Hit. induction fuel as [|fuel IH]; intros s s' e Hr; [discriminate|].
  simpl in Hr. specialize (Hit s).
  destruct (run_iteration s) as [s1 [[]|e1]]; simpl in Hit.
  - eapply R_trans; [exact Hit|]. eapply IH. exact Hr.
  - injection Hr as <- <-. exact Hit.
Qed.

Hypothesis R_downloaded : forall n s, R s (with_downloaded n s).
Hypothesis R_statistics :
  forall st s,
    R s (with_download_info
           (set_session_statistics st (_download_info s)) s).
Hypothesis R_file_structure : forall f s, R s (with_file_structure f s).

Lemma preserves_handle_block (payload : list byte) :
  preserves R (_handle_block payload).
Proof.
  unfold _handle_block.
  apply preserves_bind; [apply preserves_get|]. intros s0.
  destruct (negb _); [apply preserves_ret|].
  destruct (_ <? 8)%nat; [apply preserves_raise|].
  apply preserves_bind; [apply preserves_check_position_range|]. intros _.
  destruct (_ =? 0); [apply preserves_ret|].
  apply preserves_bind; [apply preserves_get_piece|]. intros p.
  destruct (_ || _); [apply preserves_ret|].
  apply preserves_bind;
    [apply preserves_modify; intros ?; apply R_downloaded|]. intros _.
  apply preserves_bind;
    [apply preserves_modify; intros ?; apply R_statistics|]. intros _.
  apply preserves_bind; [apply preserves_get|]. intros s1.
  destruct (fs_write _ _ _) as [fs ok].
  apply preserves_bind;
    [apply preserves_modify; intros ?; apply R_file_structure|]. intros _.
  destruct (negb ok); [apply preserves_raise|].
  apply preserves_modify. intros ?. apply R_pieces.
Qed.

Hypothesis R_uploaded : forall n s, R s (with_uploaded n s).

Lemma preserves_send_block (rq : BlockRequest) : preserves R (_send_block rq).
Proof.
  unfold _send_block.
  apply preserves_bind; [apply preserves_get|]. intros s0.
  destruct (fs_read _ _ _); [|apply preserves_raise].
  destruct (pack_uint 4 _); [|apply preserves_raise].
  destruct (pack_uint 4 _); [|apply preserves_raise].
  apply preserves_bind; [apply preserves_send_message|]. intros _.
  apply preserves_bind;
    [apply preserves_modify; intros ?; apply R_uploaded|]. intros _.
  apply preserves_modify. intros ?. apply R_statistics.
Qed.

Lemma preserves_handle_requests (m : MessageType) (payload : list byte) :
  preserves R (_handle_requests m payload).
Proof.
  unfold _handle_requests, drain.
  destruct (negb _); [apply preserves_raise|].
  apply preserves_bind; [apply preserves_check_position_range|]. intros _.
  destruct m; try apply preserves_ret.
  destruct (_ <? _); [apply preserves_raise|].
  apply preserves_bind; [apply preserves_get|]. intros s0.
  destruct (_am_choking s0); [apply preserves_ret|].
  destruct (negb _); [apply preserves_ret|].
  apply preserves_bind; [apply preserves_get_piece|]. intros p.
  destruct (negb _); [apply preserves_ret|].
  apply preserves_bind; [apply preserves_send_block|]. intros _.
  apply preserves_ret.
Qed.

End Preservation.

Ltac frame :=
  intros; unfold same_standing, nothing_served_while_choking in *;
  repeat match goal with s : Session |- _ => destruct s end;
  simpl in *;
  repeat match goal with H : _ /\ _ |- _ => destruct H end;
  subst; intuition (subst; auto; congruence).

(** X13. Whatever the peer sends, and however the receive loop ends, the
    session still has the [am_choking] flag, the [connected] flag, the
    peer and the peer id it started with: no incoming message unchokes the
    peer or changes who we talk to. *)
Theorem incoming_messages_keep_standing (fuel : nat) (s s' : Session)
    (e : exn) :
  run fuel s = Some (s', e) -> same_standing s s'.
Proof.
  intros Hr.
  assert (Hit : preserves same_standing run_iteration).
  { apply preserves_run_iteration; try solve [frame].
    - intros m payload. apply preserves_handle_requests; frame.
    - intros payload. apply preserves_handle_block; frame. }
  eapply (preserves_run same_standing);
    try exact Hit; try exact Hr; frame.
Qed.

Lemma handle_requests_while_choking (m : MessageType) (payload : list byte)
    (s : Session) :
  _am_choking s = true -> fst (_handle_requests m payload s) = s.
Proof.
  intros Hc. unfold _handle_requests.
  destruct (negb _); [reflexivity|].
  unfold bind at 1.
  destruct (check_position_range_cases
              {| piece_index := field 0 4 payload;
                 block_begin := field 4 4 payload;
                 block_length := field 8 4 payload |} s) as [-> | [e ->]];
    [|reflexivity].
  destruct m; try reflexivity.
  destruct (_ <? _); [reflexivity|].
  cbv [bind get]. rewrite Hc. reflexivity.
Qed.

(** X14. While we choke the peer, nothing it sends moves the upload
    counter: along the whole receive loop [am_choking] stays as it is and,
    if it is set, [_uploaded] ends where it started. *)
Theorem nothing_uploaded_while_choking (fuel : nat) (s s' : Session)
    (e : exn) :
  run fuel s = Some (s', e) ->
  _am_choking s = true ->
  _am_choking s' = true /\ _uploaded s' = _uploaded s.
Proof.
  intros Hr Hc.
  assert (HR : nothing_served_while_choking s s').
  { assert (Hit : preserves nothing_served_while_choking run_iteration).
    { apply preserves_run_iteration; try solve [frame].
      - intros m payload s0. split.
        + apply (preserves_handle_requests
                   (fun a b => _am_choking b = _am_choking a)); frame.
        + intros H0. rewrite handle_requests_while_choking by exact H0.
          reflexivity.
      - intros payload. apply preserves_handle_block; frame. }
    eapply (preserves_run nothing_served_while_choking);
      try exact Hit; try exact Hr; frame. }
  destruct HR as [Ha Hu]. split; [congruence|auto].
Qed.

End Frames.
End SessionFacts.

(** ** Frames sent and frames received *)

Module RoundTripFacts.
Import Wire WireFacts FieldFacts Bitarray BitarrayFacts Models PeerTCPClient.
Import PeerFacts.

Section Facts.
Context `{Collaborators}.

Lemma with_writer_with_writer (w w' : list byte) (s : Session) :
  with_writer w (with_writer w' s) = with_writer w s.
Proof. destruct s. reflexivity. Qed.

Lemma for_each_write (payload : list (list byte)) :
  forall s,
    for_each payload write s
    = (with_writer (_writer s ++ concat payload) s, Return tt).
Proof.
  induction payload as [|x l IH]; intros s; simpl.
  - rewrite app_nil_r. destruct s. reflexivity.
  - unfold bind. unfold write at 1, modify. rewrite IH.
    rewrite with_writer_with_writer. destruct s. simpl.
    rewrite <- app_assoc. reflexivity.
Qed.

Lemma payload_len_concat (payload : list (list byte)) :
  payload_len payload = Z.of_nat (length (concat payload)).
Proof.
  unfold payload_len. induction payload as [|x l IH]; simpl; [reflexivity|].
  rewrite IH, length_app. lia.
Qed.

Lemma send_message_frame (m : MessageType) (payload : list (list byte))
    (s : Session) :
  Z.of_nat (length (concat payload)) + 1 < 4294967296 ->
  _send_message (Some m) payload s
  = (with_writer (_writer s ++ message_frame m (concat payload)) s, Return tt).
Proof.
  intros Hlen. unfold _send_message. rewrite payload_len_concat.
  rewrite pack_uint_4_total by lia.
  replace (pack_uint 1 (MessageType_value m))
    with (Some [byte_of_Z (MessageType_value m)])
    by (destruct m; reflexivity).
  unfold bind. unfold write at 1, modify. rewrite for_each_write.
  rewrite with_writer_with_writer. destruct s. simpl.
  unfold message_frame. rewrite <- !app_assoc. reflexivity.
Qed.

Lemma MessageType_of_value (m : MessageType) :
  MessageType_of (Z_of_byte (byte_of_Z (MessageType_value m))) = Some m.
Proof. destruct m; reflexivity. Qed.

Lemma receive_message_frame_of (m : MessageType) (payload rest : list byte)
    (r : Session) :
  Z.of_nat (length payload) + 1 <= MAX_MESSAGE_LENGTH ->
  _reader r = message_frame m payload ++ rest ->
  _receive_message r = (with_reader rest r, Return (Some (m, payload))).
Proof.
  intros Hlen Hr. unfold message_frame in Hr.
  assert (Hmax : MAX_MESSAGE_LENGTH = 262144) by reflexivity.
  rewrite be_encode_4 in Hr.
  eapply receive_message_frame.
  - rewrite Hr. rewrite <- app_assoc. reflexivity.
  - rewrite <- be_encode_4, be_decode_encode_4 by lia. simpl length. lia.
  - simpl length. lia.
  - apply MessageType_of_value.
Qed.

(** X15. What [_send_message] writes for a message is what
    [_receive_message] reads back: the same message id and the
    concatenated payload, with the stream advanced past the frame.  A
    keep-alive is four zero bytes and reads back as no message. *)
Theorem message_round_trip (m : MessageType) (payload : list (list byte))
    (s : Session) :
  Z.of_nat (length (concat payload)) + 1 <= MAX_MESSAGE_LENGTH ->
  (exists frame,
     _send_message (Some m) payload s
     = (with_writer (_writer s ++ frame) s, Return tt)
     /\ forall r rest,
          _reader r = frame ++ rest ->
          _receive_message r
          = (with_reader rest r, Return (Some (m, concat payload))))
  /\ send_keep_alive s
     = (with_writer (_writer s ++ _KEEP_ALIVE_MESSAGE) s, Return tt)
  /\ forall r rest,
       _reader r = _KEEP_ALIVE_MESSAGE ++ rest ->
       _receive_message r = (with_reader rest r, Return None).
Proof.
  intros Hlen.
  assert (Hmax : MAX_MESSAGE_LENGTH = 262144) by reflexivity.
  split; [|split].
  - exists (message_frame m (concat payload)). split.
    + apply send_message_frame. lia.
    + intros r rest Hr. apply receive_message_frame_of; assumption.
  - reflexivity.
  - intros r rest Hr. unfold _receive_message, bind.
    rewrite (readexactly_app 4 _KEEP_ALIVE_MESSAGE rest r eq_refl Hr).
    reflexivity.
Qed.



End Facts.
End RoundTripFacts.

(** ** The handshake *)

Module HandshakeFacts.
Import Wire WireFacts FieldFacts Bitarray BitarrayFacts Models PeerTCPClient.
Import PeerFacts SessionFacts RoundTripFacts.

Section Facts.
Context `{Collaborators}.

(** X17. [accept] writes our protocol header and reads the peer's: on a
    stream that starts with the protocol header, any 8 reserved bytes, 20
    bytes of info_hash and a peer id as long as ours, it returns that
    info_hash and peer id, unless the peer id is our own ("Connection to
    ourselves") or differs from the one expected ("Unexpected peer_id");
    on 28 bytes that do not start with the protocol header it raises
    "Unknown protocol".  The reserved bytes are not looked at. *)
Theorem accept_reads_handshake (s : Session) (expected : option (list byte)) :
  (forall reserved ih pid rest,
     length reserved = 8%nat ->
     length ih = 20%nat ->
     length pid = length (_our_peer_id s) ->
     _reader s = HANDSHAKE_DATA ++ reserved ++ ih ++ pid ++ rest ->
     accept expected s
     = (with_reader rest
          (with_writer (_writer s ++ HANDSHAKE_DATA ++ RESERVED_BYTES) s),
        if bool_decide (_our_peer_id s = pid)
        then Raise (ValueError "Connection to ourselves")
        else match expected with
             | Some p =>
                 if bool_decide (p = pid) then Return (ih, pid)
                 else Raise (ValueError "Unexpected peer_id")
             | None => Return (ih, pid)
             end))
  /\ (forall header rest,
        length header = 28%nat ->
        take 20 header <> HANDSHAKE_DATA ->
        _reader s = header ++ rest ->
        accept expected s
        = (with_reader rest
             (with_writer (_writer s ++ HANDSHAKE_DATA ++ RESERVED_BYTES) s),
           Raise (ValueError "Unknown protocol"))).
Proof.
  assert (Hhd : length HANDSHAKE_DATA = 20%nat) by reflexivity.
  assert (Hrb : length RESERVED_BYTES = 8%nat) by reflexivity.
  set (s1 := with_writer (_writer s ++ HANDSHAKE_DATA ++ RESERVED_BYTES) s).
  assert (Hstart : forall k : M (list byte * list byte),
            bind _send_protocol_data (fun _ => k) s = k s1).
  { intros k. reflexivity. }
  split.
  - intros reserved ih pid rest Hres Hih Hpid Hr.
    unfold accept. rewrite Hstart.
    unfold bind at 1. unfold _receive_protocol_data, bind at 1.
    rewrite (readexactly_app _ (HANDSHAKE_DATA ++ reserved)
               (ih ++ pid ++ rest) s1)
      by (rewrite ?length_app, ?Hhd, ?Hrb, ?Hres; try reflexivity;
          rewrite <- app_assoc; exact Hr).
    rewrite take_app_length.
    rewrite bool_decide_eq_true_2 by reflexivity.
    cbv [ret]. cbv [_receive_info bind get].
    change (_our_peer_id (with_reader (ih ++ pid ++ rest) s1))
      with (_our_peer_id s).
    rewrite (readexactly_app _ (ih ++ pid) rest
               (with_reader (ih ++ pid ++ rest) s1))
      by (rewrite ?length_app, ?Hih, ?Hpid; try reflexivity;
          simpl; rewrite <- app_assoc; reflexivity).
    rewrite with_reader_with_reader.
    unfold SHA1_DIGEST_LEN.
    rewrite (take_app_length' ih pid 20) by (symmetry; exact Hih).
    rewrite (drop_app_length' ih pid 20) by (symmetry; exact Hih).
    destruct (bool_decide (_our_peer_id s = pid)); [reflexivity|].
    destruct expected as [p|]; [|reflexivity].
    destruct (bool_decide (p = pid)); reflexivity.
  - intros header rest Hlen Hne Hr.
    unfold accept. rewrite Hstart.
    unfold bind at 1. unfold _receive_protocol_data, bind at 1.
    rewrite (readexactly_app _ header rest s1)
      by (rewrite ?Hhd, ?Hrb, ?Hlen; try reflexivity; exact Hr).
    rewrite Hhd. rewrite bool_decide_eq_false_2 by exact Hne.
    reflexivity.
Qed.

Lemma bind_inv {A B} (m : M A) (k : A -> M B) (s s' : Session)
    (res : result B) :
  bind m k s = (s', res) ->
  (exists s1 a, m s = (s1, Return a) /\ k a s1 = (s', res))
  \/ (exists e, m s = (s', Raise e) /\ res = Raise e).
Proof.
  unfold bind. destruct (m s) as [s1 [a|e]]; intros Hb.
  - left. eauto.
  - right. injection Hb as <- <-. eauto.
Qed.

Ltac identity :=
  intros; unfold same_identity in *;
  repeat match goal with s : Session |- _ => destruct s end;
  simpl in *;
  repeat match goal with H : _ /\ _ |- _ => destruct H end;
  subst; intuition (subst; auto; congruence).

Lemma identity_populate_info (d : DownloadInfo) (fs : FileStructure) :
  preserves same_identity (_populate_info d fs).
Proof.
  intros s. cbv [_populate_info bind modify get write raise].
  destruct (piece_count d <? 0); identity.
Qed.

Lemma identity_receive_protocol_data :
  preserves same_identity _receive_protocol_data.
Proof.
  intros s. cbv [_receive_protocol_data bind readexactly ret raise].
  destruct (_ <? _); [identity|].
  destruct (bool_decide _); identity.
Qed.

Lemma identity_send_bitfield : preserves same_identity _send_bitfield.
Proof.
  intros s. cbv [_send_bitfield bind get ret].
  destruct (negb _); [|identity].
  apply (preserves_send_message same_identity); identity.
Qed.

Lemma identity_readexactly (n : Z) : preserves same_identity (readexactly n).
Proof.
  intros s. unfold readexactly.
  destruct (_ <? n); simpl; destruct s; split; reflexivity.
Qed.

(** An info exchange that returns gives a peer id that is not ours and is
    the expected one, if one was expected. *)
Lemma receive_info_returns (expected : option (list byte)) (s s' : Session)
    (ih pid : list byte) :
  _receive_info expected s = (s', Return (ih, pid)) ->
  pid <> _our_peer_id s
  /\ (forall p, expected = Some p -> p = pid)
  /\ same_identity s s'.
Proof.
  intros Hrun. unfold _receive_info in Hrun.
  apply bind_inv in Hrun as [(s0 & a & Hget & Hrun)|(e & _ & He)];
    [|discriminate].
  unfold get in Hget. injection Hget as <- <-.
  apply bind_inv in Hrun as [(s1 & response & Hread & Hrun)|(e & _ & He)];
    [|discriminate].
  pose proof (identity_readexactly
                (Z.of_nat (SHA1_DIGEST_LEN + length (_our_peer_id s))) s)
    as Hid.
  rewrite Hread in Hid. simpl fst in Hid.
  cbv zeta in Hrun.
  destruct (bool_decide (_our_peer_id s = drop SHA1_DIGEST_LEN response))
    eqn:Eo; [discriminate|].
  apply bool_decide_eq_false in Eo.
  destruct expected as [p|].
  - destruct (bool_decide (p = drop SHA1_DIGEST_LEN response)) eqn:Ee;
      [|discriminate].
    apply bool_decide_eq_true in Ee.
    unfold ret in Hrun. injection Hrun as <- _ <-.
    split; [intros Hq; apply Eo; symmetry; exact Hq|].
    split; [intros p' [= <-]; exact Ee|exact Hid].
  - unfold ret in Hrun. injection Hrun as <- _ <-.
    split; [intros Hq; apply Eo; symmetry; exact Hq|].
    split; [discriminate|exact Hid].
Qed.

(** X18. Starting from a session that is not connected, [connect] ends
    connected exactly when it returns: every failure, of the handshake or
    around it, leaves [connected] false.  The peer id it returns is never
    our own and is the expected one when one was expected. *)
Theorem connect_outcome (d : DownloadInfo) (fs : FileStructure)
    (expected : option (list byte)) (s s' : Session) :
  _connected s = false ->
  (forall pid,
     connect d fs expected s = (s', Return pid) ->
     _connected s' = true
     /\ pid <> _our_peer_id s
     /\ (forall p, expected = Some p -> p = pid))
  /\ (forall e,
        connect d fs expected s = (s', Raise e) -> _connected s' = false).
Proof.
  intros Hc.
  set (s1 := with_writer (_writer s ++ HANDSHAKE_DATA ++ RESERVED_BYTES) s).
  assert (H1 : same_identity s s1) by (unfold s1; identity).
  assert (Hconn :
    forall res,
      connect d fs expected s = (s', res) ->
      (exists e, res = Raise e /\ _connected s' = false)
      \/ (exists pid, res = Return pid /\ _connected s' = true
                      /\ pid <> _our_peer_id s
                      /\ forall p, expected = Some p -> p = pid)).
  { intros res Hrun. unfold connect in Hrun.
    change (bind _send_protocol_data ?k s) with (k tt s1) in Hrun.
    apply bind_inv in Hrun as [(s2 & [] & Hpop & Hrun)|(e & Hpop & ->)].
    2:{ left. exists e. split; [reflexivity|].
        pose proof (identity_populate_info d fs s1) as Hp.
        rewrite Hpop in Hp. simpl in Hp. destruct H1, Hp. congruence. }
    assert (H2 : same_identity s s2).
    { pose proof (identity_populate_info d fs s1) as Hp.
      rewrite Hpop in Hp. simpl in Hp. destruct H1, Hp.
      split; congruence. }
    apply bind_inv in Hrun as [(s3 & pid & Htry & Hrun)|(e & Htry & ->)].
    2:{ left. exists e. split; [reflexivity|].
        unfold closing_on_error in Htry.
        destruct (bind _receive_protocol_data _ s2) as [s2' [a|e']];
          [discriminate|].
        injection Htry as <- _. destruct s2'. reflexivity. }
    unfold closing_on_error in Htry.
    destruct (bind _receive_protocol_data _ s2) as [s3' [a|e']] eqn:Einner;
      [|discriminate].
    injection Htry as -> ->.
    apply bind_inv in Einner as [(s2a & [] & Hrpd & Einner)|(e & _ & He)];
      [|discriminate].
    assert (H2a : same_identity s s2a).
    { pose proof (identity_receive_protocol_data s2) as Hp.
      rewrite Hrpd in Hp. simpl in Hp. destruct H2, Hp. split; congruence. }
    apply bind_inv in Einner as [(s2b & [ih pid'] & Hri & Einner)|(e & _ & He)];
      [|discriminate].
    apply receive_info_returns in Hri as (Hnot & Hexp & Hid).
    simpl in Einner.
    destruct (bool_decide _); [|discriminate].
    injection Einner as -> ->.
    assert (H3 : same_identity s s3).
    { destruct H2a, Hid. split; congruence. }
    assert (Hpid : pid <> _our_peer_id s).
    { destruct H2a as [_ <-]. exact Hnot. }
    apply bind_inv in Hrun as [(s4 & [] & Hbf & Hrun)|(e & Hbf & ->)].
    2:{ left. exists e. split; [reflexivity|].
        pose proof (identity_send_bitfield s3) as Hp.
        rewrite Hbf in Hp. simpl in Hp. destruct H3, Hp. congruence. }
    cbv [bind modify ret] in Hrun. injection Hrun as <- <-.
    right. exists pid. split; [reflexivity|].
    split; [destruct s4; reflexivity|]. split; [exact Hpid|exact Hexp]. }
  split.
  - intros pid Hrun. destruct (Hconn _ Hrun) as [(e & He & _)|(p & Hp & Hrest)];
      [discriminate|]. injection Hp as <-. exact Hrest.
  - intros e Hrun. destruct (Hconn _ Hrun) as [(e' & _ & Hf)|(p & Hp & _)];
      [exact Hf|discriminate].
Qed.

End Facts.
End HandshakeFacts.

(** ** Our bitfield on the other side *)

Module BitfieldExchange.
Import Wire WireFacts FieldFacts Bitarray BitarrayFacts Models PeerTCPClient.
Import PeerFacts RoundTripFacts.

Section Facts.
Context `{Collaborators}.

Lemma existsb_false {A} (f : A -> bool) (l : list A) :
  (forall x, x ∈ l -> f x = false) -> existsb f l = false.
Proof.
  induction l as [|x l IH]; intros Hf; [reflexivity|]. simpl.
  rewrite (Hf x) by left. simpl. apply IH. intros y Hy. apply Hf. right.
  exact Hy.
Qed.

(** X19. The bitfield that [_send_bitfield] writes passes the checks of a
    receiver on the same torrent: its payload has ceil(piece_count/8)
    bytes and no spare bit set, so [_handle_haves] returns, and the
    receiver has then marked the sender as an owner of every piece the
    sender has downloaded. *)
Theorem sent_bitfield_is_accepted (s r : Session) :
  populated r ->
  Z.of_nat (length (pieces (_download_info s)))
  = piece_count (_download_info r) ->
  piece_count (_download_info r) < 2 ^ 32 - 1 ->
  downloaded_piece_count (_download_info s) <> 0 ->
  exists payload r',
    _send_bitfield s
    = (with_writer (_writer s ++ message_frame bitfield payload) s, Return tt)
    /\ _handle_haves bitfield payload r = (r', Return tt)
    /\ forall k p,
         pieces (_download_info s) !! k = Some p ->
         downloaded p = true ->
         marked_owner r' k.
Proof.
  intros Hpop Hsame Hsmall Hdl.
  change (2 ^ 32 - 1) with 4294967295 in Hsmall.
  set (bits := map downloaded (pieces (_download_info s))).
  set (pc := piece_count (_download_info r)) in *.
  assert (Hbits : Z.of_nat (length bits) = pc)
    by (unfold bits; rewrite length_map; exact Hsame).
  set (payload := tobytes bits).
  destruct (length_tobytes bits) as [Hle Hlen]. fold payload in Hle, Hlen.
  destruct (frombytes_tobytes bits) as (pad & Hpad & Harr).
  fold payload in Harr.
  exists payload.
  destruct (mark_owned_loop (frombytes payload) (range 0 pc) r Hpop)
    as (r1 & E1 & P1 & G1 & M1).
  { intros i Hi. unfold range in Hi. apply elem_of_seqZ in Hi. fold pc.
    rewrite Harr, length_app. lia. }
  exists r1. split; [|split].
  - cbv [_send_bitfield bind get].
    apply Z.eqb_neq in Hdl. rewrite Hdl. cbn [negb].
    fold bits. fold payload.
    assert (Hcat : concat [payload] = payload) by apply app_nil_r.
    rewrite send_message_frame by (rewrite Hcat; lia).
    rewrite Hcat. reflexivity.
  - cbv [_handle_haves bind get _check_payload_len]. fold pc.
    replace (Z.of_nat (length payload) =? ceil_div8 pc) with true
      by (symmetry; apply Z.eqb_eq; rewrite Hlen, Hbits; reflexivity).
    cbv [ret]. rewrite E1. rewrite check_spare_loop.
    + rewrite existsb_false; [reflexivity|].
      intros i Hi. unfold range in Hi. apply elem_of_seqZ in Hi.
      rewrite Harr, lookup_app_r by lia.
      destruct (replicate pad false !! (Z.to_nat i - length bits)%nat)
        as [b|] eqn:Eb; [|reflexivity].
      apply lookup_replicate in Eb as [-> _]. reflexivity.
    + intros i Hi. unfold range in Hi. apply elem_of_seqZ in Hi. lia.
  - intros k p Hp Hd.
    pose proof (lookup_lt_Some _ _ _ Hp) as Hk.
    rewrite <- (Nat2Z.id k). apply M1.
    + unfold range. apply elem_of_seqZ. lia.
    + rewrite Nat2Z.id, Harr, lookup_app_l
        by (unfold bits; rewrite length_map; exact Hk).
      unfold bits. rewrite lookup_map, Hp. simpl. rewrite Hd. reflexivity.
Qed.

End Facts.
End BitfieldExchange.

(** ** The books after the start-up verification *)

Module BookkeepingFacts.
Import Models TorrentManager ManagerFacts.

Section Facts.
Context `{Collaborators}.
Variable get_real_piece_length : DownloadInfo -> Z -> Z.

Lemma selected_from_ext (ps : list PieceInfo) :
  forall ps' k,
    (forall i, selected <$> ps !! i = selected <$> ps' !! i) ->
    selected_from k ps = selected_from k ps'.
Proof.
  induction ps as [|p ps IH]; intros ps' k Hext.
  - destruct ps' as [|p' ps']; [reflexivity|].
    specialize (Hext 0%nat). discriminate Hext.
  - destruct ps' as [|p' ps']; [specialize (Hext 0%nat); discriminate Hext|].
    pose proof (Hext 0%nat) as H0. simpl in H0. injection H0 as H0.
    simpl. rewrite H0.
    rewrite (IH ps' (S k)) by (intros i; apply (Hext (S i))).
    reflexivity.
Qed.

(** What the loop does to the two running books. *)
Lemma verify_loop_books (d : DownloadInfo) (fs : FileStructure)
    (indices : list nat) :
  forall v v',
    NoDup indices ->
    verify_loop get_real_piece_length d fs indices v = Some v' ->
    (forall i, i ∉ indices -> v_pieces v' !! i = v_pieces v !! i)
    /\ v_downloaded_piece_count v'
       = v_downloaded_piece_count v + count_downloaded (v_pieces v') indices
    /\ (forall i, i ∈ missing_pieces v'
                  <-> i ∈ missing_pieces v
                      \/ (i ∈ indices
                          /\ downloaded_at (v_pieces v') i = false)).
Proof.
  induction indices as [|index rest IH]; intros v v' Hnd Hloop.
  - injection Hloop as <-. split; [auto|]. split; [simpl; lia|].
    intros i. split; [auto|]. intros [Hi|[Hi _]]; [exact Hi|inversion Hi].
  - apply NoDup_cons in Hnd as [Hnotin Hnd].
    simpl in Hloop.
    destruct (verify_piece get_real_piece_length d fs index v) as [v1|] eqn:Ev;
      [|discriminate].
    destruct (v_pieces v !! index) as [p|] eqn:Hp;
      [|unfold verify_piece in Ev; rewrite Hp in Ev; discriminate].
    destruct (verify_piece_spec get_real_piece_length d fs index v p Hp)
      as (q & Ev' & _ & Hdl).
    rewrite Ev in Ev'. injection Ev' as ->.
    destruct (IH _ v' Hnd Hloop) as (Hout & Hcount & Hmiss).
    simpl in Hout, Hcount, Hmiss.
    assert (Hlt : (index < length (v_pieces v))%nat)
      by (apply (lookup_lt_Some _ _ _ Hp)).
    assert (Hat : downloaded_at (v_pieces v') index
                  = piece_verifies get_real_piece_length d fs index p).
    { unfold downloaded_at. rewrite (Hout index Hnotin).
      rewrite list_lookup_insert_eq by exact Hlt. exact Hdl. }
    split; [|split].
    + intros i Hi. rewrite not_elem_of_cons in Hi. destruct Hi as [Hne Hi].
      rewrite (Hout i Hi). apply list_lookup_insert_ne. congruence.
    + simpl count_downloaded. rewrite Hat, Hcount. lia.
    + intros i. rewrite Hmiss, elem_of_cons.
      destruct (piece_verifies get_real_piece_length d fs index p) eqn:Everif.
      * split.
        -- intros [Hi|[Hi Hd]]; [left; exact Hi|right; auto].
        -- intros [Hi|[[->|Hi] Hd]]; [left; exact Hi|congruence|right; auto].
      * rewrite elem_of_app, list_elem_of_singleton. split.
        -- intros [[Hi| ->]|[Hi Hd]]; [left; exact Hi|right; auto|right; auto].
        -- intros [Hi|[[->|Hi] Hd]]; [left; left; exact Hi|left; right; reflexivity
                                      |right; auto].
Qed.

(** X20. After the start-up verification, pieces that are not selected
    are as they were, [downloaded_piece_count] is the number of selected
    pieces that are downloaded, and [interesting_pieces] holds exactly the
    indices of the selected pieces that are not. *)
Theorem verification_bookkeeping (d : DownloadInfo) (fs : FileStructure) :
  exists d',
    _verify_existing_data get_real_piece_length d fs = Some d'
    /\ selected_piece_indices (pieces d') = selected_piece_indices (pieces d)
    /\ (forall i p, pieces d !! i = Some p -> selected p = false ->
                    pieces d' !! i = Some p)
    /\ downloaded_piece_count d'
       = count_downloaded (pieces d') (selected_piece_indices (pieces d'))
    /\ (forall i : nat,
          Z.of_nat i ∈ interesting_pieces d'
          <-> i ∈ selected_piece_indices (pieces d')
              /\ downloaded_at (pieces d') i = false).
Proof.
  unfold _verify_existing_data.
  pose proof (selected_piece_indices_spec (pieces d)) as Hspec.
  pose proof (selected_from_NoDup (pieces d) 0) as Hnd.
  fold (selected_piece_indices (pieces d)) in Hnd.
  destruct (selected_piece_indices (pieces d)) as [|i0 rest] eqn:Eidx.
  - eexists. split; [reflexivity|]. simpl. rewrite Eidx.
    split; [reflexivity|]. split; [auto|]. split; [reflexivity|].
    intros i. split; [intros Hi; inversion Hi|intros [Hi _]; inversion Hi].
  - rewrite <- Eidx in *.
    set (indices := selected_piece_indices (pieces d)) in *.
    set (v0 := {| v_pieces := pieces d; v_downloaded_piece_count := 0;
                  verified_count := 0; missing_pieces := [] |}).
    destruct (verify_loop_spec get_real_piece_length d fs indices v0 Hnd)
      as (v' & Ev & Hout & Hin & _).
    { intros i Hi. apply Hspec in Hi as (p & Hp & _).
      simpl. apply (lookup_lt_Some _ _ _ Hp). }
    destruct (verify_loop_books d fs indices v0 v' Hnd Ev)
      as (_ & Hcount & Hmiss).
    rewrite Ev. eexists. split; [reflexivity|]. simpl in *.
    assert (Hsel : selected_piece_indices (v_pieces v') = indices).
    { unfold indices, selected_piece_indices. apply selected_from_ext.
      intros i. destruct (decide (i ∈ indices)) as [Hi|Hi].
      - pose proof Hi as Hi'. apply Hspec in Hi' as (p & Hp & _).
        destruct (Hin i p Hi Hp) as (p' & Hp' & Hs & _).
        rewrite Hp', Hp. simpl. rewrite Hs. reflexivity.
      - rewrite (Hout i Hi). reflexivity. }
    rewrite Hsel. split; [reflexivity|]. split; [|split].
    + intros i p Hp Hs. rewrite Hout; [exact Hp|].
      intros Hi. apply Hspec in Hi as (p0 & Hp0 & Hs0). congruence.
    + rewrite Hcount. lia.
    + intros i. rewrite elem_of_list_to_set, list_elem_of_fmap. split.
      * intros (j & Hj & Hm). apply Nat2Z.inj in Hj. subst j.
        apply Hmiss in Hm as [Hm|Hm]; [inversion Hm|exact Hm].
      * intros Hi. exists i. split; [reflexivity|].
        apply Hmiss. right. exact Hi.
Qed.

End Facts.
End BookkeepingFacts.

(** ** Flags across the wire, stored blocks, registered peer ids *)

Module MoreSessionFacts.
Import Wire WireFacts FieldFacts Bitarray Models PeerTCPClient.
Import PeerFacts RoundTripFacts.

Section Facts.
Context `{Collaborators}.

Lemma receive_bare_frame (m : MessageType) (b : Session) (rest : list byte) :
  _reader b = bare_frame m ++ rest ->
  _receive_message b = (with_reader rest b, Return (Some (m, []))).
Proof.
  intros Hr.
  apply (receive_message_frame b x00 x00 x00 x01
           (byte_of_Z (MessageType_value m)) [] rest m);
    [exact Hr|reflexivity|vm_compute; discriminate
    |apply MessageType_of_value].
Qed.

(** X21. A change of [am_choking] on one side arrives as the same change
    of [peer_choking] on the other: the frame the setter writes is, for the
    session that reads it, one loop iteration that sets [peer_choking] to
    the new value and touches nothing else; likewise for [am_interested]
    and [peer_interested]. *)
Theorem flag_changes_are_mirrored (a b : Session) (value : bool)
    (rest : list byte) :
  _connected a = true ->
  (_am_choking a <> value ->
   exists frame,
     set_am_choking value a
     = (with_writer (_writer a ++ frame) (with_am_choking value a), Return tt)
     /\ (_reader b = frame ++ rest ->
         run_iteration b
         = (with_peer_choking value (with_reader rest b), Return tt)))
  /\ (_am_interested a <> value ->
      exists frame,
        set_am_interested value a
        = (with_writer (_writer a ++ frame) (with_am_interested value a),
           Return tt)
        /\ (_reader b = frame ++ rest ->
            run_iteration b
            = (with_peer_interested value (with_reader rest b), Return tt))).
Proof.
  intros Hc. split.
  - intros Hne. exists (bare_frame (if value then choke else unchoke)). split.
    + rewrite set_am_choking_connected by exact Hc.
      destruct (_am_choking a), value; simpl; try reflexivity; congruence.
    + intros Hr. unfold run_iteration, bind.
      rewrite (receive_bare_frame _ b rest Hr).
      destruct value; reflexivity.
  - intros Hne.
    exists (bare_frame (if value then interested else not_interested)). split.
    + rewrite set_am_interested_connected by exact Hc.
      destruct (_am_interested a), value; simpl; try reflexivity; congruence.
    + intros Hr. unfold run_iteration, bind.
      rewrite (receive_bare_frame _ b rest Hr).
      destruct value; reflexivity.
Qed.

(** X22. A block that is accepted (we are interested, the position check
    passes, the block is not empty, the piece is neither validating nor
    downloaded) is counted in [_downloaded] and in the statistics, then
    written at offset piece_index * piece_length + begin, and only if the
    write succeeds marked in the piece; a failing write raises [OSError]
    with the two counters already incremented. *)
Theorem accepted_block_is_stored (s : Session) (payload : list byte)
    (p : PieceInfo) :
  let data := drop 8 payload in
  let rq := {| piece_index := field 0 4 payload;
               block_begin := field 4 4 payload;
               block_length := Z.of_nat (length data) |} in
  let d := _download_info s in
  _am_interested s = true ->
  (8 < length payload)%nat ->
  _check_position_range rq s = (s, Return tt) ->
  pieces d !! Z.to_nat (piece_index rq) = Some p ->
  validating p = false ->
  downloaded p = false ->
  let counted :=
    with_download_info
      (set_session_statistics
         (add_downloaded (_peer s) (block_length rq) (session_statistics d)) d)
      (with_downloaded (_downloaded s + block_length rq) s) in
  let result :=
    fs_write (piece_index rq * piece_length d + block_begin rq) data
      (_file_structure s) in
  let written := with_file_structure (fst result) counted in
  _handle_block payload s
  = if snd result
    then (with_download_info
            (set_pieces
               (<[Z.to_nat (piece_index rq) :=
                    mark_downloaded_blocks (_peer s) rq p]> (pieces d))
               (_download_info written)) written, Return tt)
    else (written, Raise OSError).
Proof.
  intros data rq d Hint Hlen Hrange Hp Hv Hd counted result written.
  assert (Hidx : 0 <= piece_index rq) by apply field_4_range.
  unfold _handle_block. unfold bind at 1. unfold get at 1.
  rewrite Hint. cbn [negb].
  destruct (Nat.ltb_spec (length payload) 8); [lia|].
  fold data. fold rq. unfold bind at 1. rewrite Hrange.
  destruct (Z.eqb_spec (Z.of_nat (length data)) 0) as [E|_].
  { unfold data in E. rewrite length_drop in E. lia. }
  unfold bind at 1.
  change (field 0 4 payload) with (piece_index rq).
  rewrite (get_piece_lookup _ p s Hidx Hp).
  rewrite Hv, Hd. cbn [orb].
  cbv [bind modify get]. unfold written, result, counted, d.
  cbn [_download_info _file_structure _peer piece_length with_download_info
       with_downloaded set_session_statistics block_length piece_index
       block_begin rq].
  destruct (fs_write _ _ _) as [fs ok].
  destruct ok; reflexivity.
Qed.

End Facts.
End MoreSessionFacts.

Module RegistrationFacts.
Import Wire WireFacts FieldFacts Tracker TrackerFacts DictFacts.
Import TorrentDataFacts AnnounceFacts.

Lemma keys_add_peer (peer_id : list byte) (ip0 : string) (port0 : Z)
    (seeder : bool) (td : TorrentData) (pid : list byte) :
  pid ∈ Dict.keys (peers td) ->
  pid ∈ Dict.keys (peers (add_peer peer_id ip0 port0 seeder td)).
Proof.
  intros Hin.
  assert (Hset : forall k v, pid ∈ Dict.keys (Dict.set k v (peers td))).
  { intros k v. destruct (Dict.get k (peers td)) as [old|] eqn:Eg.
    - rewrite (keys_set_present k v old _ Eg). exact Hin.
    - rewrite (set_absent k v _ Eg). unfold Dict.keys. rewrite map_app.
      apply elem_of_app. left. exact Hin. }
  destruct (add_peer_cases peer_id ip0 port0 seeder td)
    as (_ & [(e & old & _ & _ & _ & -> & _)|(_ & -> & _)]); apply Hset.
Qed.

Section Runs.
Variable inet_aton : string -> option (list byte).
Variable inet_pton6 : string -> option (list byte).

(** A datagram leaves the table of torrents alone or assigns one entry the
    result of [add_peer] on what was there. *)
Lemma torrents_after_step (st : Server) (e : Datagram) :
  torrents (fst (step inet_aton inet_pton6 st e)) = torrents st
  \/ exists ih pid host port0 seeder,
       torrents (fst (step inet_aton inet_pton6 st e))
       = Dict.set ih
           (add_peer pid host port0 seeder
              (default TorrentData_init (Dict.get ih (torrents st))))
           (torrents st).
Proof.
  unfold step, datagram_received.
  destruct (unpack_action (dg_data e)) as [[action transaction_id]|]; [|auto].
  destruct (action =? 0).
  { unfold handle_connect.
    destruct (pack_uint 4 0), (pack_uint 4 transaction_id),
      (pack_uint 8 (dg_rnd e)); auto. }
  destruct (action =? 1); [|auto].
  unfold handle_announce.
  destruct (unpack_announce (dg_data e)) as [rq|] eqn:Eu; [|auto].
  destruct (is_connection_id_valid _ _ _); simpl; [|auto].
  right.
  exists (a_info_hash rq), (a_peer_id rq), (dg_host e), (a_port rq),
    (a_left rq =? 0).
  destruct (announce_header _ _); [|reflexivity].
  destruct (a_event rq =? 3); reflexivity.
Qed.

(** X23. The server never drops a peer id: once a peer id is registered
    for a torrent it is still registered after any further datagrams,
    stopped announces included. *)
Theorem peer_ids_are_never_removed (tr tr' : list Datagram)
    (ih : list byte) (td : TorrentData) (pid : list byte) :
  Dict.get ih (torrents (run_trace inet_aton inet_pton6 tr)) = Some td ->
  pid ∈ Dict.keys (peers td) ->
  exists td',
    Dict.get ih (torrents (run_trace inet_aton inet_pton6 (tr ++ tr')))
    = Some td'
    /\ pid ∈ Dict.keys (peers td').
Proof.
  intros Hg Hin. induction tr' as [|e tr' IH] using rev_ind.
  - rewrite app_nil_r. eauto.
  - destruct IH as (td1 & Hg1 & Hin1).
    rewrite app_assoc, run_trace_snoc.
    destruct (torrents_after_step
                (run_trace inet_aton inet_pton6 (tr ++ tr')) e)
      as [-> |(ih0 & p0 & host & port0 & seeder & ->)]; [eauto|].
    destruct (decide (ih0 = ih)) as [->|Hne].
    + rewrite get_set_eq, Hg1. simpl. eexists. split; [reflexivity|].
      apply keys_add_peer. exact Hin1.
    + rewrite get_set_ne by exact Hne. eauto.
Qed.

End Runs.
End RegistrationFacts.

(** ** The further properties on the examples *)

Module MoreExamples.
Import Wire Bitarray Models PeerTCPClient TorrentManager Tracker Demo.
Import PeerFacts ConnectionFacts TorrentDataFacts AnnounceFacts SessionFacts.
Import RoundTripFacts HandshakeFacts BitfieldExchange MoreSessionFacts.
Import RegistrationFacts.




(** The peer at port 1 is offered to the announcer at port 2. *)
Lemma announcer_not_among_selected_peers_witness :
  endpoint {| ip := "127.0.0.1"; port := 1; is_seeder := false |}
  <> ("127.0.0.1"%string, 2).
Proof.
  apply (announcer_not_among_selected_peers 50 "127.0.0.1" 2 two_leechers).
  vm_compute. left.
Defined.

(** The default announce of the example swarm gets a header and whole
    entries. *)
Lemma announce_response_size_witness :
  exists resp k,
    snd (handle_announce inet_aton inet_pton6 2 (dg_data announce_default)
           "127.0.0.1" (run_trace inet_aton inet_pton6 (swarm 2)))
    = Some resp
    /\ length resp = (20 + 6 * k)%nat.
Proof.
  eexists.
  destruct (announce_response_size inet_aton inet_pton6 2
              (dg_data announce_default) "127.0.0.1"
              (run_trace inet_aton inet_pton6 (swarm 2)) _ _
              ltac:(vm_compute; reflexivity) ltac:(vm_compute; reflexivity))
    as (k & Hk & _).
  exists k. split; [vm_compute; reflexivity|exact Hk].
Defined.

(** The torrent of the example swarm has distinct endpoints. *)
Lemma reachable_endpoints_distinct_witness :
  exists td,
    Dict.get swarm_info_hash
      (torrents (run_trace inet_aton inet_pton6 (swarm 2))) = Some td
    /\ distinct_endpoints td.
Proof.
  eexists. split; [vm_compute; reflexivity|].
  eapply (reachable_endpoints_distinct inet_aton inet_pton6 (swarm 2)
            swarm_info_hash).
  vm_compute. reflexivity.
Defined.

(** Its counters cover its two records. *)
Lemma reachable_counts_cover_witness :
  exists td,
    Dict.get swarm_info_hash
      (torrents (run_trace inet_aton inet_pton6 (swarm 2))) = Some td
    /\ counts_cover td.
Proof.
  eexists. split; [vm_compute; reflexivity|].
  eapply (reachable_counts_cover inet_aton inet_pton6 (swarm 2)
            swarm_info_hash).
  vm_compute. reflexivity.
Defined.

(** The default announce is answered in the state the swarm reached. *)
Lemma reachable_announce_answered_witness :
  exists resp,
    snd (handle_announce inet_aton inet_pton6 2 (dg_data announce_default)
           "127.0.0.1" (run_trace inet_aton inet_pton6 (swarm 2)))
    = Some resp.
Proof.
  eapply (reachable_announce_answered inet_aton inet_pton6 (swarm 2) 2
            (dg_data announce_default) "127.0.0.1").
  - vm_compute. reflexivity.
  - vm_compute. reflexivity.
  - vm_compute. reflexivity.
  - vm_compute. reflexivity.
Defined.

(** A third peer with a new id joins the two leechers. *)
Lemma add_peer_keeps_counts_exact_witness :
  counts_exact (add_peer (be_encode 20 3) "127.0.0.1" 3 true two_leechers).
Proof.
  apply add_peer_keeps_counts_exact.
  - split; reflexivity.
  - right. reflexivity.
Defined.

(** The leecher of port 1 announces from port 9: two records, three
    counted. *)
Lemma add_peer_recounts_moved_peer_witness :
  seeders_count (add_peer (be_encode 20 1) "127.0.0.1" 9 false two_leechers)
  + leechers_count (add_peer (be_encode 20 1) "127.0.0.1" 9 false two_leechers)
  = Z.of_nat
      (length (peers (add_peer (be_encode 20 1) "127.0.0.1" 9 false
                        two_leechers))) + 1.
Proof.
  destruct (add_peer_recounts_moved_peer (be_encode 20 1) "127.0.0.1" 9 false
              two_leechers
              {| ip := "127.0.0.1"; port := 1; is_seeder := false |})
    as (_ & _ & Hsum); [split; reflexivity|reflexivity|reflexivity|].
  exact Hsum.
Defined.

(** The choking session reads the request and the end of the stream. *)
Lemma incoming_messages_keep_standing_witness :
  exists s' e,
    run 3 choking_session = Some (s', e)
    /\ same_standing choking_session s'.
Proof.
  eexists _, _. split; [vm_compute; reflexivity|].
  eapply (incoming_messages_keep_standing 3). vm_compute. reflexivity.
Defined.

Lemma nothing_uploaded_while_choking_witness :
  exists s' e,
    run 3 choking_session = Some (s', e)
    /\ _uploaded s' = _uploaded choking_session.
Proof.
  eexists _, _. split; [vm_compute; reflexivity|].
  eapply (nothing_uploaded_while_choking 3);
    [vm_compute; reflexivity|reflexivity].
Defined.

(** A request frame written by one session is read back by another. *)
Lemma message_round_trip_witness :
  exists frame,
    _send_message (Some request) [small_request] seeding_session
    = (with_writer (_writer seeding_session ++ frame) seeding_session,
       Return tt)
    /\ forall r rest,
         _reader r = frame ++ rest ->
         _receive_message r
         = (with_reader rest r, Return (Some (request, concat [small_request]))).
Proof.
  exact (proj1 (message_round_trip request [small_request] seeding_session
                  ltac:(vm_compute; discriminate))).
Defined.

Lemma populated_seeding_session : populated seeding_session.
Proof. unfold populated. simpl. repeat split; lia. Qed.


(** Dialing a peer whose id is not ours ends connected. *)
Lemma connect_outcome_witness :
  exists s' pid,
    connect demo_info (replicate 32 x61) None dialing_session
    = (s', Return pid)
    /\ _connected s' = true
    /\ pid <> _our_peer_id dialing_session.
Proof.
  eexists _, _. split; [vm_compute; reflexivity|].
  match goal with
  | |- _connected ?s' = true /\ ?pid <> _ =>
      destruct (connect_outcome demo_info (replicate 32 x61) None
                  dialing_session s' eq_refl) as [Hret _];
      destruct (Hret pid ltac:(vm_compute; reflexivity)) as (Hc & Hp & _)
  end.
  split; [exact Hc|exact Hp].
Defined.

(** The example session's bitfield, read by a copy of itself. *)
Lemma sent_bitfield_is_accepted_witness :
  exists payload r',
    _send_bitfield seeding_session
    = (with_writer (_writer seeding_session ++ message_frame bitfield payload)
         seeding_session, Return tt)
    /\ _handle_haves bitfield payload seeding_session = (r', Return tt)
    /\ marked_owner r' 0.
Proof.
  destruct (sent_bitfield_is_accepted seeding_session seeding_session
              populated_seeding_session eq_refl
              ltac:(vm_compute; reflexivity) ltac:(discriminate))
    as (payload & r' & Hs & Hh & Hm).
  exists payload, r'. split; [exact Hs|]. split; [exact Hh|].
  apply (Hm 0%nat (demo_piece true true)); reflexivity.
Defined.

(** Choking on one side is peer_choking on the other. *)
Lemma flag_changes_are_mirrored_witness :
  exists frame,
    set_am_choking true seeding_session
    = (with_writer (_writer seeding_session ++ frame)
         (with_am_choking true seeding_session), Return tt)
    /\ (_reader (with_reader frame seeding_session) = frame ++ [] ->
        run_iteration (with_reader frame seeding_session)
        = (with_peer_choking true
             (with_reader [] (with_reader frame seeding_session)), Return tt)).
Proof.
  destruct (flag_changes_are_mirrored seeding_session
              (with_reader (bare_frame choke) seeding_session) true []
              eq_refl) as [Hchoke _].
  destruct (Hchoke ltac:(discriminate)) as (frame & Hset & Hrun).
  exists (bare_frame choke). split; [reflexivity|].
  intros _. reflexivity.
Defined.

(** Two bytes of piece 1 arrive and are stored. *)
Lemma accepted_block_is_stored_witness :
  snd (_handle_block fresh_block seeding_session) = Return tt
  /\ _downloaded (fst (_handle_block fresh_block seeding_session)) = 2.
Proof.
  rewrite (accepted_block_is_stored seeding_session fresh_block
             (demo_piece true false)); try reflexivity.
  - split; reflexivity.
  - vm_compute. lia.
Defined.

(** The leecher of port 1 is still registered after the stopped announce. *)
Lemma peer_ids_are_never_removed_witness :
  exists td',
    Dict.get swarm_info_hash
      (torrents (run_trace inet_aton inet_pton6
                   (swarm 2 ++ [announce_stopped]))) = Some td'
    /\ be_encode 20 1 ∈ Dict.keys (peers td').
Proof.
  eapply (peer_ids_are_never_removed inet_aton inet_pton6 (swarm 2)
            [announce_stopped] swarm_info_hash).
  - vm_compute. reflexivity.
  - vm_compute. left.
Defined.

End MoreExamples.
